(** * A shallow embedding of the expense tracker's services and reconciliation logic

    The development follows the TypeScript sources: the value conventions of
    the language (truthiness, [||], [===]), the records of [types/index.ts]
    and of the service modules, the document store and the identity provider
    seen through the calls the services make, then the services
    ([authService], [categoryService], [expenseService]), the
    category-management component, the aggregation by category and the CSV
    exporter.  Asynchronous functions are computations in a
    state-and-exception monad over the backend; every [await] is a bind and
    every [try]/[catch] is [try_catch]. *)

From Stdlib Require Import ZArith Uint63 PrimFloat FloatOps FloatAxioms Ascii String.
From stdpp Require Import gmap strings list fin_maps pretty sorting.

Set Warnings "-inexact-float".
Local Open Scope string_scope.
Local Open Scope list_scope.

(** ** Values of the language *)

Module Js.

(** The primitive values a document field or an untyped expression holds. *)
Inductive value :=
| Undefined
| Null
| Bool (b : bool)
| Num (x : float)
| Str (s : string).

(** A number is falsy when it is [0], [-0] or [NaN]. *)
Definition num_truthy (x : float) : bool :=
  negb (PrimFloat.eqb x 0 || negb (PrimFloat.eqb x x)).

(** A string is falsy when it is empty. *)
Definition str_truthy (s : string) : bool :=
  match s with
  | EmptyString => false
  | String _ _ => true
  end.

Definition truthy (v : value) : bool :=
  match v with
  | Undefined | Null => false
  | Bool b => b
  | Num x => num_truthy x
  | Str s => str_truthy s
  end.

(** [a || b] *)
Definition or (a b : value) : value := if truthy a then a else b.

(** [v === b] and [v !== b] for a boolean literal [b]. *)
Definition strict_eq_bool (v : value) (b : bool) : bool :=
  match v with
  | Bool c => Bool.eqb c b
  | _ => false
  end.

Definition strict_ne_bool (v : value) (b : bool) : bool :=
  negb (strict_eq_bool v b).

(** [s.split(sep)[0]]: the text before the first separator. *)
Fixpoint split_head (sep : ascii) (s : string) : string :=
  match s with
  | EmptyString => EmptyString
  | String c rest =>
      if Ascii.eqb c sep then EmptyString else String c (split_head sep rest)
  end.

(** [parts.join(sep)] *)
Fixpoint join (sep : string) (parts : list string) : string :=
  match parts with
  | [] => EmptyString
  | [p] => p
  | p :: rest => p +:+ sep +:+ join sep rest
  end.

End Js.

(** A thrown value: [Error], [FirebaseError] and [AuthError] all carry a
    message, the last two also a code. *)
Record exn := { code : option string; message : string }.

Definition Error (msg : string) : exn := {| code := None; message := msg |}.

(** A stored creation time is either the store's own timestamp or, once a
    client wrote a converted record back, its ISO text. *)
Inductive Stamp :=
| Timestamp (t : nat)
| IsoText (s : string).

(** ** Records of [types/index.ts] and of the services *)

Module Expense.
Record t := mk {
  id : string;
  amount : float;
  description : string;
  category : string;
  date : string;
  createdAt : string
}.
End Expense.

Module User.
(** [email] is [firebaseUser.email!], which the provider may leave null. *)
Record t := mk {
  id : string;
  name : string;
  email : option string
}.
End User.

Module FirebaseUser.
Record t := mk {
  uid : string;
  email : option string;
  displayName : option string
}.
End FirebaseUser.

Module AuthResult.
Record t := mk {
  success : bool;
  user : option User.t;
  error : option string
}.
End AuthResult.

Module Category.
Record t := mk {
  id : string;
  userId : string;
  name : string;
  color : option string;
  icon : option string;
  createdAt : string;
  isDefault : Js.value;
  isActive : bool;
  expenseCount : Js.value
}.
End Category.

(** The data of a document of the [categories] collection.  The flags are
    read with [||] and [!==], so they are kept as untyped values. *)
Module FirestoreCategory.
Record t := mk {
  userId : string;
  name : string;
  color : option string;
  icon : option string;
  createdAt : Stamp;
  isDefault : Js.value;
  isActive : Js.value;
  expenseCount : Js.value
}.

Definition set_isActive (v : Js.value) (d : t) : t :=
  mk (userId d) (name d) (color d) (icon d) (createdAt d) (isDefault d) v
     (expenseCount d).

Definition set_expenseCount (v : Js.value) (d : t) : t :=
  mk (userId d) (name d) (color d) (icon d) (createdAt d) (isDefault d)
     (isActive d) v.
End FirestoreCategory.

(** The data of a document of the [expenses] collection.  [id] is the field
    of that name which a spread of a converted record writes into the data;
    it is not the document's key. *)
Module FirestoreExpense.
Record t := mk {
  userId : string;
  amount : float;
  description : string;
  category : string;
  date : string;
  createdAt : Stamp;
  updatedAt : option Stamp;
  id : option string
}.
End FirestoreExpense.

(** A document of [authorizedUsers], keyed by e-mail address. *)
Module AuthorizedUser.
Record t := mk { isActive : Js.value }.
End AuthorizedUser.

(** A document of [users], keyed by the provider's uid. *)
Module UserDoc.
Record t := mk {
  id : string;
  email : option string;
  name : string;
  uid : string;
  createdAt : Stamp;
  lastLoginAt : Stamp;
  isActive : bool
}.

Definition set_lastLoginAt (s : Stamp) (d : t) : t :=
  mk (id d) (email d) (name d) (uid d) (createdAt d) s (isActive d).
End UserDoc.

(** ** The backend: document store and identity provider *)

(** [faults] is the schedule of the store's failures: each call to the store
    consumes its head, and [Some e] makes that call reject with [e].
    [accounts] is the provider's verdict on a pair of credentials, and
    [signOut_error] its answer to a sign-out: [None] when it ends the
    session, [Some e] when it rejects with [e]. *)
Record World := mkWorld {
  db_authorizedUsers : gmap string AuthorizedUser.t;
  db_users : gmap string UserDoc.t;
  db_categories : gmap string FirestoreCategory.t;
  db_expenses : gmap string FirestoreExpense.t;
  auth_currentUser : option FirebaseUser.t;
  accounts : string → string → exn + FirebaseUser.t;
  signOut_error : option exn;
  serverTime : nat;
  clientTime : nat;
  faults : list (option exn)
}.

Definition set_db_users (f : gmap string UserDoc.t → gmap string UserDoc.t)
    (w : World) : World :=
  mkWorld (db_authorizedUsers w) (f (db_users w)) (db_categories w)
    (db_expenses w) (auth_currentUser w) (accounts w) (signOut_error w) (serverTime w)
    (clientTime w) (faults w).

Definition set_db_categories
    (f : gmap string FirestoreCategory.t → gmap string FirestoreCategory.t)
    (w : World) : World :=
  mkWorld (db_authorizedUsers w) (db_users w) (f (db_categories w))
    (db_expenses w) (auth_currentUser w) (accounts w) (signOut_error w) (serverTime w)
    (clientTime w) (faults w).

Definition set_db_expenses
    (f : gmap string FirestoreExpense.t → gmap string FirestoreExpense.t)
    (w : World) : World :=
  mkWorld (db_authorizedUsers w) (db_users w) (db_categories w)
    (f (db_expenses w)) (auth_currentUser w) (accounts w) (signOut_error w) (serverTime w)
    (clientTime w) (faults w).

Definition set_auth_currentUser (u : option FirebaseUser.t) (w : World) : World :=
  mkWorld (db_authorizedUsers w) (db_users w) (db_categories w)
    (db_expenses w) u (accounts w) (signOut_error w) (serverTime w) (clientTime w)
    (faults w).

Definition set_faults (fs : list (option exn)) (w : World) : World :=
  mkWorld (db_authorizedUsers w) (db_users w) (db_categories w)
    (db_expenses w) (auth_currentUser w) (accounts w) (signOut_error w) (serverTime w)
    (clientTime w) fs.

(** No call to the store fails. *)
Definition calm (w : World) : Prop := Forall (λ f, f = None) (faults w).

(** ** Asynchronous computations *)

Inductive result (A : Type) :=
| Ok (a : A)
| Throw (e : exn).
Arguments Ok {A} a.
Arguments Throw {A} e.

Definition M (A : Type) : Type := World → result A * World.

#[global] Instance M_ret : MRet M := λ A a w, (Ok a, w).

#[global] Instance M_bind : MBind M := λ A B k m w,
  match m w with
  | (Ok a, w') => k a w'
  | (Throw e, w') => (Throw e, w')
  end.

Definition throw {A} (e : exn) : M A := λ w, (Throw e, w).

(** [try { body } catch (e) { handler }] *)
Definition try_catch {A} (body : M A) (handler : exn → M A) : M A := λ w,
  match body w with
  | (Ok a, w') => (Ok a, w')
  | (Throw e, w') => handler e w'
  end.

Definition gets {A} (f : World → A) : M A := λ w, (Ok (f w), w).

Definition modify (f : World → World) : M unit := λ w, (Ok tt, f w).

(** [for (const x of l) { await body(x) }] *)
Fixpoint for_of {A} (l : list A) (body : A → M unit) : M unit :=
  match l with
  | [] => mret tt
  | x :: rest => body x ;; for_of rest body
  end.

(** Every request to the store first learns whether it fails. *)
Definition storeCall : M unit := λ w,
  match faults w with
  | [] => (Ok tt, w)
  | None :: fs => (Ok tt, set_faults fs w)
  | Some e :: fs => (Throw e, set_faults fs w)
  end.

(** The store rejects an update of a document that does not exist. *)
Definition not_found : exn :=
  {| code := Some "not-found"; message := "No document to update" |}.

(** What the platform supplies and the repository does not define: the text
    of a time, of a number and of a member of [Object.prototype] (what
    joining it to a string gives), and the order in which the store returns
    the documents matching a query sorted on [createdAt], of which only that
    it is a rearrangement of the matches is known here. *)
Class Platform := {
  toISOString : nat → string;
  numberToString : float → string;
  memberToString : string → string;
  orderByCreatedAt_asc :
    list (string * FirestoreCategory.t) → list (string * FirestoreCategory.t);
  orderByCreatedAt_desc :
    list (string * FirestoreExpense.t) → list (string * FirestoreExpense.t);
  orderByCreatedAt_asc_perm : ∀ l, orderByCreatedAt_asc l ≡ₚ l;
  orderByCreatedAt_desc_perm : ∀ l, orderByCreatedAt_desc l ≡ₚ l
}.

(** [data.createdAt?.toDate?.()?.toISOString() || data.createdAt] *)
Definition createdAt_text `{Platform} (s : Stamp) : string :=
  match s with
  | Timestamp t => toISOString t
  | IsoText s => s
  end.

(** ** [services/authService.ts] *)

Module AuthService.

(** [getDoc(doc(db, 'authorizedUsers', email))] *)
Definition getDoc_authorizedUsers (email : string) : M (option AuthorizedUser.t) :=
  storeCall ;; gets (λ w, db_authorizedUsers w !! email).

(** [getDoc(doc(db, 'users', uid))] *)
Definition getDoc_users (uid : string) : M (option UserDoc.t) :=
  storeCall ;; gets (λ w, db_users w !! uid).

(** [setDoc(userRef, data)] *)
Definition setDoc_users (uid : string) (d : UserDoc.t) : M unit :=
  storeCall ;; modify (set_db_users (λ m, <[uid := d]> m)).

(** [updateDoc(userRef, { lastLoginAt: serverTimestamp() })] *)
Definition updateDoc_users_lastLoginAt (uid : string) : M unit :=
  storeCall ;;
  d ← gets (λ w, db_users w !! uid);
  match d with
  | None => throw not_found
  | Some _ =>
      modify (λ w,
        set_db_users (alter (UserDoc.set_lastLoginAt (Timestamp (serverTime w))) uid) w)
  end.

(** The provider's [signInWithEmailAndPassword(auth, email, password)]:
    on success the provider holds a session for the user. *)
Definition signInWithEmailAndPassword (email password : string) : M FirebaseUser.t :=
  λ w,
    match accounts w email password with
    | inl e => (Throw e, w)
    | inr u => (Ok u, set_auth_currentUser (Some u) w)
    end.

(** The provider's [signOut(auth)]: it drops the session the client holds,
    or rejects and leaves the session as it is.  It asks nothing of the
    document store, so the schedule of the store's failures does not bear
    on it. *)
Definition provider_signOut : M unit := λ w,
  match signOut_error w with
  | None => (Ok tt, set_auth_currentUser None w)
  | Some e => (Throw e, w)
  end.

Definition isAuthorizedUser (email : string) : M bool :=
  try_catch
    (authorizedUserDoc ← getDoc_authorizedUsers email;
     mret (match authorizedUserDoc with
           | Some data => Js.strict_eq_bool (AuthorizedUser.isActive data) true
           | None => false
           end))
    (λ _, mret false).

Definition TypeError : exn :=
  {| code := None; message := "Cannot read properties of null (reading 'split')" |}.

(** [firebaseUser.displayName || firebaseUser.email!.split('@')[0]] *)
Definition user_name (firebaseUser : FirebaseUser.t) : M string :=
  match FirebaseUser.displayName firebaseUser with
  | Some (String c s) => mret (String c s)
  | _ =>
      match FirebaseUser.email firebaseUser with
      | Some e => mret (Js.split_head "@" e)
      | None => throw TypeError
      end
  end.

Definition createOrUpdateUser (firebaseUser : FirebaseUser.t) : M User.t :=
  let uid := FirebaseUser.uid firebaseUser in
  userDoc ← getDoc_users uid;
  name ← user_name firebaseUser;
  let userData := User.mk uid name (FirebaseUser.email firebaseUser) in
  match userDoc with
  | None =>
      now ← gets serverTime;
      setDoc_users uid
        (UserDoc.mk uid (FirebaseUser.email firebaseUser) name uid
           (Timestamp now) (Timestamp now) true)
  | Some _ => updateDoc_users_lastLoginAt uid
  end ;;
  mret userData.

Definition not_authorized_message : string :=
  "You are not authorized to access this application. Please contact your administrator.".

(** The [switch (authError.code)] of the handler. *)
Definition errorMessage (authError : exn) : string :=
  match code authError with
  | Some c =>
      if String.eqb c "auth/user-not-found" || String.eqb c "auth/wrong-password"
      then "Invalid email or password."
      else if String.eqb c "auth/invalid-email" then "Invalid email address."
      else if String.eqb c "auth/user-disabled" then "This account has been disabled."
      else if String.eqb c "auth/too-many-requests"
      then "Too many failed attempts. Please try again later."
      else message authError
  | None => message authError
  end.

Definition signIn (email password : string) : M AuthResult.t :=
  try_catch
    (firebaseUser ← signInWithEmailAndPassword email password;
     isAuthorized ← isAuthorizedUser email;
     if negb isAuthorized then
       provider_signOut ;;
       mret (AuthResult.mk false None (Some not_authorized_message))
     else
       user ← createOrUpdateUser firebaseUser;
       mret (AuthResult.mk true (Some user) None))
    (λ error, mret (AuthResult.mk false None (Some (errorMessage error)))).

(** [auth.currentUser] *)
Definition getCurrentUser : M (option FirebaseUser.t) := gets auth_currentUser.

Definition validateCurrentUser : M bool :=
  currentUser ← getCurrentUser;
  match currentUser with
  | Some u =>
      match FirebaseUser.email u with
      | Some (String c s) => isAuthorizedUser (String c s)
      | _ => mret false
      end
  | None => mret false
  end.

(** The service's [signOut]: the provider's, with its error logged and
    thrown again. *)
Definition signOut : M unit :=
  try_catch provider_signOut (λ error, throw error).

(** The entries a query [where('isActive', '==', true)] selects. *)
Definition active_entry (doc : string * AuthorizedUser.t) : Prop :=
  AuthorizedUser.isActive doc.2 = Js.Bool true.

#[global] Instance active_entry_dec doc : Decision (active_entry doc).
Proof.
  unfold active_entry.
  destruct (AuthorizedUser.isActive doc.2) as [| |[]| |];
    first [left; reflexivity | right; discriminate].
Defined.

(** [getDocs(query(collection(db, 'authorizedUsers'), where('isActive', '==', true)))]:
    the query asks for no order; the documents are taken as the collection
    lists them. *)
Definition getDocs_authorizedUsers : M (list (string * AuthorizedUser.t)) :=
  storeCall ;;
  gets (λ w, filter active_entry (map_to_list (db_authorizedUsers w))).

Definition getAuthorizedUsers : M (list string) :=
  try_catch
    (querySnapshot ← getDocs_authorizedUsers;
     mret (fst <$> querySnapshot))
    (λ _, mret []).

End AuthService.

(** The allowlist's verdict on an address, as the store holds it. *)
Definition allowlisted (w : World) (email : string) : Prop :=
  ∃ d, db_authorizedUsers w !! email = Some d ∧ AuthorizedUser.isActive d = Js.Bool true.

(** The next request to the store goes through. *)
Definition next_call_ok (w : World) : Prop :=
  match faults w with
  | Some _ :: _ => False
  | _ => True
  end.

(** ** [services/categoryService.ts] *)

(** [for (const x of l) { acc = await body(acc, x) }] *)
Fixpoint fold_of {A B} (l : list A) (acc : B) (body : B → A → M B) : M B :=
  match l with
  | [] => mret acc
  | x :: rest => acc' ← body acc x; fold_of rest acc' body
  end.

(** The [categoryData] argument of [addCategory]. *)
Module CategoryInput.
Record t := mk {
  name : string;
  color : option string;
  icon : option string
}.
End CategoryInput.

(** The [categoryData] argument of [updateCategory]: the fields it carries. *)
Module CategoryPatch.
Record t := mk {
  name : option string;
  color : option string;
  icon : option string;
  isActive : option bool
}.

(** [updateDoc] sets the fields given and keeps the others. *)
Definition apply (p : t) (d : FirestoreCategory.t) : FirestoreCategory.t :=
  FirestoreCategory.mk
    (FirestoreCategory.userId d)
    (default (FirestoreCategory.name d) (name p))
    (from_option Some (FirestoreCategory.color d) (color p))
    (from_option Some (FirestoreCategory.icon d) (icon p))
    (FirestoreCategory.createdAt d)
    (FirestoreCategory.isDefault d)
    (from_option Js.Bool (FirestoreCategory.isActive d) (isActive p))
    (FirestoreCategory.expenseCount d).
End CategoryPatch.

(** [x || d] for an optional text [x] *)
Definition text_or (x : option string) (d : string) : string :=
  match x with
  | Some (String c s) => String c s
  | _ => d
  end.

Module CategoryService.

Record DefaultCategory := { name : string; color : string; icon : string }.

Definition defaultCategories : list DefaultCategory :=
  [ {| name := "Food & Dining"; color := "#FF6B6B"; icon := "🍽️" |};
    {| name := "Transportation"; color := "#4ECDC4"; icon := "🚗" |};
    {| name := "Shopping"; color := "#45B7D1"; icon := "🛍️" |};
    {| name := "Entertainment"; color := "#96CEB4"; icon := "🎬" |};
    {| name := "Bills & Utilities"; color := "#FFEAA7"; icon := "💡" |};
    {| name := "Healthcare"; color := "#DDA0DD"; icon := "🏥" |};
    {| name := "Education"; color := "#98D8C8"; icon := "📚" |};
    {| name := "Travel"; color := "#F7DC6F"; icon := "✈️" |} ].

Section CategoryService.
Context `{Platform}.

Definition convertToCategory (doc : string * FirestoreCategory.t) : Category.t :=
  let data := doc.2 in
  Category.mk doc.1
    (FirestoreCategory.userId data)
    (FirestoreCategory.name data)
    (FirestoreCategory.color data)
    (FirestoreCategory.icon data)
    (createdAt_text (FirestoreCategory.createdAt data))
    (Js.or (FirestoreCategory.isDefault data) (Js.Bool false))
    (Js.strict_ne_bool (FirestoreCategory.isActive data) false)
    (Js.or (FirestoreCategory.expenseCount data) (Js.Num 0)).

(** [addDoc(collection(db, 'categories'), data)]: the store picks an
    identifier no document of the collection has. *)
Definition addDoc_categories (data : FirestoreCategory.t) : M string :=
  storeCall ;;
  id ← gets (λ w, fresh (dom (db_categories w)));
  modify (set_db_categories (λ m, <[id := data]> m)) ;;
  mret id.

(** [updateDoc(doc(db, 'categories', id), { isActive: v })] *)
Definition updateDoc_categories_isActive (id : string) (v : bool) : M unit :=
  storeCall ;;
  d ← gets (λ w, db_categories w !! id);
  match d with
  | None => throw not_found
  | Some _ =>
      modify (set_db_categories (alter (FirestoreCategory.set_isActive (Js.Bool v)) id))
  end.

(** The documents matching
    [where('userId', '==', userId)] and, unless inactive ones are asked
    for, [where('isActive', '==', true)]. *)
Definition matches_user (userId : string) (includeInactive : bool)
    (doc : string * FirestoreCategory.t) : Prop :=
  FirestoreCategory.userId doc.2 = userId ∧
  (includeInactive = true ∨ FirestoreCategory.isActive doc.2 = Js.Bool true).

#[global] Instance matches_user_dec userId includeInactive doc :
  Decision (matches_user userId includeInactive doc).
Proof.
  unfold matches_user. apply and_dec; [apply _|].
  apply or_dec; [apply _|].
  destruct (FirestoreCategory.isActive doc.2) as [| |[]| |];
    first [left; reflexivity | right; discriminate].
Defined.

(** [getDocs(query(..., orderBy('createdAt', 'asc')))] *)
Definition getDocs_categories (userId : string) (includeInactive : bool) :
    M (list (string * FirestoreCategory.t)) :=
  storeCall ;;
  gets (λ w, orderByCreatedAt_asc
               (filter (matches_user userId includeInactive)
                  (map_to_list (db_categories w)))).

(** The document [createDefaultCategories] stores for a default category
    and the record it returns for it. *)
Definition default_doc (userId : string) (now : nat) (defaultCat : DefaultCategory) :
    FirestoreCategory.t :=
  FirestoreCategory.mk userId (name defaultCat)
    (Some (color defaultCat)) (Some (icon defaultCat))
    (Timestamp now) (Js.Bool true) (Js.Bool true) (Js.Num 0).

Definition default_record (userId : string) (today : nat) (id : string)
    (defaultCat : DefaultCategory) : Category.t :=
  Category.mk id userId (name defaultCat)
    (Some (color defaultCat)) (Some (icon defaultCat))
    (toISOString today) (Js.Bool true) true (Js.Num 0).

(** The body of the loop of [createDefaultCategories]: one [addDoc], one
    [categories.push]. *)
Definition createDefaultCategories_body (userId : string)
    (categories : list Category.t) (defaultCat : DefaultCategory) :
    M (list Category.t) :=
  now ← gets serverTime;
  docRef_id ← addDoc_categories (default_doc userId now defaultCat);
  today ← gets clientTime;
  mret (categories ++ [default_record userId today docRef_id defaultCat]).

Definition createDefaultCategories (userId : string) : M (list Category.t) :=
  try_catch
    (fold_of defaultCategories [] (createDefaultCategories_body userId))
    (λ _, throw (Error "Failed to create default categories")).

Definition deleteCategory (categoryId : string) : M unit :=
  try_catch
    (updateDoc_categories_isActive categoryId false)
    (λ _, throw (Error "Failed to delete category")).

Definition getUserCategories (userId : string) (includeInactive : bool) :
    M (list Category.t) :=
  try_catch
    (docs ← getDocs_categories userId includeInactive;
     mret (convertToCategory <$> docs))
    (λ _, throw (Error "Failed to get categories")).

(** [getDoc(doc(db, 'categories', id))] *)
Definition getDoc_categories (id : string) : M (option FirestoreCategory.t) :=
  storeCall ;; gets (λ w, db_categories w !! id).

Definition getCategory (categoryId : string) : M (option Category.t) :=
  try_catch
    (docSnap ← getDoc_categories categoryId;
     mret (match docSnap with
           | Some data => Some (convertToCategory (categoryId, data))
           | None => None
           end))
    (λ _, throw (Error "Failed to get category")).

(** What the listener of [subscribeToUserCategories] hands to its callback
    for the store as it stands. *)
Definition snapshot_userCategories (userId : string) (w : World) : list Category.t :=
  convertToCategory <$>
    orderByCreatedAt_asc
      (filter (matches_user userId false) (map_to_list (db_categories w))).

(** What [ensureUserHasCategories] does once the read has answered. *)
Definition ensure_after_read (userId : string) (existingCategories : list Category.t) :
    M (list Category.t) :=
  if (length existingCategories =? 0)%nat
  then createDefaultCategories userId
  else mret existingCategories.

Definition ensureUserHasCategories (userId : string) : M (list Category.t) :=
  try_catch
    (existingCategories ← getUserCategories userId false;
     ensure_after_read userId existingCategories)
    (λ _, throw (Error "Failed to ensure user has categories")).

(** The document [addCategory] stores. *)
Definition new_category_doc (userId : string) (now : nat)
    (categoryData : CategoryInput.t) : FirestoreCategory.t :=
  FirestoreCategory.mk userId (CategoryInput.name categoryData)
    (Some (text_or (CategoryInput.color categoryData) "#6B7280"))
    (Some (text_or (CategoryInput.icon categoryData) "📁"))
    (Timestamp now) (Js.Bool false) (Js.Bool true) (Js.Num 0).

Definition addCategory (userId : string) (categoryData : CategoryInput.t) : M string :=
  try_catch
    (now ← gets serverTime;
     docRef_id ← addDoc_categories (new_category_doc userId now categoryData);
     mret docRef_id)
    (λ _, throw (Error "Failed to add category")).

(** [updateDoc(doc(db, 'categories', id), categoryData)] *)
Definition updateDoc_categories (id : string) (p : CategoryPatch.t) : M unit :=
  storeCall ;;
  d ← gets (λ w, db_categories w !! id);
  match d with
  | None => throw not_found
  | Some _ => modify (set_db_categories (alter (CategoryPatch.apply p) id))
  end.

Definition updateCategory (categoryId : string) (categoryData : CategoryPatch.t) : M unit :=
  try_catch
    (updateDoc_categories categoryId categoryData)
    (λ _, throw (Error "Failed to update category")).

(** [deleteDoc(doc(db, 'categories', id))]: deleting a document that does
    not exist succeeds. *)
Definition deleteDoc_categories (id : string) : M unit :=
  storeCall ;; modify (set_db_categories (delete id)).

Definition permanentlyDeleteCategory (categoryId : string) : M unit :=
  try_catch
    (deleteDoc_categories categoryId)
    (λ _, throw (Error "Failed to permanently delete category")).

Definition getUserCategoryNames (userId : string) : M (list string) :=
  try_catch
    (categories ← getUserCategories userId false;
     mret (Category.name <$> categories))
    (λ _, throw (Error "Failed to get category names")).

(** [updateDoc(doc(db, 'categories', id), { expenseCount: count })] *)
Definition updateDoc_categories_expenseCount (id : string) (count : float) : M unit :=
  storeCall ;;
  d ← gets (λ w, db_categories w !! id);
  match d with
  | None => throw not_found
  | Some _ =>
      modify (set_db_categories
                (alter (FirestoreCategory.set_expenseCount (Js.Num count)) id))
  end.

(** The error is logged and not thrown: "this is not critical". *)
Definition updateCategoryExpenseCount (categoryId : string) (count : float) : M unit :=
  try_catch
    (updateDoc_categories_expenseCount categoryId count)
    (λ _, mret tt).

End CategoryService.
End CategoryService.

(** ** [services/expenseService.ts] *)

(** The object handed to [updateExpense]: the fields it carries. *)
Module ExpensePatch.
Record t := mk {
  id : option string;
  amount : option float;
  description : option string;
  category : option string;
  date : option string;
  createdAt : option string
}.

(** [{ ...expense }] *)
Definition spread (e : Expense.t) : t :=
  mk (Some (Expense.id e)) (Some (Expense.amount e))
     (Some (Expense.description e)) (Some (Expense.category e))
     (Some (Expense.date e)) (Some (Expense.createdAt e)).

(** [{ ...p, category: c }] *)
Definition with_category (c : string) (p : t) : t :=
  mk (id p) (amount p) (description p) (Some c) (date p) (createdAt p).

(** [updateDoc] sets the fields given and keeps the others. *)
Definition apply (p : t) (updatedAt : Stamp) (d : FirestoreExpense.t) :
    FirestoreExpense.t :=
  FirestoreExpense.mk
    (FirestoreExpense.userId d)
    (default (FirestoreExpense.amount d) (amount p))
    (default (FirestoreExpense.description d) (description p))
    (default (FirestoreExpense.category d) (category p))
    (default (FirestoreExpense.date d) (date p))
    (from_option IsoText (FirestoreExpense.createdAt d) (createdAt p))
    (Some updatedAt)
    (from_option Some (FirestoreExpense.id d) (id p)).
End ExpensePatch.

Module ExpenseStats.
Record t := mk {
  totalExpenses : nat;
  totalAmount : float;
  averageAmount : float;
  expenseCount : nat
}.
End ExpenseStats.

(** A length as a number. *)
Definition float_of_nat (n : nat) : float :=
  PrimFloat.of_uint63 (Uint63.of_Z (Z.of_nat n)).

(** The [expenseData] argument of [addExpense]: an expense without its
    identifier and creation time. *)
Module ExpenseInput.
Record t := mk {
  amount : float;
  description : string;
  category : string;
  date : string
}.
End ExpenseInput.

Module ExpenseService.
Section ExpenseService.
Context `{Platform}.

Definition convertToExpense (doc : string * FirestoreExpense.t) : Expense.t :=
  let data := doc.2 in
  Expense.mk doc.1
    (FirestoreExpense.amount data)
    (FirestoreExpense.description data)
    (FirestoreExpense.category data)
    (FirestoreExpense.date data)
    (createdAt_text (FirestoreExpense.createdAt data)).

(** [updateDoc(doc(db, 'expenses', id), { ...expenseData, updatedAt: serverTimestamp() })] *)
Definition updateDoc_expenses (id : string) (p : ExpensePatch.t) : M unit :=
  storeCall ;;
  d ← gets (λ w, db_expenses w !! id);
  match d with
  | None => throw not_found
  | Some _ =>
      modify (λ w,
        set_db_expenses (alter (ExpensePatch.apply p (Timestamp (serverTime w))) id) w)
  end.

(** [deleteDoc(doc(db, 'expenses', id))] *)
Definition deleteDoc_expenses (id : string) : M unit :=
  storeCall ;; modify (set_db_expenses (delete id)).

(** The result set of
    [query(..., where('userId', '==', userId), orderBy('createdAt', 'desc'))]. *)
Definition query_userExpenses (userId : string) (w : World) :
    list (string * FirestoreExpense.t) :=
  orderByCreatedAt_desc
    (filter (λ doc, FirestoreExpense.userId doc.2 = userId)
       (map_to_list (db_expenses w))).

Definition getDocs_expenses (userId : string) : M (list (string * FirestoreExpense.t)) :=
  storeCall ;; gets (query_userExpenses userId).

Definition updateExpense (expenseId : string) (expenseData : ExpensePatch.t) : M unit :=
  try_catch
    (updateDoc_expenses expenseId expenseData)
    (λ _, throw (Error "Failed to update expense")).

Definition deleteExpense (expenseId : string) : M unit :=
  try_catch
    (deleteDoc_expenses expenseId)
    (λ _, throw (Error "Failed to delete expense")).

Definition getUserExpenses (userId : string) : M (list Expense.t) :=
  try_catch
    (docs ← getDocs_expenses userId;
     mret (convertToExpense <$> docs))
    (λ _, throw (Error "Failed to get expenses")).

(** What the listener of [subscribeToUserExpenses] hands to its callback
    for the store as it stands. *)
Definition snapshot_userExpenses (userId : string) (w : World) : list Expense.t :=
  convertToExpense <$> query_userExpenses userId w.

Definition getExpenseStats (userId : string) : M ExpenseStats.t :=
  try_catch
    (expenses ← getUserExpenses userId;
     let totalAmount :=
       fold_left (λ sum expense, (sum + Expense.amount expense)%float) expenses 0%float in
     let expenseCount := length expenses in
     let averageAmount :=
       if (0 <? expenseCount)%nat
       then (totalAmount / float_of_nat expenseCount)%float
       else 0%float in
     mret (ExpenseStats.mk expenseCount totalAmount averageAmount expenseCount))
    (λ _, throw (Error "Failed to get expense statistics")).

(** [addDoc(collection(db, 'expenses'), data)] *)
Definition addDoc_expenses (data : FirestoreExpense.t) : M string :=
  storeCall ;;
  id ← gets (λ w, fresh (dom (db_expenses w)));
  modify (set_db_expenses (λ m, <[id := data]> m)) ;;
  mret id.

(** The document [addExpense] stores. *)
Definition new_expense_doc (userId : string) (now : nat) (expenseData : ExpenseInput.t) :
    FirestoreExpense.t :=
  FirestoreExpense.mk userId
    (ExpenseInput.amount expenseData)
    (ExpenseInput.description expenseData)
    (ExpenseInput.category expenseData)
    (ExpenseInput.date expenseData)
    (Timestamp now) (Some (Timestamp now)) None.

Definition addExpense (userId : string) (expenseData : ExpenseInput.t) : M string :=
  try_catch
    (now ← gets serverTime;
     docRef_id ← addDoc_expenses (new_expense_doc userId now expenseData);
     mret docRef_id)
    (λ _, throw (Error "Failed to add expense")).

(** [getDoc(doc(db, 'expenses', id))] *)
Definition getDoc_expenses (id : string) : M (option FirestoreExpense.t) :=
  storeCall ;; gets (λ w, db_expenses w !! id).

Definition getExpense (expenseId : string) : M (option Expense.t) :=
  try_catch
    (docSnap ← getDoc_expenses expenseId;
     mret (match docSnap with
           | Some data => Some (convertToExpense (expenseId, data))
           | None => None
           end))
    (λ _, throw (Error "Failed to get expense")).

(** The result set of
    [query(..., where('userId', '==', userId), where('category', '==', category),
    orderBy('createdAt', 'desc'))]. *)
Definition query_expensesByCategory (userId category : string) (w : World) :
    list (string * FirestoreExpense.t) :=
  orderByCreatedAt_desc
    (filter (λ doc, FirestoreExpense.userId doc.2 = userId ∧
                    FirestoreExpense.category doc.2 = category)
       (map_to_list (db_expenses w))).

Definition getExpensesByCategory (userId category : string) : M (list Expense.t) :=
  try_catch
    (docs ← (storeCall ;; gets (query_expensesByCategory userId category));
     mret (convertToExpense <$> docs))
    (λ _, throw (Error "Failed to get expenses by category")).

End ExpenseService.
End ExpenseService.

(** ** The category-management component *)

Module CategoryManagement.

(** What the component receives: the [expenses] prop and the signed-in
    user of the authentication context. *)
Record Props := {
  expenses : list Expense.t;
  currentUser : option User.t
}.

(** The component's state variables that the deletion handlers read or
    set. *)
Record State := mkState {
  categories : list Category.t;
  showDeleteConfirm : option string;
  replacementCategory : string
}.

Definition setCategories (cs : list Category.t) (st : State) : State :=
  mkState cs (showDeleteConfirm st) (replacementCategory st).

Definition setShowDeleteConfirm (c : option string) (st : State) : State :=
  mkState (categories st) c (replacementCategory st).

Definition setReplacementCategory (r : string) (st : State) : State :=
  mkState (categories st) (showDeleteConfirm st) r.

Section CategoryManagement.
Context `{Platform}.
Variable props : Props.

Definition getCategoryUsageCount (categoryName : string) : nat :=
  length (filter (λ expense, Expense.category expense = categoryName) (expenses props)).

(** [categories.find(cat => cat.name === categoryToDelete)] *)
Definition find_category (st : State) (categoryToDelete : string) : option Category.t :=
  List.find (λ cat, String.eqb (Category.name cat) categoryToDelete) (categories st).

Definition handleDeleteCategory (categoryToDelete : string) (st : State) : M State :=
  match currentUser props with
  | None => mret st
  | Some user =>
      let usageCount := getCategoryUsageCount categoryToDelete in
      match find_category st categoryToDelete with
      | None => mret st
      | Some categoryToDeleteObj =>
          if (0 <? usageCount)%nat
          then mret (setShowDeleteConfirm (Some categoryToDelete) st)
          else
            try_catch
              (CategoryService.deleteCategory (Category.id categoryToDeleteObj) ;;
               userCategories ← CategoryService.getUserCategories (User.id user) false;
               mret (setCategories userCategories st))
              (λ _, mret st)
      end
  end.

Definition confirmDeleteCategory (st : State) : M State :=
  match showDeleteConfirm st, currentUser props with
  | Some (String c s), Some user =>
      let categoryToDelete := String c s in
      match find_category st categoryToDelete with
      | None => mret st
      | Some categoryToDeleteObj =>
          try_catch
            (let expensesToUpdate :=
               filter (λ expense, Expense.category expense = categoryToDelete)
                 (expenses props) in
             (if Js.str_truthy (replacementCategory st)
              then
                for_of expensesToUpdate (λ expense,
                  ExpenseService.updateExpense (Expense.id expense)
                    (ExpensePatch.with_category (replacementCategory st)
                       (ExpensePatch.spread expense)))
              else
                for_of expensesToUpdate (λ expense,
                  ExpenseService.deleteExpense (Expense.id expense))) ;;
             CategoryService.deleteCategory (Category.id categoryToDeleteObj) ;;
             userCategories ← CategoryService.getUserCategories (User.id user) false;
             mret (setReplacementCategory EmptyString
                     (setShowDeleteConfirm None (setCategories userCategories st))))
            (λ _, mret st)
      end
  | _, _ => mret st
  end.

End CategoryManagement.

(** The component's state variables of the add and edit forms. *)
Record Inputs := mkInputs {
  newCategoryName : string;
  editingCategory : option string;
  editCategoryName : string
}.

Definition setNewCategoryName (n : string) (inp : Inputs) : Inputs :=
  mkInputs n (editingCategory inp) (editCategoryName inp).

Definition setEditingCategory (c : option string) (inp : Inputs) : Inputs :=
  mkInputs (newCategoryName inp) c (editCategoryName inp).

Definition setEditCategoryName (n : string) (inp : Inputs) : Inputs :=
  mkInputs (newCategoryName inp) (editingCategory inp) n.

Section CategoryForms.
Context `{Platform}.
Variable props : Props.

(** [String.prototype.trim], which the platform supplies. *)
Variable trim : string → string.

(** [categories.some(cat => cat.name === name)] *)
Definition has_category (st : State) (name : string) : bool :=
  existsb (λ cat, String.eqb (Category.name cat) name) (categories st).

Definition handleAddCategory (st : State) (inp : Inputs) : M (State * Inputs) :=
  match currentUser props with
  | None => mret (st, inp)
  | Some user =>
      let trimmedName := trim (newCategoryName inp) in
      if Js.str_truthy trimmedName && negb (has_category st trimmedName)
      then
        try_catch
          (CategoryService.addCategory (User.id user)
             (CategoryInput.mk trimmedName None None) ;;
           userCategories ← CategoryService.getUserCategories (User.id user) false;
           mret (setCategories userCategories st, setNewCategoryName EmptyString inp))
          (λ _, mret (st, inp))
      else mret (st, inp)
  end.

Definition handleEditCategory (oldName newName : string) (st : State) (inp : Inputs) :
    M (State * Inputs) :=
  match currentUser props with
  | None => mret (st, inp)
  | Some user =>
      let trimmedName := trim newName in
      match find_category st oldName with
      | Some categoryToEdit =>
          if Js.str_truthy trimmedName &&
             negb (String.eqb trimmedName oldName) &&
             negb (has_category st trimmedName)
          then
            try_catch
              (CategoryService.updateCategory (Category.id categoryToEdit)
                 (CategoryPatch.mk (Some trimmedName) None None None) ;;
               (let expensesToUpdate :=
                  filter (λ expense, Expense.category expense = oldName)
                    (expenses props) in
                for_of expensesToUpdate (λ expense,
                  ExpenseService.updateExpense (Expense.id expense)
                    (ExpensePatch.with_category trimmedName
                       (ExpensePatch.spread expense)))) ;;
               userCategories ← CategoryService.getUserCategories (User.id user) false;
               mret (setCategories userCategories st,
                     setEditCategoryName EmptyString (setEditingCategory None inp)))
              (λ _, mret (st, inp))
          else mret (st, inp)
      | None => mret (st, inp)
      end
  end.

End CategoryForms.
End CategoryManagement.

(** ** Aggregation: [categoryTotals] of the dashboard, [getCategoryTotals] of the reports *)

(** The property names every object literal inherits from
    [Object.prototype]: for these, reading [acc[name]] finds a value before
    any has been set. *)
Definition inherited_names : list string :=
  [ "__proto__"; "constructor"; "hasOwnProperty"; "isPrototypeOf";
    "propertyIsEnumerable"; "toLocaleString"; "toString"; "valueOf";
    "__defineGetter__"; "__defineSetter__"; "__lookupGetter__"; "__lookupSetter__" ].

(** The array index a property name denotes, if it denotes one: the name is
    then the decimal text, without leading zeros, of an integer from [0] to
    [2^32 - 2]. *)
Definition digit_of (c : ascii) : option N :=
  let n := N_of_ascii c in
  if ((48 <=? n) && (n <=? 57))%N then Some (n - 48)%N else None.

Fixpoint digits (s : string) (acc : N) : option N :=
  match s with
  | EmptyString => Some acc
  | String c rest =>
      match digit_of c with
      | Some d => digits rest (10 * acc + d)%N
      | None => None
      end
  end.

Definition array_index (name : string) : option N :=
  match name with
  | EmptyString => None
  | String "0"%char EmptyString => Some 0%N
  | String "0"%char _ => None
  | _ =>
      match digits name 0 with
      | Some n => if (n <? 4294967295)%N then Some n else None
      | None => None
      end
  end.

(** The order in which an object lists its own entries: those whose names
    are array indices first, by index, then the others in the order in
    which they were first set.  The object is kept as the list of its
    entries in the order in which they were first set. *)
Definition by_index {A} (x y : N * A) : Prop := (x.1 ≤ y.1)%N.

#[global] Instance by_index_dec {A} (x y : N * A) : Decision (by_index x y).
Proof. unfold by_index. apply _. Defined.

Definition enumerate {A} (entries : list (string * A)) : list (string * A) :=
  (snd <$> merge_sort by_index
             (omap (λ entry, (λ n, (n, entry)) <$> array_index entry.1) entries)) ++
  filter (λ entry, array_index entry.1 = None) entries.

(** The reducer is written once over the values and the addition it uses.
    The values are those of the language: what [+] and [||] are applied to
    is a number, a text or a member the object inherits. *)
Section CategoryTotals.
Context {E num : Type}.
Variable category : E → string.
Variable amount : E → num.
Variable add : num → num → num.
Variable zero : num.
Variable truthy : num → bool.

(** The member of [Object.prototype] under a name, as a value. *)
Variable member : string → num.

(** The object's own entry under [k]. *)
Fixpoint own_get (k : string) (acc : list (string * num)) : option num :=
  match acc with
  | [] => None
  | (k', v) :: rest => if String.eqb k' k then Some v else own_get k rest
  end.

(** Setting the object's own entry under [k]. *)
Fixpoint own_set (k : string) (v : num) (acc : list (string * num)) :
    list (string * num) :=
  match acc with
  | [] => [(k, v)]
  | (k', v') :: rest =>
      if String.eqb k' k then (k', v) :: rest else (k', v') :: own_set k v rest
  end.

(** [acc[k]]: the object's own entry, or else the member it inherits under
    that name, or else [undefined]. *)
Definition obj_get (k : string) (acc : list (string * num)) : option num :=
  match own_get k acc with
  | Some v => Some v
  | None => if bool_decide (k ∈ inherited_names) then Some (member k) else None
  end.

(** [acc[k] = v], for a value [v] that is not an object (the sum the reducer
    assigns never is one): it sets the object's own entry, except under
    [__proto__], where the inherited setter ignores such a value and the
    object stays as it is. *)
Definition obj_set (k : string) (v : num) (acc : list (string * num)) :
    list (string * num) :=
  if String.eqb k "__proto__" then acc else own_set k v acc.

(** [x || 0] for [x] a value or undefined *)
Definition or_zero (x : option num) : num :=
  match x with
  | Some v => if truthy v then v else zero
  | None => zero
  end.

Definition getCategoryTotals (expenses : list E) : list (string * num) :=
  fold_left
    (λ acc expense,
       obj_set (category expense)
         (add (or_zero (obj_get (category expense) acc)) (amount expense)) acc)
    expenses [].

(** [Object.values(totals).reduce((sum, v) => sum + v, 0)] *)
Definition sum_values (totals : list (string * num)) : num :=
  fold_left (λ sum v, add sum v) (snd <$> enumerate totals) zero.

(** [expenses.reduce((sum, expense) => sum + expense.amount, 0)] *)
Definition sum_amounts (expenses : list E) : num :=
  fold_left (λ sum expense, add sum (amount expense)) expenses zero.

End CategoryTotals.

(** What an entry of the totals object can hold and what reading the object
    can answer: a number, a text (once something that is not a number has
    been added to), or a member the object inherits. *)
Inductive total :=
| Number (x : float)
| Text (s : string)
| Member (name : string).

Section Totals.
Context `{Platform}.

(** The text a value is joined to a string as. *)
Definition total_text (v : total) : string :=
  match v with
  | Number x => numberToString x
  | Text s => s
  | Member name => memberToString name
  end.

(** [a + b]: the sum of two numbers, and otherwise the two texts joined. *)
Definition plus (a b : total) : total :=
  match a, b with
  | Number x, Number y => Number (x + y)%float
  | _, _ => Text (total_text a +:+ total_text b)
  end.

Definition total_truthy (v : total) : bool :=
  match v with
  | Number x => Js.num_truthy x
  | Text s => Js.str_truthy s
  | Member _ => true
  end.

(** The reducer as the application runs it, on double-precision numbers. *)
Definition categoryTotals (expenses : list Expense.t) : list (string * total) :=
  getCategoryTotals Expense.category (λ expense, Number (Expense.amount expense))
    plus (Number 0) total_truthy Member expenses.

Definition total_of_categories (expenses : list Expense.t) : total :=
  sum_values plus (Number 0) (categoryTotals expenses).

Definition total_of_expenses (expenses : list Expense.t) : total :=
  sum_amounts (λ expense, Number (Expense.amount expense)) plus (Number 0) expenses.

End Totals.

(** ** [utils/exportUtils.ts] and [utils/storage.ts]: the CSV text *)

Module ExportUtils.

Definition dquote : string := String "034"%char EmptyString.
Definition newline : string := String "010"%char EmptyString.

Section ExportUtils.
Context `{Platform}.

Definition headers : list string :=
  ["Date"; "Description"; "Category"; "Amount"; "Created At"].

Definition csvRow (expense : Expense.t) : string :=
  Js.join ","
    [ Expense.date expense;
      dquote +:+ Expense.description expense +:+ dquote;
      Expense.category expense;
      numberToString (Expense.amount expense);
      Expense.createdAt expense ].

(** The text [exportToCSV] puts into the downloaded file. *)
Definition csvContent (expenses : list Expense.t) : string :=
  Js.join newline (Js.join "," headers :: (csvRow <$> expenses)).

(** The tuple a reader is to recover from a row, the amount as the text
    the row holds for it. *)
Definition csvTuple (expense : Expense.t) : string * string * string * string :=
  (Expense.date expense, Expense.description expense, Expense.category expense,
   numberToString (Expense.amount expense)).

End ExportUtils.
End ExportUtils.

(** ** Vocabulary of the properties *)

(** The backend after one request to the store has been answered. *)
Definition pop (w : World) : World := set_faults (tail (faults w)) w.

(** A value that is present: neither [undefined] nor [null]. *)
Definition defined (v : Js.value) : Prop := v ≠ Js.Undefined ∧ v ≠ Js.Null.

(** A stored flag as the interface [FirestoreCategory] declares it: a
    boolean, or absent. *)
Definition is_flag (v : Js.value) : Prop :=
  match v with
  | Js.Undefined | Js.Null | Js.Bool _ => True
  | Js.Num _ | Js.Str _ => False
  end.

(** The flags of a category record [c] read from the stored data [data]:
    [isActive] is [true] unless the stored field is exactly [false];
    [isDefault] is present, is [true] when the stored field is [true] and
    [false] when the stored field is absent or otherwise falsy, so that for
    a stored flag it is [true] exactly when the stored field is;
    [expenseCount] is present and is [0] when the stored field is missing. *)
Definition flag_defaults (data : FirestoreCategory.t) (c : Category.t) : Prop :=
  (Category.isActive c = true ↔ FirestoreCategory.isActive data ≠ Js.Bool false) ∧
  defined (Category.isDefault c) ∧
  (FirestoreCategory.isDefault data = Js.Bool true →
     Category.isDefault c = Js.Bool true) ∧
  (Js.truthy (FirestoreCategory.isDefault data) = false →
     Category.isDefault c = Js.Bool false) ∧
  (is_flag (FirestoreCategory.isDefault data) →
     Category.isDefault c =
       Js.Bool (Js.strict_eq_bool (FirestoreCategory.isDefault data) true)) ∧
  defined (Category.expenseCount c) ∧
  (FirestoreCategory.expenseCount data = Js.Undefined ∨
   FirestoreCategory.expenseCount data = Js.Null →
     Category.expenseCount c = Js.Num 0).

(** All the category documents of a user, active or not. *)
Definition user_categories (userId : string) (w : World) :
    list (string * FirestoreCategory.t) :=
  filter (λ doc, FirestoreCategory.userId doc.2 = userId)
    (map_to_list (db_categories w)).

(** The outcome of an invocation, kept as a value: a promise that has
    settled, fulfilled or rejected. *)
Definition settle {A} (m : M A) : M (result A) := λ w,
  let (r, w') := m w in (Ok r, w').

(** An invocation of [ensureUserHasCategories] from the point where its read
    has settled. *)
Definition ensure_resume `{Platform} (userId : string)
    (read : result (list Category.t)) : M (list Category.t) :=
  try_catch
    (match read with
     | Ok existingCategories =>
         CategoryService.ensure_after_read userId existingCategories
     | Throw e => throw e
     end)
    (λ _, throw (Error "Failed to ensure user has categories")).

(** Two invocations of [ensureUserHasCategories] one after the other. *)
Definition ensure_twice `{Platform} (userId : string) :
    M (result (list Category.t) * result (list Category.t)) :=
  first ← settle (CategoryService.ensureUserHasCategories userId);
  second ← settle (CategoryService.ensureUserHasCategories userId);
  mret (first, second).

(** Two invocations that overlap: the second is started while the first
    still awaits its read, so both reads are answered before either
    invocation goes on. *)
Definition ensure_overlapped `{Platform} (userId : string) :
    M (result (list Category.t) * result (list Category.t)) :=
  read1 ← settle (CategoryService.getUserCategories userId false);
  read2 ← settle (CategoryService.getUserCategories userId false);
  first ← settle (ensure_resume userId read1);
  second ← settle (ensure_resume userId read2);
  mret (first, second).

(** The category documents of a user are at most one set of defaults, all
    active. *)
Definition seeded_at_most_once (userId : string) (w : World) : Prop :=
  (length (user_categories userId w) ≤ 8)%nat ∧
  Forall (λ doc : string * FirestoreCategory.t,
            FirestoreCategory.isActive doc.2 = Js.Bool true)
    (user_categories userId w).

(** A record of a seeded default category: owned by the user, marked
    default and active, with no expenses counted. *)
Definition is_default_record (userId : string) (c : Category.t) : Prop :=
  Category.userId c = userId ∧
  Category.isDefault c = Js.Bool true ∧
  Category.isActive c = true ∧
  Category.expenseCount c = Js.Num 0.

(** The number of a user's expense documents that carry a category name. *)
Definition count_category (userId c : string) (w : World) : nat :=
  length
    (filter (λ doc : string * FirestoreExpense.t,
               FirestoreExpense.userId doc.2 = userId ∧
               FirestoreExpense.category doc.2 = c)
       (map_to_list (db_expenses w))).

(** The object [{ ...expense, category: r }] of the reassignment loop. *)
Definition reassign_patch (r : string) (expense : Expense.t) : ExpensePatch.t :=
  ExpensePatch.with_category r (ExpensePatch.spread expense).

(** The document of an expense once the reassignment loop has rewritten it
    to category [r] at store time [now]: owner, amount, description and date
    as they were, the new category, the creation time as the text the
    component held for it, the time of the update, and the identifier the
    component's record carried, now stored as a field. *)
Definition reassigned `{Platform} (r : string) (now : nat) (k : string)
    (d : FirestoreExpense.t) : FirestoreExpense.t :=
  FirestoreExpense.mk
    (FirestoreExpense.userId d)
    (FirestoreExpense.amount d)
    (FirestoreExpense.description d)
    r
    (FirestoreExpense.date d)
    (IsoText (createdAt_text (FirestoreExpense.createdAt d)))
    (Some (Timestamp now))
    (Some k).

(** The default set a new user is given: eight categories, each with its
    colour and icon, in this order. *)
Definition default_set : list (string * string * string) :=
  [ ("Food & Dining", "#FF6B6B", "🍽️");
    ("Transportation", "#4ECDC4", "🚗");
    ("Shopping", "#45B7D1", "🛍️");
    ("Entertainment", "#96CEB4", "🎬");
    ("Bills & Utilities", "#FFEAA7", "💡");
    ("Healthcare", "#DDA0DD", "🏥");
    ("Education", "#98D8C8", "📚");
    ("Travel", "#F7DC6F", "✈️") ].

(** The documents of the default set for a user, created at store time
    [now]: each owned by the user, marked default and active, with no
    expenses counted. *)
Definition default_documents (userId : string) (now : nat) : list FirestoreCategory.t :=
  (λ entry : string * string * string,
     FirestoreCategory.mk userId entry.1.1 (Some entry.1.2) (Some entry.2)
       (Timestamp now) (Js.Bool true) (Js.Bool true) (Js.Num 0)) <$> default_set.

(** ** Reading a CSV text back *)

Module CsvReader.

Definition comma : ascii := ","%char.
Definition dquote : ascii := "034"%char.
Definition newline : ascii := "010"%char.

(** Modelled from the spec: the reader of the round trip ("parsing the
    generated CSV back into rows"), which the repository does not contain.
    It is the usual reader of comma-separated text: a double quote opens or
    closes a quoted stretch and is not part of the field, a comma outside
    quotes ends the field, a line feed outside quotes ends the row. *)
Fixpoint scan (s : string) (in_quotes : bool) (field : string) (row : list string) :
    list (list string) :=
  match s with
  | EmptyString => [row ++ [field]]
  | String ch rest =>
      if Ascii.eqb ch dquote then scan rest (negb in_quotes) field row
      else if negb in_quotes && Ascii.eqb ch comma
      then scan rest false EmptyString (row ++ [field])
      else if negb in_quotes && Ascii.eqb ch newline
      then (row ++ [field]) :: scan rest false EmptyString []
      else scan rest in_quotes (field +:+ String ch EmptyString) row
  end.

(** The tuple of a row of five fields. *)
Definition readRow (fields : list string) : option (string * string * string * string) :=
  match fields with
  | [date; description; category; amount; _] => Some (date, description, category, amount)
  | _ => None
  end.

(** Modelled from the spec: the rows after the header, as tuples. *)
Definition parseCSV (text : string) : list (string * string * string * string) :=
  omap readRow (tail (scan text false EmptyString [])).

Fixpoint has_char (c : ascii) (s : string) : bool :=
  match s with
  | EmptyString => false
  | String ch rest => Ascii.eqb ch c || has_char c rest
  end.

(** A text that can stand in a row as it is. *)
Definition plain (s : string) : bool :=
  negb (has_char comma s || has_char dquote s || has_char newline s).

(** A text that can stand between quotes. *)
Definition quotable (s : string) : bool := negb (has_char dquote s).

Definition csv_safe `{Platform} (expense : Expense.t) : bool :=
  plain (Expense.date expense) &&
  quotable (Expense.description expense) &&
  plain (Expense.category expense) &&
  plain (numberToString (Expense.amount expense)) &&
  plain (Expense.createdAt expense).

(** The fields of the row of an expense. *)
Definition row_fields `{Platform} (expense : Expense.t) : list string :=
  [ Expense.date expense; Expense.description expense; Expense.category expense;
    numberToString (Expense.amount expense); Expense.createdAt expense ].

End CsvReader.

(** ** A platform and data to run the definitions on *)

Module Examples.

(** The fraction [m * 2 ^ e] with [m] made odd when [e] is negative. *)
Fixpoint lowest_terms (fuel : nat) (m e : Z) : Z * Z :=
  match fuel with
  | O => (m, e)
  | S fuel' =>
      if (e <? 0)%Z && Z.even m
      then lowest_terms fuel' (m / 2)%Z (e + 1)%Z
      else (m, e)
  end.

Fixpoint pad_zeros (k : nat) (s : string) : string :=
  match k with
  | O => s
  | S k' => if (String.length s <? k)%nat then pad_zeros k' ("0" +:+ s) else s
  end.

(** The exact decimal expansion of a double. *)
Definition exact_decimal (x : float) : string :=
  match Prim2SF x with
  | SpecFloat.S754_zero _ => "0"
  | SpecFloat.S754_infinity s => if s then "-Infinity" else "Infinity"
  | SpecFloat.S754_nan => "NaN"
  | SpecFloat.S754_finite s m e =>
      let '(m', e') := lowest_terms 1100 (Z.pos m) e in
      (if s then "-" else EmptyString) +:+
      (if (0 <=? e')%Z then pretty (m' * 2 ^ e')%Z
       else
         let k := (- e')%Z in
         let n := (m' * 5 ^ k)%Z in
         pretty (n / 10 ^ k)%Z +:+ "." +:+
         pad_zeros (Z.to_nat k) (pretty (n mod 10 ^ k)%Z))
  end.

(** A platform that prints a time as its tick count, a number as its
    exact decimal expansion and the members of [Object.prototype] as the
    usual engines do, and returns query results in the order the collection
    lists them. *)
Definition platform : Platform :=
  {| toISOString := λ t, "tick-" +:+ pretty t;
     numberToString := exact_decimal;
     memberToString := λ name,
       if String.eqb name "__proto__" then "[object Object]"
       else if String.eqb name "constructor" then "function Object() { [native code] }"
       else "function " +:+ name +:+ "() { [native code] }";
     orderByCreatedAt_asc := λ l, l;
     orderByCreatedAt_desc := λ l, l;
     orderByCreatedAt_asc_perm := λ l, Permutation_refl l;
     orderByCreatedAt_desc_perm := λ l, Permutation_refl l |}.

Definition wrong_password : exn :=
  {| code := Some "auth/wrong-password"; message := "Firebase: Error (auth/wrong-password)." |}.

(** A provider that knows every address under the password [secret]. *)
Definition provider (email password : string) : exn + FirebaseUser.t :=
  if String.eqb password "secret"
  then inr (FirebaseUser.mk ("uid:" +:+ email) (Some email) None)
  else inl wrong_password.

(** A backend whose allowlist has one active and one deactivated address,
    and which holds no categories and no expenses. *)
Definition fresh_backend : World :=
  mkWorld
    (<["ana@example.com" := AuthorizedUser.mk (Js.Bool true)]>
       (<["old@example.com" := AuthorizedUser.mk (Js.Bool false)]> ∅))
    ∅ ∅ ∅ None provider None 7 9 [].

Definition category_doc (userId name : string) : FirestoreCategory.t :=
  FirestoreCategory.mk userId name None None (Timestamp 1)
    (Js.Bool false) (Js.Bool true) (Js.Num 0).

Definition expense_doc (userId category description : string) (amount : float) :
    FirestoreExpense.t :=
  FirestoreExpense.mk userId amount description category "2025-01-15"
    (Timestamp 2) None None.

(** A backend with three categories of user [u1], two expenses under
    [Food], one under [Rent], none under [Travel], and an expense of
    another user under [Food]. *)
Definition ledger : World :=
  mkWorld ∅ ∅
    (<["c1" := category_doc "u1" "Food"]>
       (<["c2" := category_doc "u1" "Rent"]>
          (<["c3" := category_doc "u1" "Travel"]> ∅)))
    (<["e1" := expense_doc "u1" "Food" "Groceries" 45.5]>
       (<["e2" := expense_doc "u1" "Rent" "January" 350]>
          (<["e3" := expense_doc "u1" "Food" "Coffee" 25]>
             (<["e4" := expense_doc "u2" "Food" "Lunch" 12]> ∅))))
    None provider None 7 9 [].

Definition u1 : User.t := User.mk "u1" "ana" (Some "ana@example.com").

(** The component as it stands for [u1] over [ledger]. *)
Definition ledger_props : CategoryManagement.Props :=
  {| CategoryManagement.expenses :=
       @ExpenseService.snapshot_userExpenses platform "u1" ledger;
     CategoryManagement.currentUser := Some u1 |}.

Definition ledger_state (pending : option string) (replacement : string) :
    CategoryManagement.State :=
  CategoryManagement.mkState
    (@CategoryService.snapshot_userCategories platform "u1" ledger)
    pending replacement.

(** Three expenses in two categories, with amounts in tenths. *)
Definition tenths : list Expense.t :=
  [ Expense.mk "1" 0.1 "Bread" "Food" "2025-01-15" "2025-01-15T10:30:00Z";
    Expense.mk "2" 0.3 "Bus" "Transport" "2025-01-14" "2025-01-14T15:45:00Z";
    Expense.mk "3" 0.7 "Milk" "Food" "2025-01-13" "2025-01-13T09:15:00Z" ].

(** Two collections of one expense each that differ in description and
    category. *)
Definition quoted_a (x : float) : list Expense.t :=
  [ Expense.mk "1" x (String "a" (String CsvReader.dquote ",b")) "c" "2025-01-15" "t" ].

Definition quoted_b (x : float) : list Expense.t :=
  [ Expense.mk "1" x "a" (String "b" (String CsvReader.dquote ",c")) "2025-01-15" "t" ].

(** The demo data of [utils/storage.ts], first two records. *)
Definition demo : list Expense.t :=
  [ Expense.mk "1" 45.5 "Grocery shopping" "Food & Dining" "2025-01-15"
      "2025-01-15T10:30:00Z";
    Expense.mk "2" 120 "Gas station" "Transportation" "2025-01-14"
      "2025-01-14T15:45:00Z" ].

End Examples.

(** ** The category-setup component *)

Module CategorySetup.

Record State := mkState {
  categories : list string;
  newCategoryName : string
}.

Section CategorySetup.
Context `{Platform}.

(** The signed-in user of the authentication context. *)
Variable currentUser : option User.t.

(** [String.prototype.trim], which the platform supplies. *)
Variable trim : string → string.

(** [categories.includes(name)] *)
Definition includes (categories : list string) (name : string) : bool :=
  existsb (String.eqb name) categories.

Definition handleAddCategory (categoryName : string) (st : State) : State :=
  let trimmedName := trim categoryName in
  if Js.str_truthy trimmedName && negb (includes (categories st) trimmedName)
  then mkState (categories st ++ [trimmedName]) (newCategoryName st)
  else st.

Definition handleRemoveCategory (categoryToRemove : string) (st : State) : State :=
  mkState (filter (λ cat, cat ≠ categoryToRemove) (categories st)) (newCategoryName st).

Definition handleAddCustomCategory (st : State) : State :=
  if Js.str_truthy (trim (newCategoryName st)) &&
     negb (includes (categories st) (trim (newCategoryName st)))
  then mkState (categories st ++ [trim (newCategoryName st)]) EmptyString
  else st.

(** The result is the argument [onComplete] is called with, when it is
    called. *)
Definition handleComplete (st : State) : M (option (list string)) :=
  match currentUser with
  | None => mret None
  | Some user =>
      if (length (categories st) =? 0)%nat then mret None
      else
        try_catch
          (for_of (categories st) (λ categoryName,
             CategoryService.addCategory (User.id user)
               (CategoryInput.mk categoryName None None) ;;
             mret tt) ;;
           mret (Some (categories st)))
          (λ _, mret None)
  end.

End CategorySetup.
End CategorySetup.

(** ** Vocabulary of the further properties *)

(** The name [createOrUpdateUser] gives a user whose address is known: the
    display name, or else the part of the address before the first [@]. *)
Definition profile_name (firebaseUser : FirebaseUser.t) (address : string) : string :=
  text_or (FirebaseUser.displayName firebaseUser) (Js.split_head "@" address).

(** The record read from an expense document after an update, from the
    record read before it. *)
Definition patched (p : ExpensePatch.t) (e : Expense.t) : Expense.t :=
  Expense.mk (Expense.id e)
    (default (Expense.amount e) (ExpensePatch.amount p))
    (default (Expense.description e) (ExpensePatch.description p))
    (default (Expense.category e) (ExpensePatch.category p))
    (default (Expense.date e) (ExpensePatch.date p))
    (default (Expense.createdAt e) (ExpensePatch.createdAt p)).

(** Category names that are read from the totals object as its own
    entries only. *)
Definition own_names {E} (category : E → string) (expenses : list E) : Prop :=
  Forall (λ expense, category expense ∉ inherited_names) expenses.

(** The total the reducer keeps for one category, from the amounts of that
    category in the order of the expenses: each turn adds the amount to
    [total || 0]. *)
Definition subtotal {num} (add : num → num → num) (zero : num) (truthy : num → bool)
    (amounts : list num) : num :=
  fold_left (λ total x, add (or_zero zero truthy (Some total)) x) amounts zero.

(** Values that are whole numbers of a unit, with the number of units they
    add up to. *)
Inductive measured {num} (unit_of : nat → num) : list num → nat → Prop :=
| measured_nil : measured unit_of [] 0
| measured_cons (n : nat) (values : list num) (s : nat) :
    measured unit_of values s → measured unit_of (unit_of n :: values) (n + s).

(** The selection of the category-setup screen holds each name once and no
    empty name. *)
Definition selection_ok (st : CategorySetup.State) : Prop :=
  NoDup (CategorySetup.categories st) ∧
  Forall (λ name, name ≠ EmptyString) (CategorySetup.categories st).

(** ** Further data to run the definitions on *)

Module Scenarios.

Fixpoint ltrim (s : string) : string :=
  match s with
  | String " "%char rest => ltrim rest
  | _ => s
  end.

Definition reverse (s : string) : string :=
  string_of_list_ascii (rev (list_ascii_of_string s)).

(** A [trim] that knows the space only. *)
Definition trim (s : string) : string := reverse (ltrim (reverse (ltrim s))).

(** A backend in which user [u1] has one category, deleted earlier. *)
Definition retired : World :=
  mkWorld ∅ ∅
    (<["c1" := FirestoreCategory.mk "u1" "Food & Dining" None None (Timestamp 1)
                 (Js.Bool true) (Js.Bool false) (Js.Num 0)]> ∅)
    ∅ None Examples.provider None 7 9 [].

(** The backend of the examples with a provider that rejects sign-outs. *)
Definition stuck : World :=
  mkWorld (db_authorizedUsers Examples.fresh_backend) ∅ ∅ ∅ None Examples.provider
    (Some {| code := Some "auth/network-request-failed";
             message := "Firebase: Error (auth/network-request-failed)." |})
    7 9 [].

(** An empty backend whose store answers [k] requests and fails the next. *)
Definition outage (k : nat) : World :=
  set_faults (replicate k None ++ [Some (Error "unavailable")]) Examples.fresh_backend.

Definition coffee : ExpenseInput.t :=
  ExpenseInput.mk 3.5 "Coffee" "Food" "2025-01-16".

(** The setup screen with two names selected and a third typed. *)
Definition selection : CategorySetup.State :=
  CategorySetup.mkState ["Food & Dining"; "Housing"] " Pets ".

(** Half a currency unit taken [n] times, as a double and as a total. *)
Definition half (n : nat) : float :=
  (PrimFloat.of_uint63 (Uint63.of_Z (Z.of_nat n)) / 2)%float.

Definition halves (n : nat) : total := Number (half n).

(** The first, second and fourth record of the demo data of
    [utils/storage.ts], two of them under one category, and their amounts
    counted in halves. *)
Definition outings : list Expense.t :=
  [ Expense.mk "1" 45.5 "Grocery shopping" "Food & Dining" "2025-01-15"
      "2025-01-15T10:30:00Z";
    Expense.mk "2" 120 "Gas station" "Transportation" "2025-01-14"
      "2025-01-14T15:45:00Z";
    Expense.mk "4" 25 "Coffee shop" "Food & Dining" "2025-01-12"
      "2025-01-12T08:20:00Z" ].

Definition in_halves (expense : Expense.t) : nat :=
  if String.eqb (Expense.id expense) "1" then 91
  else if String.eqb (Expense.id expense) "2" then 240
  else 50.

(** Expenses filed under names that every object inherits a member for. *)
Definition inherited : list Expense.t :=
  [ Expense.mk "1" 5 "Gift" "__proto__" "2025-01-15" "2025-01-15T10:30:00Z";
    Expense.mk "2" 2 "Fee" "constructor" "2025-01-14" "2025-01-14T15:45:00Z";
    Expense.mk "3" 3 "Fee" "constructor" "2025-01-13" "2025-01-13T09:15:00Z" ].

(** The management screen while [Food] is being edited. *)
Definition inputs : CategoryManagement.Inputs :=
  CategoryManagement.mkInputs EmptyString (Some "Food") " Groceries ".

End Scenarios.

(** * Properties *)

Local Open Scope nat_scope.

(** ** Running a computation *)

Lemma storeCall_spec (w : World) :
  storeCall w =
    (match head (faults w) with
     | Some (Some e) => Throw e
     | _ => Ok tt
     end, pop w).
Proof.
  destruct w as [a u c e s acc so st ct fs]; unfold storeCall, pop; simpl.
  destruct fs as [|[x|] fs]; reflexivity.
Qed.

Lemma next_call_ok_head (w : World) :
  next_call_ok w → ∀ e, head (faults w) ≠ Some (Some e).
Proof.
  unfold next_call_ok. destruct (faults w) as [|[x|] fs]; simpl; intros Hok e; congruence || contradiction.
Qed.

Lemma storeCall_ok (w : World) :
  next_call_ok w → storeCall w = (Ok tt, pop w).
Proof.
  intros Hok. rewrite storeCall_spec.
  pose proof (next_call_ok_head w Hok) as Hh.
  destruct (head (faults w)) as [[e|]|]; [exfalso; eapply Hh; reflexivity | reflexivity..].
Qed.

Lemma calm_next_call_ok (w : World) : calm w → next_call_ok w.
Proof.
  unfold calm, next_call_ok. destruct (faults w) as [|[x|] fs]; auto.
  intros Hc. inversion Hc; discriminate.
Qed.

Lemma calm_pop (w : World) : calm w → calm (pop w).
Proof.
  unfold calm, pop. destruct w as [a u c e s acc so st ct fs]; simpl.
  destruct fs; simpl; [auto|]. intros Hc. inversion Hc; assumption.
Qed.

Ltac unfold_M :=
  unfold mbind, mret, M_bind, M_ret, try_catch, gets, modify, throw in *.

(** ** The allowlist check and the sign-in gate *)

Lemma isAuthorizedUser_run (w : World) (email : string) :
  AuthService.isAuthorizedUser email w =
    (Ok (match head (faults w) with
         | Some (Some _) => false
         | _ =>
             match db_authorizedUsers w !! email with
             | Some data => Js.strict_eq_bool (AuthorizedUser.isActive data) true
             | None => false
             end
         end), pop w).
Proof.
  unfold AuthService.isAuthorizedUser, AuthService.getDoc_authorizedUsers.
  unfold_M. rewrite storeCall_spec.
  destruct (head (faults w)) as [[e|]|]; reflexivity.
Qed.

Lemma strict_eq_bool_true (v : Js.value) :
  Js.strict_eq_bool v true = true ↔ v = Js.Bool true.
Proof.
  destruct v as [| |[]| |]; simpl; split; intros Hv; congruence.
Qed.

(** C8.  The allowlist check always returns a boolean, never an exception;
    the boolean is [true] exactly when the read of the allowlist went
    through, the entry of the address exists, and its [isActive] field is
    the boolean [true].  In particular a failed read yields [false]. *)
Theorem isAuthorizedUser_fail_closed (w : World) (email : string) :
  ∃ (b : bool) (w' : World),
    AuthService.isAuthorizedUser email w = (Ok b, w') ∧
    (b = true ↔ next_call_ok w ∧ allowlisted w email) ∧
    (¬ next_call_ok w → b = false).
Proof.
  rewrite isAuthorizedUser_run. eexists _, _. split; [reflexivity|].
  unfold next_call_ok, allowlisted.
  destruct (faults w) as [|[e|] fs]; simpl.
  - split; [|tauto].
    destruct (db_authorizedUsers w !! email) as [data|].
    + rewrite strict_eq_bool_true. split.
      * intros Hd. split; [exact I|]. exists data. auto.
      * intros [_ (d & Hd & Ha)]. congruence.
    + split; [discriminate|]. intros [_ (d & Hd & _)]. discriminate.
  - split; [|reflexivity]. split; [discriminate|]. intros [[] _].
  - split; [|tauto].
    destruct (db_authorizedUsers w !! email) as [data|].
    + rewrite strict_eq_bool_true. split.
      * intros Hd. split; [exact I|]. exists data. auto.
      * intros [_ (d & Hd & Ha)]. congruence.
    + split; [discriminate|]. intros [_ (d & Hd & _)]. discriminate.
Qed.


(** ** Flags of the category records that are read *)

Lemma or_defined (v d : Js.value) : defined d → defined (Js.or v d).
Proof.
  unfold Js.or, defined. destruct v; simpl; try tauto.
  - destruct b; [split; discriminate | tauto].
  - destruct (Js.num_truthy x); [split; discriminate | tauto].
  - destruct (Js.str_truthy s); [split; discriminate | tauto].
Qed.

Lemma convertToCategory_flags `{Platform} (id : string) (data : FirestoreCategory.t) :
  flag_defaults data (CategoryService.convertToCategory (id, data)).
Proof.
  unfold flag_defaults, CategoryService.convertToCategory; simpl.
  split; [|split; [|split; [|split; [|split; [|split]]]]].
  - unfold Js.strict_ne_bool.
    destruct (FirestoreCategory.isActive data) as [| |[]| |]; simpl;
      split; intros Hx; congruence.
  - apply or_defined. split; discriminate.
  - intros ->. reflexivity.
  - unfold Js.or. intros ->. reflexivity.
  - destruct (FirestoreCategory.isDefault data) as [| |[]| |]; simpl;
      intros Hf; reflexivity || contradiction.
  - apply or_defined. split; discriminate.
  - intros [-> | ->]; reflexivity.
Qed.

Lemma getCategory_run `{Platform} (id : string) (w : World) :
  CategoryService.getCategory id w =
    (match head (faults w) with
     | Some (Some _) => Throw (Error "Failed to get category")
     | _ => Ok (match db_categories w !! id with
                | Some data => Some (CategoryService.convertToCategory (id, data))
                | None => None
                end)
     end, pop w).
Proof.
  unfold CategoryService.getCategory, CategoryService.getDoc_categories.
  unfold_M. rewrite storeCall_spec.
  destruct (head (faults w)) as [[e|]|]; reflexivity.
Qed.

Lemma getUserCategories_run `{Platform} (userId : string) (inc : bool) (w : World) :
  CategoryService.getUserCategories userId inc w =
    (match head (faults w) with
     | Some (Some _) => Throw (Error "Failed to get categories")
     | _ => Ok (CategoryService.convertToCategory <$>
                 orderByCreatedAt_asc
                   (filter (CategoryService.matches_user userId inc)
                      (map_to_list (db_categories w))))
     end, pop w).
Proof.
  unfold CategoryService.getUserCategories, CategoryService.getDocs_categories.
  unfold_M. rewrite storeCall_spec.
  destruct (head (faults w)) as [[e|]|]; reflexivity.
Qed.

Lemma listed_categories_flags `{Platform} (userId : string) (inc : bool) (w : World)
    (c : Category.t) :
  c ∈ CategoryService.convertToCategory <$>
        orderByCreatedAt_asc
          (filter (CategoryService.matches_user userId inc)
             (map_to_list (db_categories w))) →
  ∃ data, db_categories w !! Category.id c = Some data ∧ flag_defaults data c.
Proof.
  intros Hc. apply list_elem_of_fmap in Hc as ([id data] & -> & Hdoc).
  rewrite orderByCreatedAt_asc_perm in Hdoc.
  apply list_elem_of_filter in Hdoc as [_ Hdoc].
  apply elem_of_map_to_list in Hdoc.
  exists data. split; [exact Hdoc | apply convertToCategory_flags].
Qed.

(** C10.  Every category record handed out by a read of the category
    service (the point lookup [getCategory], the list [getUserCategories],
    the snapshot given to the subscriber) comes from a stored document and
    has its flags present with the defaults: [isActive] is [true] unless the
    stored field is exactly [false]; [isDefault] is [true] when the stored
    field is [true] and [false] when it is absent or otherwise falsy, hence
    [false] unless the stored field is [true] for a stored field that is a
    boolean or absent; [expenseCount] is [0] when the stored field is
    missing. *)
Theorem category_reads_default_flags `{Platform} (w : World) :
  (∀ id c w', CategoryService.getCategory id w = (Ok (Some c), w') →
     ∃ data, db_categories w !! id = Some data ∧ flag_defaults data c) ∧
  (∀ userId includeInactive cs w',
     CategoryService.getUserCategories userId includeInactive w = (Ok cs, w') →
     ∀ c, c ∈ cs →
       ∃ data, db_categories w !! Category.id c = Some data ∧ flag_defaults data c) ∧
  (∀ userId c, c ∈ CategoryService.snapshot_userCategories userId w →
     ∃ data, db_categories w !! Category.id c = Some data ∧ flag_defaults data c).
Proof.
  split; [|split].
  - intros id c w'. rewrite getCategory_run.
    destruct (head (faults w)) as [[e|]|]; [discriminate| |];
      (destruct (db_categories w !! id) as [data|] eqn:Hd; [|discriminate]);
      intros [= <- _]; exists data; (split; [reflexivity | apply convertToCategory_flags]).
  - intros userId inc cs w'. rewrite getUserCategories_run.
    destruct (head (faults w)) as [[e|]|]; [discriminate| |];
      intros [= <- _] c Hc; eapply listed_categories_flags; eassumption.
  - intros userId c Hc. eapply listed_categories_flags. exact Hc.
Qed.

(** ** Statistics of an empty expense list *)

Lemma query_userExpenses_pop `{Platform} (userId : string) (w : World) :
  ExpenseService.query_userExpenses userId (pop w) =
  ExpenseService.query_userExpenses userId w.
Proof. reflexivity. Qed.

Lemma getUserExpenses_run `{Platform} (userId : string) (w : World) :
  ExpenseService.getUserExpenses userId w =
    (match head (faults w) with
     | Some (Some _) => Throw (Error "Failed to get expenses")
     | _ => Ok (ExpenseService.snapshot_userExpenses userId w)
     end, pop w).
Proof.
  unfold ExpenseService.getUserExpenses, ExpenseService.getDocs_expenses,
    ExpenseService.snapshot_userExpenses.
  unfold_M. rewrite storeCall_spec.
  destruct (head (faults w)) as [[e|]|]; reflexivity.
Qed.

(** C9.  For a user whose expense list is empty, and a read of it that goes
    through, [getExpenseStats] returns the record with [totalExpenses] and
    [expenseCount] [0], [totalAmount] [0] and [averageAmount] [0]: the
    division by the count is not evaluated. *)
Theorem getExpenseStats_empty `{Platform} (w : World) (userId : string) :
  next_call_ok w →
  ExpenseService.snapshot_userExpenses userId w = [] →
  ExpenseService.getExpenseStats userId w =
    (Ok (ExpenseStats.mk 0 0%float 0%float 0), pop w).
Proof.
  intros Hok Hempty.
  unfold ExpenseService.getExpenseStats.
  unfold mbind, M_bind, try_catch. rewrite getUserExpenses_run, Hempty.
  pose proof (next_call_ok_head w Hok) as Hh.
  destruct (head (faults w)) as [[e|]|]; [exfalso; eapply Hh; reflexivity | reflexivity..].
Qed.

(** ** Seeding the default categories *)

Lemma filter_ext_Forall {A} (P Q : A → Prop) `{!∀ x, Decision (P x)}
    `{!∀ x, Decision (Q x)} (l : list A) :
  Forall (λ x, P x ↔ Q x) l → filter P l = filter Q l.
Proof.
  induction 1 as [|x l Hx _ IH]; [reflexivity|].
  destruct (decide (P x)) as [HP|HP].
  - rewrite !filter_cons_True by tauto. f_equal. exact IH.
  - rewrite !filter_cons_False by tauto. exact IH.
Qed.

Lemma filter_all {A} (P : A → Prop) `{!∀ x, Decision (P x)} (l : list A) :
  Forall P l → filter P l = l.
Proof.
  induction 1 as [|x l Hx _ IH]; [reflexivity|].
  rewrite filter_cons_True by assumption. f_equal. exact IH.
Qed.

Section Seeding.
Context `{Platform}.

Lemma createDefaultCategories_body_run (userId : string) (acc : list Category.t)
    (defaultCat : CategoryService.DefaultCategory) (w : World) :
  CategoryService.createDefaultCategories_body userId acc defaultCat w =
    match head (faults w) with
    | Some (Some e) => (Throw e, pop w)
    | _ =>
      (Ok (acc ++ [CategoryService.default_record userId (clientTime w)
                     (fresh (dom (db_categories w))) defaultCat]),
       set_db_categories
         (λ m, <[fresh (dom (db_categories w)) :=
                   CategoryService.default_doc userId (serverTime w) defaultCat]> m)
         (pop w))
    end.
Proof.
  unfold CategoryService.createDefaultCategories_body, CategoryService.addDoc_categories.
  unfold_M. rewrite storeCall_spec.
  destruct (head (faults w)) as [[e|]|]; reflexivity.
Qed.

Lemma map_to_list_insert_fresh (m : gmap string FirestoreCategory.t)
    (d : FirestoreCategory.t) :
  map_to_list (<[fresh (dom m) := d]> m) ≡ₚ (fresh (dom m), d) :: map_to_list m.
Proof.
  apply map_to_list_insert. apply not_elem_of_dom. apply is_fresh.
Qed.

(** However the store behaves, the loop adds one document for each default
    category of an initial part of the list, under identifiers the
    collection did not have; when no request fails it adds one for every
    default category and returns the records in the order of the list. *)
Lemma seed_loop_run (userId : string) (l : list CategoryService.DefaultCategory) :
  ∀ (acc : list Category.t) (w : World),
    ∃ (r : result (list Category.t)) (ids : list string) (w' : World),
      fold_of l acc (CategoryService.createDefaultCategories_body userId) w = (r, w') ∧
      length ids ≤ length l ∧
      serverTime w' = serverTime w ∧
      clientTime w' = clientTime w ∧
      db_expenses w' = db_expenses w ∧
      map_to_list (db_categories w') ≡ₚ
        zip ids (CategoryService.default_doc userId (serverTime w) <$> l) ++
        map_to_list (db_categories w) ∧
      (calm w →
         r = Ok (acc ++ zip_with (CategoryService.default_record userId (clientTime w)) ids l) ∧
         length ids = length l ∧
         calm w').
Proof.
  induction l as [|dc l IH]; intros acc w.
  - exists (Ok acc), [], w. simpl. rewrite app_nil_r. repeat split; auto.
  - simpl. unfold mbind, M_bind. rewrite createDefaultCategories_body_run.
    assert (Hcase : (∃ e, head (faults w) = Some (Some e)) ∨
                    (next_call_ok w ∧ ∀ e, head (faults w) ≠ Some (Some e))).
    { unfold next_call_ok. destruct (faults w) as [|[e|] fs]; simpl;
        [right; split; [exact I | discriminate] | left; eauto
        | right; split; [exact I | discriminate]]. }
    destruct Hcase as [[e He]|[Hok Hne]].
    + rewrite He. exists (Throw e), [], (pop w). simpl.
      split; [reflexivity|]. split; [lia|]. do 4 (split; [reflexivity|]).
      intros Hcalm. exfalso.
      eapply next_call_ok_head; [apply calm_next_call_ok|]; eassumption.
    + set (id := fresh (dom (db_categories w))).
      set (w1 := set_db_categories
                   (λ m, <[id := CategoryService.default_doc userId (serverTime w) dc]> m)
                   (pop w)).
      destruct (IH (acc ++ [CategoryService.default_record userId (clientTime w) id dc]) w1)
        as (r & ids & w' & Hrun & Hlen & Hst & Hct & Hex & Hperm & Hcalm).
      exists r, (id :: ids), w'.
      assert (Hrun' : match head (faults w) with
                      | Some (Some e) => (Throw e, pop w)
                      | _ => fold_of l (acc ++ [CategoryService.default_record userId
                                                  (clientTime w) id dc])
                               (CategoryService.createDefaultCategories_body userId) w1
                      end = (r, w')).
      { destruct (head (faults w)) as [[e|]|]; [exfalso; eapply Hne; reflexivity | exact Hrun..]. }
      split.
      { destruct (head (faults w)) as [[e|]|]; exact Hrun'. }
      simpl. repeat split; auto; try lia.
      * rewrite Hperm. subst w1 id. simpl.
        rewrite map_to_list_insert_fresh.
        apply Permutation_sym, Permutation_middle.
      * destruct Hcalm as (-> & _ & _); [apply calm_pop; assumption|].
        rewrite <- app_assoc. reflexivity.
      * destruct Hcalm as (_ & -> & _); [apply calm_pop; assumption|]. reflexivity.
      * destruct Hcalm as (_ & _ & Hc); [apply calm_pop; assumption|]. exact Hc.
Qed.

Lemma createDefaultCategories_run (userId : string) (w : World) :
  ∃ (r : result (list Category.t)) (ids : list string) (w' : World),
    CategoryService.createDefaultCategories userId w = (r, w') ∧
    length ids ≤ 8 ∧
    serverTime w' = serverTime w ∧
    clientTime w' = clientTime w ∧
    db_expenses w' = db_expenses w ∧
    map_to_list (db_categories w') ≡ₚ
      zip ids (CategoryService.default_doc userId (serverTime w) <$>
                 CategoryService.defaultCategories) ++
      map_to_list (db_categories w) ∧
    (calm w →
       r = Ok (zip_with (CategoryService.default_record userId (clientTime w)) ids
                 CategoryService.defaultCategories) ∧
       length ids = 8 ∧
       calm w').
Proof.
  destruct (seed_loop_run userId CategoryService.defaultCategories [] w)
    as (r & ids & w' & Hrun & Hlen & Hst & Hct & Hex & Hperm & Hcalm).
  unfold CategoryService.createDefaultCategories, try_catch. rewrite Hrun.
  destruct r as [cats|e].
  - exists (Ok cats), ids, w'. repeat split; auto.
    all: destruct (Hcalm ltac:(assumption)) as (Hr & Hl & Hc); auto.
  - exists (Throw (Error "Failed to create default categories")), ids, w'.
    repeat split; auto.
    all: destruct (Hcalm ltac:(assumption)) as (Hr & Hl & Hc); auto; discriminate.
Qed.

(** The documents the loop stores belong to the user and are active. *)
Lemma default_docs_owned (userId : string) (now : nat) (ids : list string)
    (l : list CategoryService.DefaultCategory) :
  Forall (λ doc : string * FirestoreCategory.t,
            FirestoreCategory.userId doc.2 = userId ∧
            FirestoreCategory.isActive doc.2 = Js.Bool true)
    (zip ids (CategoryService.default_doc userId now <$> l)).
Proof.
  apply Forall_forall. intros [id d] Hin.
  apply elem_of_zip_r in Hin. apply list_elem_of_fmap in Hin as (dc & -> & _).
  split; reflexivity.
Qed.

Lemma user_categories_pop (userId : string) (w : World) :
  user_categories userId (pop w) = user_categories userId w.
Proof. reflexivity. Qed.

(** What the list query returns for a user all of whose category documents
    are active: as many records as the user has documents. *)
Lemma active_matches (userId : string) (w : World) :
  Forall (λ doc : string * FirestoreCategory.t,
            FirestoreCategory.isActive doc.2 = Js.Bool true)
    (user_categories userId w) →
  filter (CategoryService.matches_user userId false) (map_to_list (db_categories w)) =
  user_categories userId w.
Proof.
  intros Hact. unfold user_categories in *.
  apply filter_ext_Forall, Forall_forall. intros doc Hin.
  unfold CategoryService.matches_user. split; [tauto|].
  intros Hu. split; [exact Hu|]. right.
  rewrite Forall_forall in Hact. apply Hact.
  apply list_elem_of_filter. auto.
Qed.

End Seeding.

Section EnsureDefaults.
Context `{Platform}.

Lemma orderByCreatedAt_asc_nil : orderByCreatedAt_asc [] = [].
Proof. apply Permutation_nil_r, orderByCreatedAt_asc_perm. Qed.

(** An invocation is its read followed by the rest. *)
Lemma ensure_split (userId : string) (w : World) :
  CategoryService.ensureUserHasCategories userId w =
  (read ← settle (CategoryService.getUserCategories userId false);
   ensure_resume userId read) w.
Proof.
  unfold CategoryService.ensureUserHasCategories, ensure_resume, settle.
  unfold_M.
  destruct (CategoryService.getUserCategories userId false w) as [[existing|e] w1];
    reflexivity.
Qed.

Lemma listed_length (userId : string) (w : World) :
  Forall (λ doc : string * FirestoreCategory.t,
            FirestoreCategory.isActive doc.2 = Js.Bool true)
    (user_categories userId w) →
  length (CategoryService.convertToCategory <$>
            orderByCreatedAt_asc
              (filter (CategoryService.matches_user userId false)
                 (map_to_list (db_categories w)))) =
  length (user_categories userId w).
Proof.
  intros Hact. rewrite length_fmap, orderByCreatedAt_asc_perm, active_matches by assumption.
  reflexivity.
Qed.

Lemma ensure_resume_nonempty (userId : string) (existing : list Category.t) (w : World) :
  length existing ≠ 0 →
  ensure_resume userId (Ok existing) w = (Ok existing, w).
Proof.
  intros Hne. unfold ensure_resume, CategoryService.ensure_after_read, try_catch.
  destruct (Nat.eqb_spec (length existing) 0) as [Heq|_]; [contradiction|reflexivity].
Qed.

Lemma ensure_resume_empty (userId : string) (w : World) :
  ensure_resume userId (Ok []) w =
  try_catch (CategoryService.createDefaultCategories userId)
    (λ _, throw (Error "Failed to ensure user has categories")) w.
Proof. reflexivity. Qed.

(** Creating the defaults for a user who has no category document leaves
    the user with at most one set, all active. *)
Lemma createDefaultCategories_seeds (userId : string) (w : World) :
  user_categories userId w = [] →
  ∃ (r : result (list Category.t)) (ids : list string) (w' : World),
    CategoryService.createDefaultCategories userId w = (r, w') ∧
    length ids ≤ 8 ∧
    user_categories userId w' ≡ₚ
      zip ids (CategoryService.default_doc userId (serverTime w) <$>
                 CategoryService.defaultCategories) ∧
    (calm w →
       r = Ok (zip_with (CategoryService.default_record userId (clientTime w)) ids
                 CategoryService.defaultCategories) ∧
       length ids = 8 ∧ calm w').
Proof.
  intros Hnone.
  destruct (createDefaultCategories_run userId w)
    as (r & ids & w' & Hrun & Hlen & _ & _ & _ & Hperm & Hcalm).
  exists r, ids, w'. split; [exact Hrun|]. split; [exact Hlen|]. split; [|exact Hcalm].
  unfold user_categories at 1. rewrite Hperm, filter_app.
  fold (user_categories userId w). rewrite Hnone, app_nil_r.
  rewrite filter_all; [reflexivity|].
  eapply Forall_impl; [apply default_docs_owned|]. intros doc [Hu _]. exact Hu.
Qed.

Lemma seeded_of_perm (userId : string) (now : nat) (ids : list string) (w : World) :
  length ids ≤ 8 →
  user_categories userId w ≡ₚ
    zip ids (CategoryService.default_doc userId now <$> CategoryService.defaultCategories) →
  seeded_at_most_once userId w.
Proof.
  intros Hlen Hperm. unfold seeded_at_most_once. rewrite Hperm. split.
  - rewrite length_zip. lia.
  - eapply Forall_impl; [apply default_docs_owned|]. intros doc [_ Ha]. exact Ha.
Qed.

(** Whatever the store does, an invocation keeps a user with at most one
    set of defaults within one set of defaults. *)
Lemma ensure_keeps_seeded (userId : string) (w w' : World)
    (r : result (list Category.t)) :
  seeded_at_most_once userId w →
  CategoryService.ensureUserHasCategories userId w = (r, w') →
  seeded_at_most_once userId w'.
Proof.
  intros [Hlen Hact]. rewrite ensure_split. unfold mbind, M_bind, settle.
  rewrite getUserCategories_run.
  destruct (head (faults w)) as [[e|]|].
  - unfold ensure_resume, try_catch, throw. intros [= _ <-]. split; assumption.
  - pose proof (listed_length userId w Hact) as Hl.
    destruct (decide (length (user_categories userId w) = 0)) as [Hz|Hz].
    + apply nil_length_inv in Hz.
      rewrite active_matches by assumption. rewrite Hz.
      rewrite orderByCreatedAt_asc_nil. simpl.
      rewrite ensure_resume_empty. unfold try_catch.
      destruct (createDefaultCategories_seeds userId (pop w) Hz)
        as (r1 & ids & w1 & Hrun & Hle & Hperm & _).
      rewrite Hrun. destruct r1; intros [= _ <-]; eapply seeded_of_perm; eassumption.
    + rewrite ensure_resume_nonempty by (rewrite Hl; exact Hz).
      intros [= _ <-]. split; assumption.
  - pose proof (listed_length userId w Hact) as Hl.
    destruct (decide (length (user_categories userId w) = 0)) as [Hz|Hz].
    + apply nil_length_inv in Hz.
      rewrite active_matches by assumption. rewrite Hz.
      rewrite orderByCreatedAt_asc_nil. simpl.
      rewrite ensure_resume_empty. unfold try_catch.
      destruct (createDefaultCategories_seeds userId (pop w) Hz)
        as (r1 & ids & w1 & Hrun & Hle & Hperm & _).
      rewrite Hrun. destruct r1; intros [= _ <-]; eapply seeded_of_perm; eassumption.
    + rewrite ensure_resume_nonempty by (rewrite Hl; exact Hz).
      intros [= _ <-]. split; assumption.
Qed.

End EnsureDefaults.

Section EnsureDefaultsClaims.
Context `{Platform}.

Lemma getUserCategories_ok (userId : string) (inc : bool) (w : World) :
  next_call_ok w →
  CategoryService.getUserCategories userId inc w =
    (Ok (CategoryService.convertToCategory <$>
           orderByCreatedAt_asc
             (filter (CategoryService.matches_user userId inc)
                (map_to_list (db_categories w)))), pop w).
Proof.
  intros Hok. rewrite getUserCategories_run.
  pose proof (next_call_ok_head w Hok) as Hh.
  destruct (head (faults w)) as [[e|]|]; [exfalso; eapply Hh; reflexivity | reflexivity..].
Qed.

(** The read of a user without category documents returns the empty list. *)
Lemma getUserCategories_none (userId : string) (w : World) :
  next_call_ok w →
  user_categories userId w = [] →
  CategoryService.getUserCategories userId false w = (Ok [], pop w).
Proof.
  intros Hok Hnone. rewrite getUserCategories_ok by assumption.
  rewrite active_matches by (rewrite Hnone; constructor).
  rewrite Hnone, orderByCreatedAt_asc_nil. reflexivity.
Qed.

(** The read of a user with one set of defaults returns its eight records. *)
Lemma getUserCategories_seeded (userId : string) (now : nat) (ids : list string)
    (w : World) :
  next_call_ok w →
  length ids = 8 →
  user_categories userId w ≡ₚ
    zip ids (CategoryService.default_doc userId now <$> CategoryService.defaultCategories) →
  ∃ existing : list Category.t,
    CategoryService.getUserCategories userId false w = (Ok existing, pop w) ∧
    length existing = 8 ∧
    Category.id <$> existing ≡ₚ ids.
Proof.
  intros Hok Hlen Hperm. rewrite getUserCategories_ok by assumption.
  eexists. split; [reflexivity|].
  assert (Hact : Forall (λ doc : string * FirestoreCategory.t,
                           FirestoreCategory.isActive doc.2 = Js.Bool true)
                   (user_categories userId w)).
  { rewrite Hperm. eapply Forall_impl; [apply default_docs_owned|].
    intros doc [_ Ha]. exact Ha. }
  split.
  - rewrite listed_length by assumption. rewrite Hperm, length_zip, Hlen. reflexivity.
  - rewrite <- list_fmap_compose.
    change (Category.id ∘ CategoryService.convertToCategory) with
      (fst : string * FirestoreCategory.t → string).
    rewrite orderByCreatedAt_asc_perm, active_matches by assumption.
    rewrite Hperm. rewrite fst_zip; [reflexivity|].
    rewrite length_fmap, Hlen. reflexivity.
Qed.

Lemma default_records_shape (userId : string) (today : nat) (ids : list string) :
  length ids = 8 →
  let cats := zip_with (CategoryService.default_record userId today) ids
                CategoryService.defaultCategories in
  length cats = 8 ∧
  Category.id <$> cats = ids ∧
  Category.name <$> cats = CategoryService.name <$> CategoryService.defaultCategories ∧
  Forall (is_default_record userId) cats.
Proof.
  intros Hlen.
  do 9 (destruct ids as [|? ids]; try discriminate Hlen).
  simpl. repeat split; repeat constructor.
Qed.

(** The run of one invocation for a user without category documents. *)
Lemma first_ensure_run (w : World) (userId : string) :
  calm w →
  user_categories userId w = [] →
  ∃ (ids : list string) (w' : World),
    CategoryService.ensureUserHasCategories userId w =
      (Ok (zip_with (CategoryService.default_record userId (clientTime (pop w))) ids
             CategoryService.defaultCategories), w') ∧
    length ids = 8 ∧
    user_categories userId w' ≡ₚ
      zip ids (CategoryService.default_doc userId (serverTime w) <$>
                 CategoryService.defaultCategories) ∧
    calm w'.
Proof.
  intros Hcalm Hnone.
  rewrite ensure_split. unfold mbind, M_bind, settle.
  rewrite getUserCategories_none by (try apply calm_next_call_ok; assumption).
  rewrite ensure_resume_empty. unfold try_catch.
  destruct (createDefaultCategories_seeds userId (pop w) Hnone)
    as (r & ids & w' & Hrun & _ & Hperm & Hok).
  destruct (Hok (calm_pop w Hcalm)) as (-> & Hlen & Hcalm').
  rewrite Hrun. exists ids, w'. repeat split; assumption.
Qed.

(** C6.  For a user without any category document and a store that does not
    fail, one invocation of [ensureUserHasCategories] returns eight records:
    the categories of the default set in its order, with their colours and
    icons, each owned by the user, marked default and active and with
    expense count [0].  Afterwards the user's documents in the store are
    exactly eight, one per returned identifier, the identifiers all
    different: the documents of the default set, each stored as default and
    active with count [0]; no other category document and no expense has
    changed. *)
Theorem ensure_creates_one_default_set (w : World) (userId : string) :
  calm w →
  user_categories userId w = [] →
  ∃ (cats : list Category.t) (w' : World),
    CategoryService.ensureUserHasCategories userId w = (Ok cats, w') ∧
    length cats = 8 ∧
    Category.name <$> cats = CategoryService.name <$> CategoryService.defaultCategories ∧
    Category.name <$> cats =
      [ "Food & Dining"; "Transportation"; "Shopping"; "Entertainment";
        "Bills & Utilities"; "Healthcare"; "Education"; "Travel" ] ∧
    Forall (is_default_record userId) cats ∧
    cats =
      zip_with
        (λ (id : string) (entry : string * string * string),
           Category.mk id userId entry.1.1 (Some entry.1.2) (Some entry.2)
             (toISOString (clientTime w)) (Js.Bool true) true (Js.Num 0))
        (Category.id <$> cats) default_set ∧
    NoDup (Category.id <$> cats) ∧
    user_categories userId w' ≡ₚ
      zip (Category.id <$> cats)
        (CategoryService.default_doc userId (serverTime w) <$>
           CategoryService.defaultCategories) ∧
    user_categories userId w' ≡ₚ
      zip (Category.id <$> cats) (default_documents userId (serverTime w)) ∧
    length (user_categories userId w') = 8 ∧
    map_to_list (db_categories w') ≡ₚ
      zip (Category.id <$> cats) (default_documents userId (serverTime w)) ++
      map_to_list (db_categories w) ∧
    db_expenses w' = db_expenses w.
Proof.
  intros Hcalm Hnone.
  rewrite ensure_split. unfold mbind, M_bind, settle.
  rewrite getUserCategories_none by (try apply calm_next_call_ok; assumption).
  rewrite ensure_resume_empty. unfold try_catch.
  destruct (createDefaultCategories_run userId (pop w))
    as (r & ids & w' & Hrun & _ & _ & _ & Hex & Hperm & Hok).
  destruct (Hok (calm_pop w Hcalm)) as (-> & Hlen & _).
  rewrite Hrun.
  change (serverTime (pop w)) with (serverTime w) in Hperm.
  change (db_categories (pop w)) with (db_categories w) in Hperm.
  change (clientTime (pop w)) with (clientTime w).
  destruct (default_records_shape userId (clientTime w) ids Hlen)
    as (Hl & Hids & Hnames & Hflags).
  assert (Hdocs : CategoryService.default_doc userId (serverTime w) <$>
                    CategoryService.defaultCategories =
                  default_documents userId (serverTime w)) by reflexivity.
  assert (Huser : user_categories userId w' ≡ₚ
                    zip ids (default_documents userId (serverTime w))).
  { unfold user_categories. rewrite Hperm, filter_app.
    change (filter _ (map_to_list (db_categories w))) with (user_categories userId w).
    rewrite Hnone, app_nil_r, <- Hdocs.
    rewrite filter_all; [reflexivity|].
    eapply Forall_impl; [apply default_docs_owned|]. intros doc [Hu _]. exact Hu. }
  assert (Hnd : NoDup ids).
  { assert (Hkeys : NoDup (user_categories userId w').*1).
    { eapply sublist_NoDup; [|apply fmap_sublist, sublist_filter].
      apply NoDup_fst_map_to_list. }
    rewrite Huser, fst_zip in Hkeys; [exact Hkeys|].
    unfold default_documents. rewrite length_fmap, Hlen. simpl. lia. }
  eexists _, w'. split; [reflexivity|].
  split; [exact Hl|]. split; [exact Hnames|].
  split; [rewrite Hnames; reflexivity|]. split; [exact Hflags|].
  rewrite Hids.
  split; [do 9 (destruct ids as [|? ids]; try discriminate Hlen); reflexivity|].
  split; [exact Hnd|].
  split; [rewrite Hdocs; exact Huser|]. split; [exact Huser|].
  split; [rewrite Huser, length_zip, Hlen; reflexivity|].
  split; [rewrite <- Hdocs; exact Hperm | exact Hex].
Qed.

(** Two invocations one after the other, each awaited to its end, leave one
    set of eight defaults: the second reads the records the first created
    and creates nothing. *)
Lemma ensure_twice_sequential (w : World) (userId : string) :
  calm w →
  user_categories userId w = [] →
  ∃ (first second : list Category.t) (w' : World),
    ensure_twice userId w = (Ok (Ok first, Ok second), w') ∧
    length first = 8 ∧
    Category.id <$> second ≡ₚ Category.id <$> first ∧
    length (user_categories userId w') = 8.
Proof.
  intros Hcalm Hnone.
  destruct (first_ensure_run w userId Hcalm Hnone)
    as (ids & w1 & Hrun1 & Hlen & Hperm1 & Hcalm1).
  destruct (getUserCategories_seeded userId (serverTime w) ids w1
              (calm_next_call_ok w1 Hcalm1) Hlen Hperm1)
    as (existing & Hread & Hl2 & Hids2).
  unfold ensure_twice, mbind, M_bind, settle, mret, M_ret.
  rewrite Hrun1. rewrite ensure_split. unfold mbind, M_bind, settle.
  rewrite Hread. rewrite ensure_resume_nonempty by (rewrite Hl2; discriminate).
  destruct (default_records_shape userId (clientTime (pop w)) ids Hlen)
    as (Hl & Hids & _ & _).
  eexists _, _, _. split; [reflexivity|].
  split; [exact Hl|]. split; [rewrite Hids; exact Hids2|].
  rewrite user_categories_pop, Hperm1, length_zip, Hlen. reflexivity.
Qed.


End EnsureDefaultsClaims.

(** Whatever the store holds for other users and however it behaves, two
    invocations one after the other, each awaited to its end, never leave a
    user who had no category document with sixteen: the second set needs
    invocations that overlap. *)
Lemma ensure_twice_never_two_sets :
  ¬ ∃ (P : Platform) (w : World) (userId : string)
      (r : result (result (list Category.t) * result (list Category.t)))
      (w' : World),
      user_categories userId w = [] ∧
      @ensure_twice P userId w = (r, w') ∧
      length (user_categories userId w') = 16.
Proof.
  intros (P & w & userId & r & w' & Hnone & Hrun & Hlen).
  assert (Hseed : seeded_at_most_once userId w).
  { unfold seeded_at_most_once. rewrite Hnone. split; [simpl; lia | constructor]. }
  unfold ensure_twice, mbind, M_bind, settle, mret, M_ret in Hrun.
  destruct (CategoryService.ensureUserHasCategories userId w) as [r1 w1] eqn:H1.
  destruct (CategoryService.ensureUserHasCategories userId w1) as [r2 w2] eqn:H2.
  injection Hrun as _ <-.
  apply (ensure_keeps_seeded userId w w1 r1 Hseed) in H1.
  apply (ensure_keeps_seeded userId w1 w2 r2 H1) in H2.
  destruct H2 as [Hle _]. lia.
Qed.

(** ** Deleting a category *)

Section CategoryDeletion.
Context `{Platform}.

Lemma deleteCategory_run (categoryId : string) (w : World) :
  CategoryService.deleteCategory categoryId w =
    match head (faults w) with
    | Some (Some _) => (Throw (Error "Failed to delete category"), pop w)
    | _ =>
        match db_categories w !! categoryId with
        | None => (Throw (Error "Failed to delete category"), pop w)
        | Some _ =>
            (Ok tt,
             set_db_categories
               (alter (FirestoreCategory.set_isActive (Js.Bool false)) categoryId)
               (pop w))
        end
    end.
Proof.
  unfold CategoryService.deleteCategory, CategoryService.updateDoc_categories_isActive.
  unfold_M. rewrite storeCall_spec.
  destruct (head (faults w)) as [[e|]|]; [reflexivity| |];
    simpl; destruct (db_categories w !! categoryId); reflexivity.
Qed.

(** What a successful soft delete leaves in the collection. *)
Lemma deleteCategory_ok (categoryId : string) (w : World) :
  next_call_ok w →
  is_Some (db_categories w !! categoryId) →
  CategoryService.deleteCategory categoryId w =
    (Ok tt,
     set_db_categories
       (alter (FirestoreCategory.set_isActive (Js.Bool false)) categoryId) (pop w)).
Proof.
  intros Hok [data Hdata]. rewrite deleteCategory_run, Hdata.
  pose proof (next_call_ok_head w Hok) as Hh.
  destruct (head (faults w)) as [[e|]|]; [exfalso; eapply Hh; reflexivity | reflexivity..].
Qed.

(** C5.  When no expense of the component's collection carries the name of
    a category of the component's list, [handleDeleteCategory] for a
    signed-in user completes without opening the confirmation dialog
    ([showDeleteConfirm] and [replacementCategory] keep their values) and
    without touching the expense collection of the store; and when the
    store does not fail and holds the category's document, that document has
    [isActive] set to [false] and nothing else in the collection changes. *)
Theorem delete_unused_category_direct (props : CategoryManagement.Props)
    (st : CategoryManagement.State) (w : World) (user : User.t)
    (categoryToDelete : string) (categoryToDeleteObj : Category.t) :
  CategoryManagement.currentUser props = Some user →
  CategoryManagement.find_category st categoryToDelete = Some categoryToDeleteObj →
  CategoryManagement.getCategoryUsageCount props categoryToDelete = 0 →
  ∃ (st' : CategoryManagement.State) (w' : World),
    CategoryManagement.handleDeleteCategory props categoryToDelete st w = (Ok st', w') ∧
    CategoryManagement.showDeleteConfirm st' = CategoryManagement.showDeleteConfirm st ∧
    CategoryManagement.replacementCategory st' = CategoryManagement.replacementCategory st ∧
    db_expenses w' = db_expenses w ∧
    (calm w →
     ∀ data, db_categories w !! Category.id categoryToDeleteObj = Some data →
       db_categories w' =
         <[Category.id categoryToDeleteObj :=
             FirestoreCategory.set_isActive (Js.Bool false) data]> (db_categories w) ∧
       CategoryManagement.categories st' =
         CategoryService.snapshot_userCategories (User.id user) w').
Proof.
  intros Huser Hfind Husage.
  unfold CategoryManagement.handleDeleteCategory.
  rewrite Huser, Hfind, Husage. simpl.
  unfold try_catch, mbind, M_bind. rewrite deleteCategory_run.
  set (id := Category.id categoryToDeleteObj).
  assert (Hcase : (∃ e, head (faults w) = Some (Some e)) ∨
                  (next_call_ok w ∧ ∀ e, head (faults w) ≠ Some (Some e))).
  { unfold next_call_ok. destruct (faults w) as [|[e|] fs]; simpl;
      [right; split; [exact I | discriminate] | left; eauto
      | right; split; [exact I | discriminate]]. }
  destruct Hcase as [[e He]|[Hok Hne]].
  { rewrite He. exists st, (pop w). split; [reflexivity|]. do 3 (split; [reflexivity|]).
    intros Hcalm. exfalso.
    eapply next_call_ok_head; [apply calm_next_call_ok|]; eassumption. }
  assert (Hrun : ∀ X (a b : X),
             match head (faults w) with Some (Some _) => a | _ => b end = b).
  { intros X a b. destruct (head (faults w)) as [[e|]|];
      [exfalso; eapply Hne; reflexivity | reflexivity..]. }
  rewrite Hrun.
  destruct (db_categories w !! id) as [data|] eqn:Hdata.
  - set (w1 := set_db_categories _ (pop w)).
    rewrite getUserCategories_run.
    destruct (head (faults w1)) as [[e|]|] eqn:Hh1.
    + exists st, (pop w1). split; [reflexivity|]. do 3 (split; [reflexivity|]).
      intros Hcalm. exfalso.
      eapply (next_call_ok_head w1); [apply calm_next_call_ok, calm_pop; eassumption|].
      exact Hh1.
    + eexists _, (pop w1). split; [reflexivity|]. do 3 (split; [reflexivity|]).
      intros Hcalm data' [= <-]. split; [|reflexivity]. subst w1; simpl.
      apply map_eq. intros k. rewrite lookup_alter, lookup_insert.
      destruct (decide (id = k)) as [<-|Hk]; [rewrite Hdata|]; reflexivity.
    + eexists _, (pop w1). split; [reflexivity|]. do 3 (split; [reflexivity|]).
      intros Hcalm data' [= <-]. split; [|reflexivity]. subst w1; simpl.
      apply map_eq. intros k. rewrite lookup_alter, lookup_insert.
      destruct (decide (id = k)) as [<-|Hk]; [rewrite Hdata|]; reflexivity.
  - exists st, (pop w). split; [reflexivity|]. do 3 (split; [reflexivity|]).
    intros Hcalm data' [=].
Qed.

End CategoryDeletion.

(** ** Confirming the deletion of a category in use *)

Lemma filter_fmap_comm {A B} (f : A → B) (P : B → Prop) `{!∀ y, Decision (P y)}
    (l : list A) :
  filter P (f <$> l) = f <$> filter (λ x, P (f x)) l.
Proof.
  induction l as [|x l IH]; [reflexivity|].
  rewrite fmap_cons, !filter_cons. destruct (decide (P (f x))); simpl; rewrite IH; reflexivity.
Qed.

Section Reassignment.
Context `{Platform}.

Lemma updateExpense_run (expenseId : string) (p : ExpensePatch.t) (w : World) :
  ExpenseService.updateExpense expenseId p w =
    match head (faults w) with
    | Some (Some _) => (Throw (Error "Failed to update expense"), pop w)
    | _ =>
        match db_expenses w !! expenseId with
        | None => (Throw (Error "Failed to update expense"), pop w)
        | Some _ =>
            (Ok tt,
             set_db_expenses
               (alter (ExpensePatch.apply p (Timestamp (serverTime w))) expenseId)
               (pop w))
        end
    end.
Proof.
  unfold ExpenseService.updateExpense, ExpenseService.updateDoc_expenses.
  unfold_M. rewrite storeCall_spec.
  destruct (head (faults w)) as [[e|]|]; [reflexivity| |];
    simpl; destruct (db_expenses w !! expenseId); reflexivity.
Qed.

Lemma updateExpense_ok (expenseId : string) (p : ExpensePatch.t) (w : World) :
  next_call_ok w →
  is_Some (db_expenses w !! expenseId) →
  ExpenseService.updateExpense expenseId p w =
    (Ok tt,
     set_db_expenses
       (alter (ExpensePatch.apply p (Timestamp (serverTime w))) expenseId) (pop w)).
Proof.
  intros Hok [data Hdata]. rewrite updateExpense_run, Hdata.
  pose proof (next_call_ok_head w Hok) as Hh.
  destruct (head (faults w)) as [[e|]|]; [exfalso; eapply Hh; reflexivity | reflexivity..].
Qed.

(** Altering one document changes the count of a class of documents by
    what that document leaves and what it joins. *)
Lemma count_alter {A} (P : string * A → Prop) `{!∀ x, Decision (P x)}
    (f : A → A) (k : string) (d : A) (m : gmap string A) :
  m !! k = Some d →
  length (filter P (map_to_list (alter f k m))) + (if decide (P (k, d)) then 1 else 0) =
  length (filter P (map_to_list m)) + (if decide (P (k, f d)) then 1 else 0).
Proof.
  intros Hk.
  assert (Ha : alter f k m !! k = Some (f d)) by (rewrite lookup_alter_eq, Hk; reflexivity).
  rewrite <- (map_to_list_delete _ _ _ Ha), <- (map_to_list_delete _ _ _ Hk).
  rewrite delete_alter_eq, !filter_cons.
  destruct (decide (P (k, d))), (decide (P (k, f d))); simpl; lia.
Qed.

(** The loop over the expenses to reassign: every one of them is a document
    of the user under the old name, no two share an identifier, and the
    store does not fail.  Each turn moves one document from the old name to
    the new one. *)
Lemma reassign_loop_run (userId c r : string) (l : list Expense.t) :
  r ≠ c →
  ∀ w : World,
    calm w →
    NoDup (Expense.id <$> l) →
    (∀ e, e ∈ l →
       ∃ d, db_expenses w !! Expense.id e = Some d ∧
            FirestoreExpense.userId d = userId ∧ FirestoreExpense.category d = c) →
    ∃ w' : World,
      for_of l (λ expense,
        ExpenseService.updateExpense (Expense.id expense) (reassign_patch r expense)) w =
        (Ok tt, w') ∧
      calm w' ∧
      db_categories w' = db_categories w ∧
      count_category userId c w' + length l = count_category userId c w ∧
      count_category userId r w' = count_category userId r w + length l ∧
      (∀ c', c' ≠ c → c' ≠ r →
         count_category userId c' w' = count_category userId c' w) ∧
      (∀ u c', u ≠ userId → count_category u c' w' = count_category u c' w).
Proof.
  intros Hrc. induction l as [|e l IH]; intros w Hcalm Hnd Hdocs.
  - exists w. simpl. repeat split; auto; lia.
  - apply NoDup_cons in Hnd as [Hnotin Hnd].
    destruct (Hdocs e) as (d & Hd & Hu & Hc); [left|].
    simpl. unfold mbind, M_bind.
    rewrite updateExpense_ok by (try apply calm_next_call_ok; eauto).
    set (g := ExpensePatch.apply (reassign_patch r e) (Timestamp (serverTime w))).
    set (w1 := set_db_expenses (alter g (Expense.id e)) (pop w)).
    destruct (IH w1) as (w' & Hrun & Hcalm' & Hcat & HcC & HcR & Hother & Husers).
    { apply calm_pop. assumption. }
    { assumption. }
    { intros e' He'. destruct (Hdocs e') as (d' & Hd' & Hu' & Hc'); [right; assumption|].
      exists d'. split; [|split; assumption].
      subst w1. simpl. rewrite lookup_alter_ne; [assumption|].
      intros Heq. apply Hnotin. rewrite Heq. apply list_elem_of_fmap. eauto. }
    exists w'. split; [exact Hrun|]. split; [exact Hcalm'|]. split; [exact Hcat|].
    assert (Hcount : ∀ u c',
              count_category u c' w1 +
                (if decide (userId = u ∧ c = c') then 1 else 0) =
              count_category u c' w +
                (if decide (userId = u ∧ r = c') then 1 else 0)).
    { intros u c'. unfold count_category. subst w1. simpl.
      pose proof (count_alter
        (λ doc : string * FirestoreExpense.t,
           FirestoreExpense.userId doc.2 = u ∧ FirestoreExpense.category doc.2 = c')
        g (Expense.id e) d (db_expenses w) Hd) as Hca.
      simpl in Hca. rewrite Hu, Hc in Hca.
      destruct (decide (userId = u ∧ c = c')), (decide (userId = u ∧ r = c'));
        destruct (decide (userId = u ∧ c = c')), (decide (userId = u ∧ r = c'));
        try tauto; lia. }
    split; [|split; [|split]].
    + pose proof (Hcount userId c) as Hk.
      rewrite decide_True in Hk by auto.
      rewrite decide_False in Hk by (intros [_ ?]; contradiction).
      simpl. lia.
    + pose proof (Hcount userId r) as Hk.
      rewrite decide_False in Hk by (intros [_ ?]; congruence).
      rewrite decide_True in Hk by auto.
      simpl. lia.
    + intros c' Hc1 Hc2. rewrite Hother by assumption.
      pose proof (Hcount userId c') as Hk.
      rewrite !decide_False in Hk by (intros [_ ?]; congruence). lia.
    + intros u c' Hne. rewrite Husers by assumption.
      pose proof (Hcount u c') as Hk.
      rewrite !decide_False in Hk by (intros [? _]; congruence). lia.
Qed.

(** The expenses of the snapshot under a name are the user's documents
    under that name: as many, with distinct identifiers. *)
Lemma snapshot_under_name (userId c : string) (w : World) :
  let l := filter (λ expense, Expense.category expense = c)
             (ExpenseService.snapshot_userExpenses userId w) in
  NoDup (Expense.id <$> l) ∧
  (∀ e, e ∈ l →
     ∃ d, db_expenses w !! Expense.id e = Some d ∧
          FirestoreExpense.userId d = userId ∧ FirestoreExpense.category d = c) ∧
  length l = count_category userId c w.
Proof.
  unfold ExpenseService.snapshot_userExpenses, ExpenseService.query_userExpenses.
  set (docs := filter _ (map_to_list (db_expenses w))).
  simpl. rewrite filter_fmap_comm.
  set (Q := λ x : string * FirestoreExpense.t,
              Expense.category (ExpenseService.convertToExpense x) = c).
  split; [|split].
  - rewrite <- list_fmap_compose.
    change (Expense.id ∘ ExpenseService.convertToExpense) with
      (fst : string * FirestoreExpense.t → string).
    eapply sublist_NoDup; [|apply fmap_sublist, sublist_filter].
    rewrite orderByCreatedAt_desc_perm. subst docs.
    eapply sublist_NoDup; [|apply fmap_sublist, sublist_filter].
    apply NoDup_fst_map_to_list.
  - intros e He. apply list_elem_of_fmap in He as ([k d] & -> & Hin).
    apply list_elem_of_filter in Hin as [Hq Hin].
    rewrite orderByCreatedAt_desc_perm in Hin. subst docs.
    apply list_elem_of_filter in Hin as [Hu Hin].
    apply elem_of_map_to_list in Hin.
    exists d. auto.
  - rewrite length_fmap, orderByCreatedAt_desc_perm. subst docs.
    rewrite list_filter_filter. unfold count_category. f_equal.
    apply list_filter_iff. intros [k d]. subst Q. simpl. tauto.
Qed.

Lemma count_category_expenses (userId c : string) (w w' : World) :
  db_expenses w' = db_expenses w →
  count_category userId c w' = count_category userId c w.
Proof. unfold count_category. intros ->. reflexivity. Qed.

(** Each expense of the snapshot is the record of the document under its
    identifier. *)
Lemma snapshot_docs (userId : string) (w : World) (e : Expense.t) :
  e ∈ ExpenseService.snapshot_userExpenses userId w →
  ∃ d, db_expenses w !! Expense.id e = Some d ∧
       e = ExpenseService.convertToExpense (Expense.id e, d).
Proof.
  unfold ExpenseService.snapshot_userExpenses, ExpenseService.query_userExpenses.
  intros He. apply list_elem_of_fmap in He as ([k d] & -> & Hin).
  rewrite orderByCreatedAt_desc_perm in Hin.
  apply list_elem_of_filter in Hin as [_ Hin].
  apply elem_of_map_to_list in Hin. exists d. split; [exact Hin | reflexivity].
Qed.

(** Every document of the user under a name is in the list shown for that
    name. *)
Lemma snapshot_under_name_complete (userId c : string) (w : World) (k : string)
    (d : FirestoreExpense.t) :
  db_expenses w !! k = Some d →
  FirestoreExpense.userId d = userId →
  FirestoreExpense.category d = c →
  k ∈ Expense.id <$>
        filter (λ expense, Expense.category expense = c)
          (ExpenseService.snapshot_userExpenses userId w).
Proof.
  intros Hk Hu Hc. apply list_elem_of_fmap.
  exists (ExpenseService.convertToExpense (k, d)). split; [reflexivity|].
  apply list_elem_of_filter. split; [exact Hc|].
  unfold ExpenseService.snapshot_userExpenses, ExpenseService.query_userExpenses.
  apply list_elem_of_fmap. exists (k, d). split; [reflexivity|].
  rewrite orderByCreatedAt_desc_perm. apply list_elem_of_filter.
  split; [exact Hu|]. apply elem_of_map_to_list. exact Hk.
Qed.

(** The reassignment loop document by document: the documents with the
    identifiers of the list are rewritten, each keeping everything but its
    category, and the others stay as they are. *)
Lemma reassign_loop_docs (r : string) (l : list Expense.t) :
  ∀ w w' : World,
    calm w →
    NoDup (Expense.id <$> l) →
    (∀ e, e ∈ l →
       ∃ d, db_expenses w !! Expense.id e = Some d ∧
            e = ExpenseService.convertToExpense (Expense.id e, d)) →
    for_of l (λ expense,
      ExpenseService.updateExpense (Expense.id expense) (reassign_patch r expense)) w =
      (Ok tt, w') →
    ∀ k, db_expenses w' !! k =
         match db_expenses w !! k with
         | Some d =>
             if decide (k ∈ Expense.id <$> l)
             then Some (reassigned r (serverTime w) k d)
             else Some d
         | None => None
         end.
Proof.
  induction l as [|e l IH]; intros w w' Hcalm Hnd Hdocs Hrun k.
  - injection Hrun as <-. destruct (db_expenses w !! k); [|reflexivity].
    rewrite decide_False by (simpl; apply not_elem_of_nil). reflexivity.
  - apply NoDup_cons in Hnd as [Hnotin Hnd].
    destruct (Hdocs e) as (d & Hd & He); [left|].
    simpl in Hrun. unfold mbind, M_bind in Hrun.
    rewrite updateExpense_ok in Hrun by (try apply calm_next_call_ok; eauto).
    set (g := ExpensePatch.apply (reassign_patch r e) (Timestamp (serverTime w))) in Hrun.
    set (w1 := set_db_expenses (alter g (Expense.id e)) (pop w)) in Hrun.
    assert (Hdocs1 : ∀ e', e' ∈ l →
              ∃ d', db_expenses w1 !! Expense.id e' = Some d' ∧
                    e' = ExpenseService.convertToExpense (Expense.id e', d')).
    { intros e' He'. destruct (Hdocs e') as (d' & Hd' & Heq); [right; assumption|].
      exists d'. split; [|exact Heq].
      subst w1. simpl. rewrite lookup_alter_ne; [assumption|].
      intros Heq'. apply Hnotin. rewrite Heq'. apply list_elem_of_fmap. eauto. }
    rewrite (IH w1 w' (calm_pop w Hcalm) Hnd Hdocs1 Hrun k).
    change (serverTime w1) with (serverTime w).
    subst w1. simpl db_expenses. rewrite fmap_cons.
    destruct (decide (k = Expense.id e)) as [->|Hne].
    + rewrite lookup_alter_eq, Hd. simpl.
      rewrite decide_False by exact Hnotin.
      rewrite (decide_True (P := _ ∈ _ :: _)) by left.
      f_equal. subst g. rewrite He at 1. reflexivity.
    + rewrite lookup_alter_ne by congruence.
      destruct (db_expenses w !! k) as [dk|]; [|reflexivity].
      destruct (decide (k ∈ Expense.id <$> l)) as [Hin|Hnin].
      * rewrite decide_True by (right; exact Hin). reflexivity.
      * rewrite decide_False; [reflexivity|].
        intros Hin. apply elem_of_cons in Hin as [?|?]; contradiction.
Qed.

(** C1, amended.  With a signed-in user, the component's expense collection
    being the store's for that user (in any order), a confirmation pending
    for category [c] of the component's list, a replacement [r] chosen (not
    empty and not [c]) and a store that does not fail:
    [confirmDeleteCategory] rewrites to [r] each of the [N] expenses under
    [c], leaving none under [c] and [N] more under [r] than there were,
    touches no other name and no other user, and then sets [isActive] of the
    category's document to [false].  Document by document: each of the
    user's expense documents under [c] is afterwards the same expense under
    [r] (owner, amount, description and date kept), and every other expense
    document is exactly what it was. *)
Theorem confirm_delete_reassigns (props : CategoryManagement.Props)
    (st : CategoryManagement.State) (w : World) (user : User.t)
    (categoryToDeleteObj : Category.t) (c r : string) :
  calm w →
  CategoryManagement.currentUser props = Some user →
  CategoryManagement.expenses props ≡ₚ
    ExpenseService.snapshot_userExpenses (User.id user) w →
  CategoryManagement.showDeleteConfirm st = Some c →
  c ≠ EmptyString →
  CategoryManagement.replacementCategory st = r →
  r ≠ EmptyString →
  r ≠ c →
  CategoryManagement.find_category st c = Some categoryToDeleteObj →
  is_Some (db_categories w !! Category.id categoryToDeleteObj) →
  ∃ (st' : CategoryManagement.State) (w' : World),
    CategoryManagement.confirmDeleteCategory props st w = (Ok st', w') ∧
    CategoryManagement.getCategoryUsageCount props c =
      count_category (User.id user) c w ∧
    count_category (User.id user) c w' = 0 ∧
    count_category (User.id user) r w' =
      count_category (User.id user) r w + count_category (User.id user) c w ∧
    (∀ c', c' ≠ c → c' ≠ r →
       count_category (User.id user) c' w' = count_category (User.id user) c' w) ∧
    (∀ u c', u ≠ User.id user → count_category u c' w' = count_category u c' w) ∧
    db_categories w' =
      alter (FirestoreCategory.set_isActive (Js.Bool false))
        (Category.id categoryToDeleteObj) (db_categories w) ∧
    CategoryManagement.showDeleteConfirm st' = None ∧
    CategoryManagement.replacementCategory st' = EmptyString ∧
    (∀ k, db_expenses w' !! k =
          match db_expenses w !! k with
          | Some d =>
              if decide (FirestoreExpense.userId d = User.id user ∧
                         FirestoreExpense.category d = c)
              then Some (reassigned r (serverTime w) k d)
              else Some d
          | None => None
          end).
Proof.
  intros Hcalm Huser Hexp Hshow Hc Hrepl Hr Hrc Hfind Hdoc.
  unfold CategoryManagement.confirmDeleteCategory.
  rewrite Hshow, Huser.
  destruct c as [|ch cs]; [contradiction|].
  rewrite Hfind, Hrepl.
  destruct r as [|rh rs]; [contradiction|]. simpl Js.str_truthy. cbv iota.
  destruct (snapshot_under_name (User.id user) (String ch cs) w) as (Hnd & Hdocs & Hlen).
  set (l := filter (λ expense, Expense.category expense = String ch cs)
              (CategoryManagement.expenses props)).
  assert (Hl : l ≡ₚ filter (λ expense, Expense.category expense = String ch cs)
                     (ExpenseService.snapshot_userExpenses (User.id user) w)).
  { subst l. rewrite Hexp. reflexivity. }
  rewrite <- Hl in Hnd, Hlen.
  assert (Hdocs' : ∀ e, e ∈ l →
            ∃ d, db_expenses w !! Expense.id e = Some d ∧
                 FirestoreExpense.userId d = User.id user ∧
                 FirestoreExpense.category d = String ch cs).
  { intros e He. apply Hdocs. rewrite <- Hl. exact He. }
  destruct (reassign_loop_run (User.id user) (String ch cs) (String rh rs) l Hrc w
              Hcalm Hnd Hdocs')
    as (w1 & Hloop & Hcalm1 & Hcat1 & HcC & HcR & Hother & Husers).
  assert (Hdocs2 : ∀ e, e ∈ l →
            ∃ d, db_expenses w !! Expense.id e = Some d ∧
                 e = ExpenseService.convertToExpense (Expense.id e, d)).
  { intros e He. apply (snapshot_docs (User.id user)).
    rewrite Hl in He. apply list_elem_of_filter in He as [_ He]. exact He. }
  pose proof (reassign_loop_docs (String rh rs) l w w1 Hcalm Hnd Hdocs2 Hloop) as Hper.
  assert (Hchar : ∀ k, db_expenses w1 !! k =
            match db_expenses w !! k with
            | Some d =>
                if decide (FirestoreExpense.userId d = User.id user ∧
                           FirestoreExpense.category d = String ch cs)
                then Some (reassigned (String rh rs) (serverTime w) k d)
                else Some d
            | None => None
            end).
  { intros k. rewrite Hper. destruct (db_expenses w !! k) as [d|] eqn:Hd; [|reflexivity].
    destruct (decide (k ∈ Expense.id <$> l)) as [Hin|Hnin];
      destruct (decide (FirestoreExpense.userId d = User.id user ∧
                        FirestoreExpense.category d = String ch cs)) as [Hm|Hm];
      try reflexivity; exfalso.
    - apply list_elem_of_fmap in Hin as (e & -> & He).
      destruct (Hdocs' e He) as (d' & Hd' & Hu & Hc').
      rewrite Hd in Hd'. injection Hd' as <-. apply Hm. split; assumption.
    - apply Hnin. rewrite Hl. destruct Hm as [Hu Hc'].
      eapply snapshot_under_name_complete; eassumption. }
  unfold try_catch, mbind at 1, M_bind at 1.
  change (for_of l _ w) with
    (for_of l
       (λ expense, ExpenseService.updateExpense (Expense.id expense)
                     (reassign_patch (String rh rs) expense)) w).
  rewrite Hloop. unfold mbind, M_bind.
  rewrite deleteCategory_ok
    by (try apply calm_next_call_ok; try rewrite Hcat1; assumption).
  set (w2 := set_db_categories _ (pop w1)).
  rewrite getUserCategories_ok by (apply calm_next_call_ok, calm_pop; exact Hcalm1).
  eexists _, (pop w2). split; [reflexivity|].
  split.
  { unfold CategoryManagement.getCategoryUsageCount. exact Hlen. }
  rewrite !(count_category_expenses _ _ w1 (pop w2)) by reflexivity.
  split; [lia|]. split; [lia|].
  split.
  { intros c' H1 H2. rewrite (count_category_expenses _ _ w1 (pop w2)) by reflexivity.
    apply Hother; assumption. }
  split.
  { intros u c' Hu. rewrite (count_category_expenses _ _ w1 (pop w2)) by reflexivity.
    apply Husers; assumption. }
  split; [|split; [reflexivity | split; [reflexivity | exact Hchar]]].
  subst w2. simpl. rewrite Hcat1. reflexivity.
Qed.

End Reassignment.
(** ** Totals by category *)

Lemma enumerate_perm {A} (entries : list (string * A)) : enumerate entries ≡ₚ entries.
Proof.
  unfold enumerate. rewrite merge_sort_Permutation.
  induction entries as [|entry entries IH]; [reflexivity|].
  rewrite filter_cons. simpl omap.
  destruct (array_index entry.1) as [n|] eqn:Hidx.
  - destruct (decide _) as [Hd|_]; [discriminate Hd|].
    simpl. constructor. exact IH.
  - destruct (decide _) as [_|Hd]; [|exfalso; apply Hd; reflexivity].
    simpl. rewrite <- Permutation_middle. constructor. exact IH.
Qed.

Section TotalsObject.
Context {E num : Type}.
Variable category : E → string.
Variable amount : E → num.
Variable add : num → num → num.
Variable zero : num.
Variable truthy : num → bool.
Variable member : string → num.

Lemma obj_get_own (k : string) (acc : list (string * num)) :
  k ∉ inherited_names → obj_get member k acc = own_get k acc.
Proof.
  intros Hk. unfold obj_get. destruct (own_get k acc); [reflexivity|].
  rewrite bool_decide_eq_false_2 by exact Hk. reflexivity.
Qed.

Lemma obj_set_own (k : string) (v : num) (acc : list (string * num)) :
  k ∉ inherited_names → obj_set k v acc = own_set k v acc.
Proof.
  intros Hk. unfold obj_set. destruct (String.eqb_spec k "__proto__") as [->|_];
    [|reflexivity].
  exfalso. apply Hk. left.
Qed.

(** For names the object does not inherit, the reducer works on the
    object's own entries alone. *)
Lemma totals_own (expenses : list E) :
  own_names category expenses →
  ∀ acc : list (string * num),
    fold_left
      (λ acc expense,
         obj_set (category expense)
           (add (or_zero zero truthy (obj_get member (category expense) acc))
              (amount expense)) acc)
      expenses acc =
    fold_left
      (λ acc expense,
         own_set (category expense)
           (add (or_zero zero truthy (own_get (category expense) acc))
              (amount expense)) acc)
      expenses acc.
Proof.
  induction 1 as [|e expenses He _ IH]; intros acc; [reflexivity|].
  simpl. rewrite obj_get_own, obj_set_own by exact He. apply IH.
Qed.

End TotalsObject.

(** A table of whole numbers of units, read and set as the object is. *)
Lemma own_get_units {num} (unit_of : nat → num) (k : string) (tab : list (string * nat)) :
  own_get k (prod_map id unit_of <$> tab) = unit_of <$> own_get k tab.
Proof.
  induction tab as [|[k' n] tab IH]; [reflexivity|].
  simpl. destruct (String.eqb k' k); [reflexivity | exact IH].
Qed.

Lemma own_set_units {num} (unit_of : nat → num) (k : string) (n : nat)
    (tab : list (string * nat)) :
  own_set k (unit_of n) (prod_map id unit_of <$> tab) =
  prod_map id unit_of <$> own_set k n tab.
Proof.
  induction tab as [|[k' n'] tab IH]; [reflexivity|].
  simpl. destruct (String.eqb k' k); [reflexivity|].
  rewrite fmap_cons. f_equal. exact IH.
Qed.

Lemma own_get_le (k : string) (tab : list (string * nat)) (n : nat) :
  own_get k tab = Some n → n ≤ sum_list tab.*2.
Proof.
  induction tab as [|[k' n'] tab IH]; [discriminate|].
  change (sum_list ((k', n') :: tab).*2) with (n' + sum_list tab.*2).
  simpl. destruct (String.eqb k' k).
  - intros [= ->]. lia.
  - intros Hn. specialize (IH Hn). lia.
Qed.

Lemma sum_own_set (k : string) (m : nat) (tab : list (string * nat)) :
  sum_list (own_set k (default 0 (own_get k tab) + m) tab).*2 = sum_list tab.*2 + m.
Proof.
  induction tab as [|[k' n'] tab IH]; [simpl; lia|].
  change (sum_list ((k', n') :: tab).*2) with (n' + sum_list tab.*2).
  simpl own_set. simpl own_get. destruct (String.eqb k' k).
  - change (sum_list ((k', default 0 (Some n') + m) :: tab).*2)
      with (default 0 (Some n') + m + sum_list tab.*2). simpl. lia.
  - change (n' + sum_list (own_set k (default 0 (own_get k tab) + m) tab).*2 =
            n' + sum_list tab.*2 + m).
    rewrite IH. lia.
Qed.

(** Amounts that are whole numbers of a unit which the addition adds
    without rounding as long as the sum stays within a bound. *)
Section ExactTotals.
Context {E num : Type}.
Variable category : E → string.
Variable amount : E → num.
Variable add : num → num → num.
Variable zero : num.
Variable truthy : num → bool.
Variable member : string → num.
Variable unit_of : nat → num.
Variable bound : nat.
Hypothesis unit_zero : unit_of 0 = zero.
Hypothesis unit_add :
  ∀ n m, n + m ≤ bound → add (unit_of n) (unit_of m) = unit_of (n + m).
Hypothesis unit_falsy : ∀ n, n ≤ bound → truthy (unit_of n) = false → n = 0.

Lemma or_zero_units (x : option nat) :
  default 0 x ≤ bound →
  or_zero zero truthy (unit_of <$> x) = unit_of (default 0 x).
Proof.
  destruct x as [n|]; simpl; [|intros _; symmetry; exact unit_zero].
  intros Hn. destruct (truthy (unit_of n)) eqn:Ht; [reflexivity|].
  rewrite (unit_falsy n Hn Ht). symmetry. exact unit_zero.
Qed.

Lemma own_fold_units (units : E → nat) (expenses : list E) :
  (∀ e, e ∈ expenses → amount e = unit_of (units e)) →
  ∀ tab : list (string * nat),
    sum_list tab.*2 + sum_list (units <$> expenses) ≤ bound →
    ∃ tab' : list (string * nat),
      fold_left
        (λ acc expense,
           own_set (category expense)
             (add (or_zero zero truthy (own_get (category expense) acc))
                (amount expense)) acc)
        expenses (prod_map id unit_of <$> tab) =
      prod_map id unit_of <$> tab' ∧
      sum_list tab'.*2 = sum_list tab.*2 + sum_list (units <$> expenses).
Proof.
  induction expenses as [|e expenses IH]; intros Hunits tab Hbound.
  - exists tab. split; [reflexivity|]. change (sum_list (units <$> [])) with 0. lia.
  - assert (Hcons : sum_list (units <$> e :: expenses) =
                    units e + sum_list (units <$> expenses)) by reflexivity.
    rewrite Hcons in *. simpl fold_left.
    rewrite (Hunits e) by left.
    rewrite own_get_units.
    assert (Hle : default 0 (own_get (category e) tab) ≤ sum_list tab.*2).
    { destruct (own_get (category e) tab) as [n|] eqn:Hn; simpl; [|lia].
      eapply own_get_le; eassumption. }
    rewrite or_zero_units by lia.
    rewrite unit_add by lia.
    rewrite own_set_units.
    destruct (IH (λ e' He', Hunits e' (list_elem_of_further _ _ _ He'))
                (own_set (category e)
                   (default 0 (own_get (category e) tab) + units e) tab))
      as (tab' & Hfold & Hsum).
    { rewrite sum_own_set. lia. }
    exists tab'. split; [exact Hfold|].
    rewrite Hsum, sum_own_set. lia.
Qed.

Lemma measured_units (tab : list (string * nat)) :
  measured unit_of (prod_map id unit_of <$> tab).*2 (sum_list tab.*2).
Proof.
  induction tab as [|[k n] tab IH]; [constructor|].
  simpl. constructor. exact IH.
Qed.

Lemma measured_perm (values values' : list num) :
  values ≡ₚ values' → ∀ s, measured unit_of values s → measured unit_of values' s.
Proof.
  induction 1 as [|x l l' _ IH|x y l|l l' l'' _ IH1 _ IH2]; intros s Hm.
  - exact Hm.
  - inversion Hm as [|n vs s' Hvs]; subst. constructor. apply IH. exact Hvs.
  - inversion Hm as [|n vs s' Hvs]; subst.
    inversion Hvs as [|m vs' s'' Hvs']; subst.
    replace (n + (m + s'')) with (m + (n + s'')) by lia.
    constructor. constructor. exact Hvs'.
  - apply IH2, IH1. exact Hm.
Qed.

Lemma fold_measured (values : list num) (s : nat) :
  measured unit_of values s →
  ∀ a, a + s ≤ bound →
    fold_left (λ sum v, add sum v) values (unit_of a) = unit_of (a + s).
Proof.
  induction 1 as [|n values s _ IH]; intros a Ha; simpl.
  - f_equal. lia.
  - rewrite unit_add by lia. rewrite IH by lia. f_equal. lia.
Qed.

Lemma sum_amounts_units (units : E → nat) (expenses : list E) :
  (∀ e, e ∈ expenses → amount e = unit_of (units e)) →
  ∀ a, a + sum_list (units <$> expenses) ≤ bound →
    fold_left (λ sum expense, add sum (amount expense)) expenses (unit_of a) =
    unit_of (a + sum_list (units <$> expenses)).
Proof.
  induction expenses as [|e expenses IH]; intros Hunits a Ha.
  - change (sum_list (units <$> [])) with 0. simpl. f_equal. lia.
  - assert (Hcons : sum_list (units <$> e :: expenses) =
                    units e + sum_list (units <$> expenses)) by reflexivity.
    rewrite Hcons in *. simpl fold_left.
    rewrite (Hunits e) by left. rewrite unit_add by lia.
    rewrite IH; [f_equal; lia | |lia].
    intros e' He'. apply Hunits. right. exact He'.
Qed.

(** C3, amended.  For expenses whose category names the totals object does
    not inherit, and whose amounts are whole numbers of a unit that the
    addition adds without rounding up to their grand total, the sum of the
    totals by category equals the sum of the amounts of all the expenses:
    both are the grand total. *)
Theorem category_totals_sum_exact (units : E → nat) (expenses : list E) :
  own_names category expenses →
  (∀ e, e ∈ expenses → amount e = unit_of (units e)) →
  sum_list (units <$> expenses) ≤ bound →
  sum_values add zero (getCategoryTotals category amount add zero truthy member expenses) =
    sum_amounts amount add zero expenses ∧
  sum_amounts amount add zero expenses = unit_of (sum_list (units <$> expenses)).
Proof.
  intros Hown Hunits Hbound.
  assert (Hamounts : sum_amounts amount add zero expenses =
                     unit_of (sum_list (units <$> expenses))).
  { unfold sum_amounts. rewrite <- unit_zero.
    rewrite (sum_amounts_units units expenses Hunits 0) by (simpl; lia).
    reflexivity. }
  split; [|exact Hamounts].
  rewrite Hamounts. unfold getCategoryTotals, sum_values.
  rewrite (totals_own category amount add zero truthy member expenses Hown).
  destruct (own_fold_units units expenses Hunits []) as (tab & Hfold & Hsum);
    [simpl; lia|].
  change (@nil (string * num)) with (prod_map id unit_of <$> @nil (string * nat)).
  rewrite Hfold. rewrite <- unit_zero.
  rewrite (fold_measured _ (sum_list tab.*2)); [f_equal; rewrite Hsum; simpl; lia| |].
  - apply (measured_perm (prod_map id unit_of <$> tab).*2).
    + rewrite enumerate_perm. reflexivity.
    + apply measured_units.
  - rewrite Hsum. simpl. lia.
Qed.

End ExactTotals.

(** ** The CSV text and its readers *)

Lemma append_cons (ch : ascii) (a b : string) :
  String ch a +:+ b = String ch (a +:+ b).
Proof. reflexivity. Qed.

Lemma append_nil_l (a : string) : EmptyString +:+ a = a.
Proof. reflexivity. Qed.

Lemma append_assoc (a b c : string) : (a +:+ b) +:+ c = a +:+ (b +:+ c).
Proof.
  induction a as [|ch a IH]; [reflexivity|].
  rewrite !append_cons, IH. reflexivity.
Qed.

Lemma append_nil_r (a : string) : a +:+ EmptyString = a.
Proof.
  induction a as [|ch a IH]; [reflexivity|].
  rewrite append_cons, IH. reflexivity.
Qed.

Lemma plain_cons (ch : ascii) (s : string) :
  CsvReader.plain (String ch s) = true →
  Ascii.eqb ch CsvReader.comma = false ∧
  Ascii.eqb ch CsvReader.dquote = false ∧
  Ascii.eqb ch CsvReader.newline = false ∧
  CsvReader.plain s = true.
Proof.
  unfold CsvReader.plain. simpl.
  rewrite !negb_true_iff, !orb_false_iff. tauto.
Qed.

(** A plain text is read into the field as it is. *)
Lemma scan_plain (f : string) :
  CsvReader.plain f = true →
  ∀ (rest field : string) (row : list string),
    CsvReader.scan (f +:+ rest) false field row =
    CsvReader.scan rest false (field +:+ f) row.
Proof.
  induction f as [|ch f IH]; intros Hf rest field row.
  - rewrite append_nil_l, append_nil_r. reflexivity.
  - apply plain_cons in Hf as (Hc & Hq & Hn & Hf).
    rewrite append_cons. simpl. rewrite Hq, Hc, Hn. simpl. rewrite IH by assumption.
    rewrite append_assoc, append_cons, append_nil_l. reflexivity.
Qed.

(** Between quotes everything but a quote is read into the field, up to
    the closing quote. *)
Lemma scan_quoted (f : string) :
  CsvReader.quotable f = true →
  ∀ (rest field : string) (row : list string),
    CsvReader.scan (f +:+ String CsvReader.dquote rest) true field row =
    CsvReader.scan rest false (field +:+ f) row.
Proof.
  unfold CsvReader.quotable.
  induction f as [|ch f IH]; intros Hf rest field row.
  - rewrite append_nil_l, append_nil_r. reflexivity.
  - simpl in Hf. destruct (Ascii.eqb ch CsvReader.dquote) eqn:Hq; [discriminate|].
    simpl in Hf. rewrite append_cons. simpl. rewrite Hq. simpl.
    rewrite IH by assumption.
    rewrite append_assoc, append_cons, append_nil_l. reflexivity.
Qed.

Section CsvRoundTrip.
Context `{Platform}.

Lemma scan_csvRow (expense : Expense.t) (rest : string) :
  CsvReader.csv_safe expense = true →
  CsvReader.scan (ExportUtils.csvRow expense +:+ rest) false EmptyString [] =
  CsvReader.scan rest false (Expense.createdAt expense)
    [ Expense.date expense; Expense.description expense; Expense.category expense;
      numberToString (Expense.amount expense) ].
Proof.
  unfold CsvReader.csv_safe. intros Hsafe.
  apply andb_prop in Hsafe as [Hsafe Hcreated].
  apply andb_prop in Hsafe as [Hsafe Hnum].
  apply andb_prop in Hsafe as [Hsafe Hcat].
  apply andb_prop in Hsafe as [Hdate Hdesc].
  unfold ExportUtils.csvRow, ExportUtils.dquote. simpl Js.join.
  rewrite !append_assoc.
  rewrite scan_plain by assumption.
  rewrite ?append_cons, ?append_nil_l. simpl.
  rewrite scan_quoted by assumption.
  rewrite ?append_cons, ?append_nil_l. simpl.
  rewrite scan_plain by assumption.
  rewrite ?append_cons, ?append_nil_l. simpl.
  rewrite scan_plain by assumption.
  rewrite ?append_cons, ?append_nil_l. simpl.
  rewrite scan_plain by assumption.
  rewrite append_nil_l. reflexivity.
Qed.

Lemma scan_rows (expenses : list Expense.t) :
  Forall (λ expense, CsvReader.csv_safe expense = true) expenses →
  expenses ≠ [] →
  CsvReader.scan (Js.join ExportUtils.newline (ExportUtils.csvRow <$> expenses)) false EmptyString [] =
  CsvReader.row_fields <$> expenses.
Proof.
  induction 1 as [|e es He Hes IH]; intros Hne; [contradiction|].
  destruct es as [|e' es].
  - simpl. rewrite <- (append_nil_r (ExportUtils.csvRow e)).
    rewrite scan_csvRow by assumption. reflexivity.
  - change (Js.join ExportUtils.newline (ExportUtils.csvRow <$> e :: e' :: es)) with
      (ExportUtils.csvRow e +:+ ExportUtils.newline +:+
       Js.join ExportUtils.newline (ExportUtils.csvRow <$> e' :: es)).
    rewrite scan_csvRow by assumption.
    unfold ExportUtils.newline at 1.
    change (String "010" EmptyString +:+ ?s) with (String "010"%char s).
    cbn [CsvReader.scan]. 
    change (Ascii.eqb "010" CsvReader.dquote) with false.
    change (Ascii.eqb "010" CsvReader.comma) with false.
    change (Ascii.eqb "010" CsvReader.newline) with true.
    cbn [negb andb]. rewrite IH by discriminate. reflexivity.
Qed.

Lemma read_row_fields (expenses : list Expense.t) :
  omap CsvReader.readRow (CsvReader.row_fields <$> expenses) = ExportUtils.csvTuple <$> expenses.
Proof.
  induction expenses as [|e es IH]; [reflexivity|].
  rewrite !fmap_cons.
  change (omap CsvReader.readRow (CsvReader.row_fields e :: (CsvReader.row_fields <$> es))) with
    (ExportUtils.csvTuple e :: omap CsvReader.readRow (CsvReader.row_fields <$> es)).
  rewrite IH. reflexivity.
Qed.

(** C4, amended.  For a collection in which no description holds a double
    quote and no date, category, amount text or creation time holds a comma,
    a double quote or a line feed, reading the exported text back gives the
    tuples of the collection, in order. *)
Theorem csv_roundtrip_safe (expenses : list Expense.t) :
  Forall (λ expense, CsvReader.csv_safe expense = true) expenses →
  CsvReader.parseCSV (ExportUtils.csvContent expenses) = ExportUtils.csvTuple <$> expenses.
Proof.
  intros Hsafe. unfold CsvReader.parseCSV, ExportUtils.csvContent.
  destruct expenses as [|e es]; [reflexivity|].
  change (Js.join ExportUtils.newline
            (Js.join "," ExportUtils.headers :: (ExportUtils.csvRow <$> e :: es))) with
    (Js.join "," ExportUtils.headers +:+ ExportUtils.newline +:+
     Js.join ExportUtils.newline (ExportUtils.csvRow <$> e :: es)).
  change (CsvReader.scan (Js.join "," ExportUtils.headers +:+ ExportUtils.newline +:+ ?s)
            false EmptyString []) with
    (["Date"; "Description"; "Category"; "Amount"; "Created At"] ::
     CsvReader.scan s false EmptyString []).
  rewrite scan_rows by (assumption || discriminate).
  exact (read_row_fields (e :: es)).
Qed.

End CsvRoundTrip.

(** C4, as stated, fails: the exporter writes the same text for two
    collections whose tuples differ, so no reader whatever recovers the
    tuples of every collection. *)
Lemma csv_roundtrip_impossible :
  ¬ ∃ (P : Platform) (parse : string → list (string * string * string * string)),
      ∀ expenses : list Expense.t,
        parse (@ExportUtils.csvContent P expenses) = @ExportUtils.csvTuple P <$> expenses.
Proof.
  intros (P & parse & Hparse).
  pose proof (Hparse (Examples.quoted_a 12)) as Ha.
  pose proof (Hparse (Examples.quoted_b 12)) as Hb.
  assert (Hsame : @ExportUtils.csvContent P (Examples.quoted_a 12) =
                  @ExportUtils.csvContent P (Examples.quoted_b 12)) by reflexivity.
  rewrite Hsame, Hb in Ha. discriminate Ha.
Qed.

(** ** The properties on concrete data *)

Lemma calm_fresh_backend : calm Examples.fresh_backend.
Proof. constructor. Qed.

Lemma calm_ledger : calm Examples.ledger.
Proof. constructor. Qed.


(** With a provider that rejects the sign-out, the same address is still
    turned away, with the message of that rejection, and the session stays. *)
Example signIn_unlisted_signOut_rejected :
  let run := AuthService.signIn "bob@example.com" "secret" Scenarios.stuck in
  run.1 = Ok (AuthResult.mk false None
                (Some "Firebase: Error (auth/network-request-failed).")) ∧
  auth_currentUser run.2 =
    Some (FirebaseUser.mk "uid:bob@example.com" (Some "bob@example.com") None).
Proof. split; vm_compute; reflexivity. Qed.

(** So is an address whose entry has been deactivated; a listed and active
    one is let in and gets its profile. *)
Example signIn_deactivated :
  (AuthService.signIn "old@example.com" "secret" Examples.fresh_backend).1 =
  Ok (AuthResult.mk false None (Some AuthService.not_authorized_message)).
Proof. vm_compute. reflexivity. Qed.

Example signIn_listed :
  (AuthService.signIn "ana@example.com" "secret" Examples.fresh_backend).1 =
  Ok (AuthResult.mk true (Some (User.mk "uid:ana@example.com" "ana" (Some "ana@example.com")))
        None).
Proof. vm_compute. reflexivity. Qed.

Example signIn_wrong_password :
  (AuthService.signIn "ana@example.com" "guess" Examples.fresh_backend).1 =
  Ok (AuthResult.mk false None (Some "Invalid email or password.")).
Proof. vm_compute. reflexivity. Qed.

(** A stored category without flags reads as active, not default, with
    count [0]; a stored [isDefault] that is not a boolean is handed on as it
    is. *)
Example convertToCategory_bare :
  let c := @CategoryService.convertToCategory Examples.platform
             ("c9", FirestoreCategory.mk "u1" "Pets" None None (Timestamp 3)
                      Js.Undefined Js.Undefined Js.Undefined) in
  Category.isActive c = true ∧
  Category.isDefault c = Js.Bool false ∧
  Category.expenseCount c = Js.Num 0.
Proof. repeat split. Qed.

Example convertToCategory_untyped_flag :
  Category.isDefault
    (@CategoryService.convertToCategory Examples.platform
       ("c9", FirestoreCategory.mk "u1" "Pets" None None (Timestamp 3)
                (Js.Str "yes") (Js.Bool false) (Js.Num 4))) = Js.Str "yes".
Proof. reflexivity. Qed.

Lemma getExpenseStats_empty_witness :
  next_call_ok Examples.fresh_backend ∧
  @ExpenseService.snapshot_userExpenses Examples.platform "u1" Examples.fresh_backend = [] ∧
  @ExpenseService.getExpenseStats Examples.platform "u1" Examples.fresh_backend =
    (Ok (ExpenseStats.mk 0 0%float 0%float 0), pop Examples.fresh_backend).
Proof.
  split; [exact I|]. split; [reflexivity|].
  apply (@getExpenseStats_empty Examples.platform Examples.fresh_backend "u1");
    [exact I | reflexivity].
Defined.

(** The statistics of the ledger of [u1]: three expenses, 420.5 in all. *)
Example getExpenseStats_ledger :
  (@ExpenseService.getExpenseStats Examples.platform "u1" Examples.ledger).1 =
  Ok (ExpenseStats.mk 3 420.5%float (420.5 / 3)%float 3).
Proof. vm_compute. reflexivity. Qed.

Lemma ensure_creates_one_default_set_witness :
  ∃ (cats : list Category.t) (w' : World),
    @CategoryService.ensureUserHasCategories Examples.platform "u1" Examples.fresh_backend =
      (Ok cats, w') ∧
    length cats = 8 ∧
    Category.name <$> cats =
      [ "Food & Dining"; "Transportation"; "Shopping"; "Entertainment";
        "Bills & Utilities"; "Healthcare"; "Education"; "Travel" ] ∧
    Forall (is_default_record "u1") cats ∧
    user_categories "u1" w' ≡ₚ
      zip (Category.id <$> cats) (default_documents "u1" 7) ∧
    length (user_categories "u1" w') = 8 ∧
    Forall (λ doc : string * FirestoreCategory.t,
              FirestoreCategory.userId doc.2 = "u1" ∧
              FirestoreCategory.isDefault doc.2 = Js.Bool true ∧
              FirestoreCategory.isActive doc.2 = Js.Bool true ∧
              FirestoreCategory.expenseCount doc.2 = Js.Num 0)
      (user_categories "u1" w').
Proof.
  destruct (@ensure_creates_one_default_set Examples.platform Examples.fresh_backend "u1")
    as (cats & w' & Hrun & Hlen & _ & Hnames & Hflags & _ & _ & _ & Hdocs & Hcount & _);
    [constructor | reflexivity |].
  exists cats, w'. split; [exact Hrun|]. split; [exact Hlen|]. split; [exact Hnames|].
  split; [exact Hflags|]. split; [exact Hdocs|]. split; [exact Hcount|].
  rewrite Hdocs. apply Forall_forall. intros [k d] Hin.
  apply elem_of_zip_r in Hin. unfold default_documents in Hin. simpl in Hin.
  repeat (apply elem_of_cons in Hin as [->|Hin]; [repeat split|]).
  inversion Hin.
Defined.


(** The two executions on the fresh backend, run. *)
Example ensure_twice_runs :
  length (user_categories "u1"
            (@ensure_twice Examples.platform "u1" Examples.fresh_backend).2) = 8 ∧
  length (user_categories "u1"
            (@ensure_overlapped Examples.platform "u1" Examples.fresh_backend).2) = 16.
Proof. split; vm_compute; reflexivity. Qed.

(** The unused category [Travel] of the ledger is deactivated at once. *)
Lemma delete_unused_category_direct_witness :
  CategoryManagement.getCategoryUsageCount Examples.ledger_props "Travel" = 0 ∧
  ∃ (st' : CategoryManagement.State) (w' : World),
    @CategoryManagement.handleDeleteCategory Examples.platform Examples.ledger_props
      "Travel" (Examples.ledger_state None EmptyString) Examples.ledger = (Ok st', w') ∧
    CategoryManagement.showDeleteConfirm st' = None ∧
    CategoryManagement.replacementCategory st' = EmptyString ∧
    db_expenses w' = db_expenses Examples.ledger ∧
    FirestoreCategory.isActive <$> db_categories w' !! "c3" = Some (Js.Bool false).
Proof.
  split; [vm_compute; reflexivity|].
  destruct (@delete_unused_category_direct Examples.platform Examples.ledger_props
              (Examples.ledger_state None EmptyString) Examples.ledger Examples.u1 "Travel"
              (@CategoryService.convertToCategory Examples.platform
                 ("c3", Examples.category_doc "u1" "Travel")))
    as (st' & w' & Hrun & Hshow & Hrepl & Hexp & Hflip);
    [reflexivity | vm_compute; reflexivity | vm_compute; reflexivity |].
  destruct (Hflip calm_ledger (Examples.category_doc "u1" "Travel")) as [Hcats _];
    [vm_compute; reflexivity|].
  exists st', w'. split; [exact Hrun|]. split; [exact Hshow|]. split; [exact Hrepl|].
  split; [exact Hexp|].
  rewrite Hcats. simpl. rewrite lookup_insert_eq. reflexivity.
Defined.

(** A category in use is not deleted directly: the dialog opens and the
    store is left alone. *)
Example delete_used_category_prompts :
  @CategoryManagement.handleDeleteCategory Examples.platform Examples.ledger_props
    "Food" (Examples.ledger_state None EmptyString) Examples.ledger =
  (Ok (Examples.ledger_state (Some "Food") EmptyString), Examples.ledger).
Proof. vm_compute. reflexivity. Qed.

Lemma confirm_delete_reassigns_witness :
  ∃ (st' : CategoryManagement.State) (w' : World),
    @CategoryManagement.confirmDeleteCategory Examples.platform Examples.ledger_props
      (Examples.ledger_state (Some "Food") "Rent") Examples.ledger = (Ok st', w') ∧
    CategoryManagement.getCategoryUsageCount Examples.ledger_props "Food" =
      count_category "u1" "Food" Examples.ledger ∧
    count_category "u1" "Food" w' = 0 ∧
    count_category "u1" "Rent" w' =
      count_category "u1" "Rent" Examples.ledger +
      count_category "u1" "Food" Examples.ledger ∧
    db_categories w' =
      alter (FirestoreCategory.set_isActive (Js.Bool false)) "c1"
        (db_categories Examples.ledger) ∧
    CategoryManagement.showDeleteConfirm st' = None ∧
    CategoryManagement.replacementCategory st' = EmptyString ∧
    db_expenses w' !! "e1" =
      Some (FirestoreExpense.mk "u1" 45.5 "Groceries" "Rent" "2025-01-15"
              (IsoText "tick-2") (Some (Timestamp 7)) (Some "e1")) ∧
    db_expenses w' !! "e2" = db_expenses Examples.ledger !! "e2" ∧
    db_expenses w' !! "e4" = db_expenses Examples.ledger !! "e4".
Proof.
  destruct (@confirm_delete_reassigns Examples.platform Examples.ledger_props
              (Examples.ledger_state (Some "Food") "Rent") Examples.ledger Examples.u1
              (@CategoryService.convertToCategory Examples.platform
                 ("c1", Examples.category_doc "u1" "Food"))
              "Food" "Rent")
    as (st' & w' & Hrun & Husage & Hold & Hnew & _ & _ & Hcat & Hshow & Hrepl & Hdocs);
    [constructor | reflexivity | reflexivity | reflexivity | discriminate | reflexivity
    | discriminate | discriminate | vm_compute; reflexivity
    | eexists; vm_compute; reflexivity |].
  exists st', w'. split; [exact Hrun|]. split; [exact Husage|]. split; [exact Hold|].
  split; [exact Hnew|]. split; [exact Hcat|]. split; [exact Hshow|].
  split; [exact Hrepl|]. rewrite !Hdocs.
  split; [vm_compute; reflexivity|]. split; vm_compute; reflexivity.
Defined.

(** C1, as stated, fails where the replacement already has expenses: in the
    ledger two expenses are under [Food] and one under [Rent]; after the
    deletion of [Food] with replacement [Rent] none is under [Food] and
    three, not two, are under [Rent]. *)
Lemma confirm_delete_not_exactly_N :
  let run := @CategoryManagement.confirmDeleteCategory Examples.platform
               Examples.ledger_props (Examples.ledger_state (Some "Food") "Rent")
               Examples.ledger in
  (∃ st', run.1 = Ok st') ∧
  CategoryManagement.getCategoryUsageCount Examples.ledger_props "Food" = 2 ∧
  count_category "u1" "Food" run.2 = 0 ∧
  count_category "u1" "Rent" run.2 = 3 ∧
  count_category "u1" "Rent" run.2 ≠
    CategoryManagement.getCategoryUsageCount Examples.ledger_props "Food".
Proof.
  split; [eexists; vm_compute; reflexivity|].
  split; [vm_compute; reflexivity|].
  split; [vm_compute; reflexivity|].
  split; [vm_compute; reflexivity|].
  vm_compute. discriminate.
Qed.

(** Without a replacement the expenses under the name are deleted. *)
Example confirm_delete_without_replacement :
  let run := @CategoryManagement.confirmDeleteCategory Examples.platform
               Examples.ledger_props (Examples.ledger_state (Some "Food") EmptyString)
               Examples.ledger in
  count_category "u1" "Food" run.2 = 0 ∧
  count_category "u1" "Rent" run.2 = 1 ∧
  size (db_expenses run.2) = 2.
Proof. repeat split; vm_compute; reflexivity. Qed.

(** C3, as stated, fails in double precision: for amounts 0.1 and 0.7
    under one category and 0.3 under another, the totals by category add up
    to 1.0999999999999999 and the amounts to 1.1. *)
Lemma category_totals_sum_differs :
  @categoryTotals Examples.platform Examples.tenths =
    [("Food", Number 0.79999999999999993); ("Transport", Number 0.29999999999999999)] ∧
  @total_of_categories Examples.platform Examples.tenths = Number 1.0999999999999999 ∧
  @total_of_expenses Examples.platform Examples.tenths = Number 1.1000000000000001 ∧
  PrimFloat.eqb 1.0999999999999999 1.1000000000000001 = false ∧
  @total_of_categories Examples.platform Examples.tenths ≠
    @total_of_expenses Examples.platform Examples.tenths.
Proof.
  split; [vm_compute; reflexivity|]. split; [vm_compute; reflexivity|].
  split; [vm_compute; reflexivity|]. split; [vm_compute; reflexivity|].
  intros Heq.
  assert (Hsame : match @total_of_categories Examples.platform Examples.tenths,
                        @total_of_expenses Examples.platform Examples.tenths with
                  | Number x, Number y => PrimFloat.eqb x y
                  | _, _ => false
                  end = true).
  { rewrite Heq. vm_compute. reflexivity. }
  vm_compute in Hsame. discriminate Hsame.
Qed.

(** Under names that every object inherits a member for the totals are not
    numbers at all: nothing is kept under [__proto__], and under
    [constructor] the amounts are joined to the text of the inherited
    member. *)
Example category_totals_inherited :
  @categoryTotals Examples.platform Scenarios.inherited =
    [("constructor", Text "function Object() { [native code] }23")] ∧
  @total_of_categories Examples.platform Scenarios.inherited =
    Text "0function Object() { [native code] }23" ∧
  @total_of_expenses Examples.platform Scenarios.inherited = Number 10.
Proof. repeat split; vm_compute; reflexivity. Qed.

Lemma halves_zero : Scenarios.halves 0 = Number 0.
Proof. vm_compute. reflexivity. Qed.

(** Up to 200 units, halves are added without rounding. *)
Lemma halves_add (n m : nat) :
  n + m ≤ 400 →
  @plus Examples.platform (Scenarios.halves n) (Scenarios.halves m) =
    Scenarios.halves (n + m).
Proof.
  intros Hle.
  assert (Hall : forallb
                   (λ n, forallb
                           (λ m, PrimFloat.Leibniz.eqb
                                   (Scenarios.half n + Scenarios.half m)%float
                                   (Scenarios.half (n + m)))
                           (seq 0 (401 - n)))
                   (seq 0 401) = true) by (vm_compute; reflexivity).
  rewrite List.forallb_forall in Hall.
  specialize (Hall n (proj2 (List.in_seq 401 0 n) ltac:(lia))).
  rewrite List.forallb_forall in Hall.
  specialize (Hall m (proj2 (List.in_seq (401 - n) 0 m) ltac:(lia))).
  apply FloatAxioms.Leibniz.eqb_spec in Hall.
  unfold Scenarios.halves, plus. rewrite Hall. reflexivity.
Qed.

Lemma halves_truthy (n : nat) :
  n ≤ 400 → total_truthy (Scenarios.halves n) = false → n = 0.
Proof.
  intros Hle Hfalsy. destruct n as [|n]; [reflexivity|]. exfalso.
  assert (Hall : forallb (λ n, total_truthy (Scenarios.halves (S n))) (seq 0 400) = true)
    by (vm_compute; reflexivity).
  rewrite List.forallb_forall in Hall.
  specialize (Hall n (proj2 (List.in_seq 400 0 n) ltac:(lia))).
  rewrite Hall in Hfalsy. discriminate Hfalsy.
Qed.

Lemma category_totals_sum_exact_witness :
  @categoryTotals Examples.platform Scenarios.outings =
    [("Food & Dining", Number 70.5); ("Transportation", Number 120)] ∧
  @total_of_categories Examples.platform Scenarios.outings =
    @total_of_expenses Examples.platform Scenarios.outings ∧
  @total_of_expenses Examples.platform Scenarios.outings = Number 190.5.
Proof.
  split; [vm_compute; reflexivity|].
  destruct (category_totals_sum_exact Expense.category
              (λ expense, Number (Expense.amount expense)) (@plus Examples.platform)
              (Number 0) total_truthy Member Scenarios.halves 400
              halves_zero halves_add halves_truthy
              Scenarios.in_halves Scenarios.outings) as [Hsum Htotal].
  - unfold own_names.
    repeat (apply Forall_cons; split; [apply (bool_decide_unpack _); vm_compute; exact I|]).
    apply Forall_nil_2.
  - intros e He. repeat (apply elem_of_cons in He as [->|He]; [vm_compute; reflexivity|]).
    exfalso. revert He. apply not_elem_of_nil.
  - vm_compute. lia.
  - split; [exact Hsum|].
    transitivity (Scenarios.halves (sum_list (Scenarios.in_halves <$> Scenarios.outings)));
      [exact Htotal | vm_compute; reflexivity].
Defined.

(** The scenario of the demo data: totals by category and their sum. *)
Example category_totals_demo :
  @categoryTotals Examples.platform Examples.demo =
    [("Food & Dining", Number 45.5); ("Transportation", Number 120)] ∧
  @total_of_categories Examples.platform Examples.demo = Number 165.5 ∧
  @total_of_expenses Examples.platform Examples.demo = Number 165.5.
Proof. repeat split; vm_compute; reflexivity. Qed.

Lemma csv_roundtrip_safe_witness :
  Forall (λ expense, @CsvReader.csv_safe Examples.platform expense = true) Examples.demo ∧
  CsvReader.parseCSV (@ExportUtils.csvContent Examples.platform Examples.demo) =
    @ExportUtils.csvTuple Examples.platform <$> Examples.demo.
Proof.
  assert (Hsafe : Forall (λ expense, @CsvReader.csv_safe Examples.platform expense = true)
                    Examples.demo).
  { repeat (constructor; [vm_compute; reflexivity|]). constructor. }
  split; [exact Hsafe|].
  apply (@csv_roundtrip_safe Examples.platform Examples.demo). exact Hsafe.
Defined.

(** The text written for the demo data, and the two collections that are
    written alike. *)
Example csvContent_demo :
  @ExportUtils.csvContent Examples.platform Examples.demo =
  "Date,Description,Category,Amount,Created At" +:+ ExportUtils.newline +:+
  "2025-01-15," +:+ ExportUtils.dquote +:+ "Grocery shopping" +:+ ExportUtils.dquote +:+
  ",Food & Dining,45.5,2025-01-15T10:30:00Z" +:+ ExportUtils.newline +:+
  "2025-01-14," +:+ ExportUtils.dquote +:+ "Gas station" +:+ ExportUtils.dquote +:+
  ",Transportation,120,2025-01-14T15:45:00Z".
Proof. vm_compute. reflexivity. Qed.

Example csvContent_collision :
  @ExportUtils.csvContent Examples.platform (Examples.quoted_a 12) =
  @ExportUtils.csvContent Examples.platform (Examples.quoted_b 12) ∧
  @ExportUtils.csvTuple Examples.platform <$> Examples.quoted_a 12 ≠
  @ExportUtils.csvTuple Examples.platform <$> Examples.quoted_b 12.
Proof. split; [vm_compute; reflexivity | discriminate]. Qed.

(** * Further properties of the services and components *)

(** ** The sign-in gate, all paths *)

Lemma isAuthorizedUser_true (w : World) (email : string) (w' : World) :
  AuthService.isAuthorizedUser email w = (Ok true, w') →
  next_call_ok w ∧ allowlisted w email ∧ w' = pop w.
Proof.
  rewrite isAuthorizedUser_run. unfold next_call_ok, allowlisted.
  destruct (faults w) as [|[e|] fs] eqn:Hf; simpl.
  - destruct (db_authorizedUsers w !! email) as [data|]; [|discriminate].
    intros [= Hs <-]. apply strict_eq_bool_true in Hs. eauto.
  - discriminate.
  - destruct (db_authorizedUsers w !! email) as [data|]; [|discriminate].
    intros [= Hs <-]. apply strict_eq_bool_true in Hs. eauto.
Qed.

Lemma isAuthorizedUser_total (w : World) (email : string) :
  ∃ b, AuthService.isAuthorizedUser email w = (Ok b, pop w).
Proof. rewrite isAuthorizedUser_run. eexists. reflexivity. Qed.

(** Writing the profile touches neither the session nor the categories nor
    the expenses, and the user it returns is the provider's. *)
Lemma createOrUpdateUser_frame (firebaseUser : FirebaseUser.t) (w w' : World)
    (r : result User.t) :
  AuthService.createOrUpdateUser firebaseUser w = (r, w') →
  auth_currentUser w' = auth_currentUser w ∧
  db_categories w' = db_categories w ∧
  db_expenses w' = db_expenses w ∧
  db_authorizedUsers w' = db_authorizedUsers w ∧
  (∀ u, r = Ok u →
     User.id u = FirebaseUser.uid firebaseUser ∧
     User.email u = FirebaseUser.email firebaseUser).
Proof.
  unfold AuthService.createOrUpdateUser, AuthService.getDoc_users,
    AuthService.user_name, AuthService.setDoc_users,
    AuthService.updateDoc_users_lastLoginAt.
  unfold_M. rewrite storeCall_spec.
  assert (Hfin : ∀ (r0 : result User.t) (w0 : World) (u0 : User.t),
            (r0 = Ok u0 ∨ ∃ e, r0 = Throw e) →
            User.id u0 = FirebaseUser.uid firebaseUser →
            User.email u0 = FirebaseUser.email firebaseUser →
            auth_currentUser w0 = auth_currentUser w →
            db_categories w0 = db_categories w →
            db_expenses w0 = db_expenses w →
            db_authorizedUsers w0 = db_authorizedUsers w →
            (r0, w0) = (r, w') →
            auth_currentUser w' = auth_currentUser w ∧
            db_categories w' = db_categories w ∧
            db_expenses w' = db_expenses w ∧
            db_authorizedUsers w' = db_authorizedUsers w ∧
            (∀ u, r = Ok u →
               User.id u = FirebaseUser.uid firebaseUser ∧
               User.email u = FirebaseUser.email firebaseUser)).
  { intros r0 w0 u0 Hr Hid Hem H1 H2 H3 H4 [= <- <-].
    do 4 (split; [assumption|]). intros u Hu.
    destruct Hr as [-> | [e ->]]; [|discriminate].
    injection Hu as <-. auto. }
  set (dummy := User.mk (FirebaseUser.uid firebaseUser) EmptyString
                  (FirebaseUser.email firebaseUser)).
  destruct (head (faults w)) as [[e|]|];
    [apply (Hfin _ _ dummy); eauto | |].
  all: simpl.
  all: destruct (FirebaseUser.displayName firebaseUser) as [[|c s]|];
    destruct (FirebaseUser.email firebaseUser) as [em|];
    try (apply (Hfin _ _ dummy); eauto; fail).
  all: destruct (db_users w !! FirebaseUser.uid firebaseUser) as [d|] eqn:Hd;
    rewrite storeCall_spec;
    destruct (head (faults (pop w))) as [[e|]|]; simpl; try rewrite Hd;
    first [ apply (Hfin _ _ dummy); eauto; fail
          | eapply Hfin; eauto; reflexivity ].
Qed.

(** X1.  [signIn] lets nobody in by mistake: whatever the store holds and
    however it behaves, a result with [success] comes only with credentials
    the provider accepted and an address whose allowlist entry was read and
    is active; the session is then the provider's user and the user
    returned bears its uid. *)
Theorem signIn_success_sound (w w' : World) (email password : string)
    (r : AuthResult.t) :
  AuthService.signIn email password w = (Ok r, w') →
  AuthResult.success r = true →
  ∃ firebaseUser : FirebaseUser.t,
    accounts w email password = inr firebaseUser ∧
    next_call_ok w ∧
    allowlisted w email ∧
    auth_currentUser w' = Some firebaseUser ∧
    ∃ u, AuthResult.user r = Some u ∧ User.id u = FirebaseUser.uid firebaseUser.
Proof.
  unfold AuthService.signIn, AuthService.signInWithEmailAndPassword,
    AuthService.provider_signOut.
  unfold mbind at 1, M_bind, try_catch.
  destruct (accounts w email password) as [e|fu] eqn:Hacc.
  { intros [= <- _]. discriminate. }
  unfold mbind, M_bind.
  destruct (isAuthorizedUser_total (set_auth_currentUser (Some fu) w) email) as [b Hb].
  rewrite Hb. destruct b; simpl.
  - apply isAuthorizedUser_true in Hb as (Hok & Hallow & _).
    destruct (AuthService.createOrUpdateUser fu _) as [[u|e] w2] eqn:Hprofile.
    + apply createOrUpdateUser_frame in Hprofile as (Hsess & _ & _ & _ & Hu).
      intros [= <- <-] _. exists fu. repeat split; auto.
      exists u. split; [reflexivity|]. apply Hu. reflexivity.
    + intros [= <- _]. discriminate.
  - destruct (signOut_error w); simpl;
      intros [= <- _]; discriminate.
Qed.

(** X2.  [signIn] never throws: for every backend it returns a result
    record, which carries either a user and no message (success) or a message
    and no user (failure).  When the provider refuses the credentials the
    backend is left exactly as it was, and an unknown address and a wrong
    password get the same message. *)
Theorem signIn_never_throws (w : World) (email password : string) :
  ∃ (r : AuthResult.t) (w' : World),
    AuthService.signIn email password w = (Ok r, w') ∧
    (if AuthResult.success r
     then is_Some (AuthResult.user r) ∧ AuthResult.error r = None
     else AuthResult.user r = None ∧ is_Some (AuthResult.error r)) ∧
    (∀ e, accounts w email password = inl e →
       w' = w ∧
       AuthResult.error r = Some (AuthService.errorMessage e) ∧
       (code e = Some "auth/user-not-found" ∨ code e = Some "auth/wrong-password" →
        AuthResult.error r = Some "Invalid email or password.")).
Proof.
  unfold AuthService.signIn, AuthService.signInWithEmailAndPassword,
    AuthService.provider_signOut.
  unfold mbind at 1, M_bind, try_catch.
  destruct (accounts w email password) as [e|fu] eqn:Hacc.
  { eexists _, _. split; [reflexivity|]. simpl. split; [eauto|].
    intros e' [= <-]. split; [reflexivity|]. split; [reflexivity|].
    unfold AuthService.errorMessage. intros [-> | ->]; reflexivity. }
  unfold mbind, M_bind.
  destruct (isAuthorizedUser_total (set_auth_currentUser (Some fu) w) email) as [b Hb].
  rewrite Hb. destruct b; simpl.
  - destruct (AuthService.createOrUpdateUser fu _) as [[u|e] w2] eqn:Hprofile;
      eexists _, _; (split; [reflexivity|]); simpl; (split; [eauto|]); discriminate.
  - destruct (signOut_error w); simpl;
      eexists _, _; (split; [reflexivity|]); simpl; (split; [eauto|]); discriminate.
Qed.

Lemma isAuthorizedUser_iff (w : World) (email : string) :
  ∃ b : bool,
    AuthService.isAuthorizedUser email w = (Ok b, pop w) ∧
    (b = true ↔ next_call_ok w ∧ allowlisted w email).
Proof.
  destruct (isAuthorizedUser_total w email) as [b Hb]. exists b. split; [exact Hb|].
  split.
  - intros ->. apply isAuthorizedUser_true in Hb as (? & ? & _). auto.
  - intros [Hok (d & Hd & Ha)]. rewrite isAuthorizedUser_run in Hb.
    pose proof (next_call_ok_head w Hok) as Hh.
    destruct (head (faults w)) as [[e|]|]; [exfalso; eapply Hh; reflexivity| |];
      rewrite Hd, Ha in Hb; injection Hb as <-; reflexivity.
Qed.

Lemma calm_set_auth_currentUser (u : option FirebaseUser.t) (w : World) :
  calm w → calm (set_auth_currentUser u w).
Proof. intros Hc. exact Hc. Qed.

Lemma user_name_run (firebaseUser : FirebaseUser.t) (address : string) (w : World) :
  FirebaseUser.email firebaseUser = Some address →
  AuthService.user_name firebaseUser w = (Ok (profile_name firebaseUser address), w).
Proof.
  intros He. unfold AuthService.user_name, profile_name, text_or. rewrite He.
  destruct (FirebaseUser.displayName firebaseUser) as [[|c s]|]; reflexivity.
Qed.

Lemma createOrUpdateUser_run (firebaseUser : FirebaseUser.t) (address : string)
    (w : World) :
  calm w →
  FirebaseUser.email firebaseUser = Some address →
  let uid := FirebaseUser.uid firebaseUser in
  let name := profile_name firebaseUser address in
  AuthService.createOrUpdateUser firebaseUser w =
    (Ok (User.mk uid name (Some address)),
     set_db_users
       (λ m, match db_users w !! uid with
             | None =>
                 <[uid := UserDoc.mk uid (Some address) name uid
                            (Timestamp (serverTime w)) (Timestamp (serverTime w)) true]> m
             | Some _ => alter (UserDoc.set_lastLoginAt (Timestamp (serverTime w))) uid m
             end)
       (pop (pop w))).
Proof.
  intros Hcalm He uid name.
  unfold AuthService.createOrUpdateUser, AuthService.getDoc_users,
    AuthService.setDoc_users, AuthService.updateDoc_users_lastLoginAt.
  unfold mbind, M_bind, mret, M_ret, gets, modify, throw.
  rewrite (storeCall_ok w) by (apply calm_next_call_ok; exact Hcalm).
  rewrite (user_name_run firebaseUser address) by exact He.
  fold uid. change (db_users (pop w)) with (db_users w).
  rewrite He.
  destruct (db_users w !! uid) as [d|] eqn:Hd;
    rewrite (storeCall_ok (pop w)) by (apply calm_next_call_ok, calm_pop; exact Hcalm).
  - change (db_users (pop (pop w))) with (db_users w). rewrite Hd. reflexivity.
  - reflexivity.
Qed.

(** X3.  A listed user with accepted credentials and a store that does not
    fail is let in under the name of the profile: the display name, or else
    the part of the address before the [@].  The first sign-in creates the
    profile document, active and with both times that of the store; a later
    one changes nothing of it but the time of the last sign-in. *)
Theorem signIn_listed_writes_profile (w : World) (email password : string)
    (firebaseUser : FirebaseUser.t) (address : string) :
  calm w →
  accounts w email password = inr firebaseUser →
  allowlisted w email →
  FirebaseUser.email firebaseUser = Some address →
  let uid := FirebaseUser.uid firebaseUser in
  let name := profile_name firebaseUser address in
  ∃ w' : World,
    AuthService.signIn email password w =
      (Ok (AuthResult.mk true (Some (User.mk uid name (Some address))) None), w') ∧
    auth_currentUser w' = Some firebaseUser ∧
    (db_users w !! uid = None →
       db_users w' =
         <[uid := UserDoc.mk uid (Some address) name uid
                    (Timestamp (serverTime w)) (Timestamp (serverTime w)) true]>
           (db_users w)) ∧
    (∀ d, db_users w !! uid = Some d →
       db_users w' =
         <[uid := UserDoc.set_lastLoginAt (Timestamp (serverTime w)) d]> (db_users w)).
Proof.
  intros Hcalm Hacc Hallow Hemail uid name.
  unfold AuthService.signIn, AuthService.signInWithEmailAndPassword.
  unfold mbind at 1, M_bind, try_catch. rewrite Hacc.
  unfold mbind, M_bind.
  set (w1 := set_auth_currentUser (Some firebaseUser) w).
  destruct (isAuthorizedUser_iff w1 email) as (b & Hb & Hiff).
  assert (b = true) as ->.
  { apply Hiff. split; [apply calm_next_call_ok; exact Hcalm | exact Hallow]. }
  rewrite Hb. cbv beta iota. change (negb true) with false. cbv beta iota.
  rewrite (createOrUpdateUser_run firebaseUser address (pop w1))
    by (try apply calm_pop; assumption).
  eexists. split; [reflexivity|]. split; [reflexivity|].
  simpl. change (db_users (pop w1)) with (db_users w). fold uid. split.
  - intros ->. reflexivity.
  - intros d Hd. rewrite Hd.
    apply map_eq. intros k. rewrite lookup_alter, lookup_insert.
    destruct (decide (uid = k)) as [<-|Hk]; [rewrite Hd|]; reflexivity.
Qed.

(** X4.  [validateCurrentUser] answers [true] exactly when there is a
    session whose user has a non-empty address, the allowlist could be read
    and holds an active entry for that address; without a session, and with
    a session whose user has no address or an empty one, it answers [false]
    and asks nothing of the store; otherwise it makes one request. *)
Theorem validateCurrentUser_spec (w : World) :
  ∃ (b : bool) (w' : World),
    AuthService.validateCurrentUser w = (Ok b, w') ∧
    (b = true ↔
       ∃ u address,
         auth_currentUser w = Some u ∧
         FirebaseUser.email u = Some address ∧
         address ≠ EmptyString ∧
         next_call_ok w ∧
         allowlisted w address) ∧
    (auth_currentUser w = None → b = false ∧ w' = w) ∧
    (∀ u, auth_currentUser w = Some u →
       FirebaseUser.email u = None ∨ FirebaseUser.email u = Some EmptyString →
       b = false ∧ w' = w) ∧
    (∀ u address, auth_currentUser w = Some u →
       FirebaseUser.email u = Some address → address ≠ EmptyString →
       w' = pop w).
Proof.
  unfold AuthService.validateCurrentUser, AuthService.getCurrentUser.
  unfold mbind, M_bind, gets.
  destruct (auth_currentUser w) as [u|] eqn:Hu.
  - destruct (FirebaseUser.email u) as [[|c s]|] eqn:He.
    + eexists _, _. split; [reflexivity|]. split; [|split; [discriminate|split]].
      * split; [discriminate|]. intros (u' & a & [= <-] & Ha & Hne & _). congruence.
      * intros u' [= <-] _. split; reflexivity.
      * intros u' a [= <-] Ha Hne. congruence.
    + destruct (isAuthorizedUser_iff w (String c s)) as (b & Hb & Hiff).
      exists b, (pop w). split; [exact Hb|]. split; [|split; [discriminate|split]].
      * rewrite Hiff. split.
        -- intros [Hok Hal]. exists u, (String c s). repeat split; auto; discriminate.
        -- intros (u' & a & [= <-] & Ha & _ & Hok & Hal).
           rewrite He in Ha. injection Ha as <-. auto.
      * intros u' [= <-] [Hn|Hn]; rewrite He in Hn; discriminate.
      * intros u' a _ _ _. reflexivity.
    + eexists _, _. split; [reflexivity|]. split; [|split; [discriminate|split]].
      * split; [discriminate|]. intros (u' & a & [= <-] & Ha & _). congruence.
      * intros u' [= <-] _. split; reflexivity.
      * intros u' a [= <-] Ha _. congruence.
  - eexists _, _. split; [reflexivity|]. split; [|split; [|split]].
    + split; [discriminate|]. intros (u' & a & Hx & _). discriminate.
    + intros _. split; reflexivity.
    + intros u' Hx. discriminate.
    + intros u' a Hx. discriminate.
Qed.

(** X5.  [getAuthorizedUsers] never throws; it lists, each once, exactly
    the addresses with an active entry when the read goes through and nothing
    when it fails; so on the same backend an address is in the list exactly
    when [isAuthorizedUser] accepts it. *)
Theorem getAuthorizedUsers_spec (w : World) :
  ∃ l : list string,
    AuthService.getAuthorizedUsers w = (Ok l, pop w) ∧
    NoDup l ∧
    (∀ email, email ∈ l ↔ next_call_ok w ∧ allowlisted w email) ∧
    (∀ email b, AuthService.isAuthorizedUser email w = (Ok b, pop w) →
       (b = true ↔ email ∈ l)).
Proof.
  assert (Hlist : ∀ email,
            email ∈ (filter AuthService.active_entry
                       (map_to_list (db_authorizedUsers w))).*1 ↔
            allowlisted w email).
  { intros email. unfold allowlisted. rewrite list_elem_of_fmap. split.
    - intros ([k d] & -> & Hin). apply list_elem_of_filter in Hin as [Ha Hin].
      apply elem_of_map_to_list in Hin. exists d. auto.
    - intros (d & Hd & Ha). exists (email, d). split; [reflexivity|].
      apply list_elem_of_filter. split; [exact Ha|].
      apply elem_of_map_to_list. exact Hd. }
  assert (Hnd : NoDup (filter AuthService.active_entry
                         (map_to_list (db_authorizedUsers w))).*1).
  { eapply sublist_NoDup; [|apply fmap_sublist, sublist_filter].
    apply NoDup_fst_map_to_list. }
  unfold AuthService.getAuthorizedUsers, AuthService.getDocs_authorizedUsers.
  unfold_M. rewrite storeCall_spec.
  assert (Hagree : ∀ l : list string,
            (∀ email, email ∈ l ↔ next_call_ok w ∧ allowlisted w email) →
            ∀ email b, AuthService.isAuthorizedUser email w = (Ok b, pop w) →
              (b = true ↔ email ∈ l)).
  { intros l Hl email b Hb. rewrite Hl.
    destruct (isAuthorizedUser_iff w email) as (b' & Hb' & Hiff).
    rewrite Hb' in Hb. injection Hb as <-. exact Hiff. }
  unfold next_call_ok in *.
  destruct (faults w) as [|[e|] fs]; simpl in *.
  - eexists. split; [reflexivity|]. split; [exact Hnd|].
    assert (Hl : ∀ email, email ∈ (filter AuthService.active_entry
                         (map_to_list (db_authorizedUsers w))).*1 ↔
                          True ∧ allowlisted w email)
      by (intros email; rewrite Hlist; tauto).
    split; [exact Hl | apply Hagree, Hl].
  - exists []. split; [reflexivity|]. split; [constructor|].
    assert (Hl : ∀ email : string, email ∈ @nil string ↔ False ∧ allowlisted w email)
      by (intros email; rewrite elem_of_nil; tauto).
    split; [exact Hl | apply Hagree, Hl].
  - eexists. split; [reflexivity|]. split; [exact Hnd|].
    assert (Hl : ∀ email, email ∈ (filter AuthService.active_entry
                         (map_to_list (db_authorizedUsers w))).*1 ↔
                          True ∧ allowlisted w email)
      by (intros email; rewrite Hlist; tauto).
    split; [exact Hl | apply Hagree, Hl].
Qed.

(** ** The category store adapter *)

Section CategoryStore.
Context `{Platform}.

Lemma addCategory_run (userId : string) (categoryData : CategoryInput.t) (w : World) :
  CategoryService.addCategory userId categoryData w =
    match head (faults w) with
    | Some (Some _) => (Throw (Error "Failed to add category"), pop w)
    | _ =>
        (Ok (fresh (dom (db_categories w))),
         set_db_categories
           (λ m, <[fresh (dom (db_categories w)) :=
                     CategoryService.new_category_doc userId (serverTime w) categoryData]> m)
           (pop w))
    end.
Proof.
  unfold CategoryService.addCategory, CategoryService.addDoc_categories.
  unfold_M. rewrite storeCall_spec.
  destruct (head (faults w)) as [[e|]|]; reflexivity.
Qed.

Lemma addCategory_ok (userId : string) (categoryData : CategoryInput.t) (w : World) :
  next_call_ok w →
  CategoryService.addCategory userId categoryData w =
    (Ok (fresh (dom (db_categories w))),
     set_db_categories
       (λ m, <[fresh (dom (db_categories w)) :=
                 CategoryService.new_category_doc userId (serverTime w) categoryData]> m)
       (pop w)).
Proof.
  intros Hok. rewrite addCategory_run.
  pose proof (next_call_ok_head w Hok) as Hh.
  destruct (head (faults w)) as [[e|]|]; [exfalso; eapply Hh; reflexivity | reflexivity..].
Qed.

Lemma getCategory_ok (id : string) (w : World) :
  next_call_ok w →
  CategoryService.getCategory id w =
    (Ok (match db_categories w !! id with
         | Some data => Some (CategoryService.convertToCategory (id, data))
         | None => None
         end), pop w).
Proof.
  intros Hok. rewrite getCategory_run.
  pose proof (next_call_ok_head w Hok) as Hh.
  destruct (head (faults w)) as [[e|]|]; [exfalso; eapply Hh; reflexivity | reflexivity..].
Qed.

(** The records listed for a user after a document was put under a key the
    collection did not have. *)
Lemma snapshot_insert_fresh (userId : string) (id : string) (d : FirestoreCategory.t)
    (w w1 : World) :
  db_categories w !! id = None →
  db_categories w1 = <[id := d]> (db_categories w) →
  CategoryService.snapshot_userCategories userId w1 ≡ₚ
    (if decide (CategoryService.matches_user userId false (id, d))
     then [CategoryService.convertToCategory (id, d)] else []) ++
    CategoryService.snapshot_userCategories userId w.
Proof.
  intros Hnone Hw1. unfold CategoryService.snapshot_userCategories.
  rewrite !orderByCreatedAt_asc_perm, Hw1.
  rewrite map_to_list_insert by exact Hnone.
  rewrite filter_cons. destruct (decide _); reflexivity.
Qed.

(** X6.  Adding a category and reading it back: with a store that does not
    fail, [addCategory] returns an identifier the collection did not have,
    stores one document under it and changes no other; [getCategory] then
    returns the category with the given name, owned by the user, active, not
    default, with count [0] and with the stock colour and icon where none (or
    an empty one) was given; and the user's list has gained exactly this
    record. *)
Theorem addCategory_read_back (userId : string) (categoryData : CategoryInput.t)
    (w : World) :
  calm w →
  ∃ (id : string) (w1 : World),
    CategoryService.addCategory userId categoryData w = (Ok id, w1) ∧
    db_categories w !! id = None ∧
    db_categories w1 =
      <[id := CategoryService.new_category_doc userId (serverTime w) categoryData]>
        (db_categories w) ∧
    db_expenses w1 = db_expenses w ∧
    CategoryService.getCategory id w1 =
      (Ok (Some (Category.mk id userId (CategoryInput.name categoryData)
                   (Some (text_or (CategoryInput.color categoryData) "#6B7280"))
                   (Some (text_or (CategoryInput.icon categoryData) "📁"))
                   (toISOString (serverTime w)) (Js.Bool false) true (Js.Num 0))),
       pop w1) ∧
    CategoryService.snapshot_userCategories userId w1 ≡ₚ
      CategoryService.convertToCategory
        (id, CategoryService.new_category_doc userId (serverTime w) categoryData) ::
      CategoryService.snapshot_userCategories userId w.
Proof.
  intros Hcalm.
  rewrite addCategory_ok by (apply calm_next_call_ok; exact Hcalm).
  set (id := fresh (dom (db_categories w))).
  assert (Hfresh : db_categories w !! id = None)
    by (apply not_elem_of_dom, is_fresh).
  eexists _, _. split; [reflexivity|]. split; [exact Hfresh|].
  split; [reflexivity|]. split; [reflexivity|]. split.
  - rewrite getCategory_ok by (apply calm_next_call_ok, calm_pop; exact Hcalm).
    simpl. rewrite lookup_insert_eq. reflexivity.
  - rewrite (snapshot_insert_fresh userId id _ w) by (exact Hfresh || reflexivity).
    rewrite decide_True by (split; [reflexivity | right; reflexivity]).
    reflexivity.
Qed.

Lemma map_to_list_at {A} (k : string) (d : A) (m : gmap string A) :
  m !! k = Some d →
  map_to_list m ≡ₚ (k, d) :: map_to_list (delete k m) ∧
  Forall (λ x : string * A, x.1 ≠ k) (map_to_list (delete k m)).
Proof.
  intros Hk. split; [symmetry; apply map_to_list_delete; exact Hk|].
  apply Forall_forall. intros [k' x] Hin Heq. simpl in Heq. subst k'.
  apply elem_of_map_to_list in Hin. rewrite lookup_delete_eq in Hin. discriminate.
Qed.

Lemma map_to_list_alter {A} (f : A → A) (k : string) (d : A) (m : gmap string A) :
  m !! k = Some d →
  map_to_list (alter f k m) ≡ₚ (k, f d) :: map_to_list (delete k m).
Proof.
  intros Hk.
  assert (Ha : alter f k m !! k = Some (f d)) by (rewrite lookup_alter_eq, Hk; reflexivity).
  rewrite <- (map_to_list_delete _ _ _ Ha), delete_alter_eq. reflexivity.
Qed.

(** What a list query returns, up to the order of the result. *)
Lemma listing_perm (userId : string) (inc : bool) (m : gmap string FirestoreCategory.t) :
  CategoryService.convertToCategory <$>
    orderByCreatedAt_asc (filter (CategoryService.matches_user userId inc) (map_to_list m)) ≡ₚ
  CategoryService.convertToCategory <$>
    filter (CategoryService.matches_user userId inc) (map_to_list m).
Proof. rewrite orderByCreatedAt_asc_perm. reflexivity. Qed.

(** The records of the documents other than [k] are those whose identifier
    is not [k]. *)
Lemma listing_without (userId : string) (inc : bool) (k : string)
    (rest : list (string * FirestoreCategory.t)) :
  Forall (λ x : string * FirestoreCategory.t, x.1 ≠ k) rest →
  filter (λ c, Category.id c ≠ k)
    (CategoryService.convertToCategory <$>
       filter (CategoryService.matches_user userId inc) rest) =
  CategoryService.convertToCategory <$>
    filter (CategoryService.matches_user userId inc) rest.
Proof.
  intros Hrest. apply filter_all. apply Forall_forall. intros c Hc.
  apply list_elem_of_fmap in Hc as (doc & -> & Hdoc).
  apply list_elem_of_filter in Hdoc as [_ Hdoc].
  rewrite Forall_forall in Hrest. exact (Hrest doc Hdoc).
Qed.

Lemma listing_drop (userId : string) (inc : bool) (k : string) (d : FirestoreCategory.t)
    (rest : list (string * FirestoreCategory.t)) :
  Forall (λ x : string * FirestoreCategory.t, x.1 ≠ k) rest →
  filter (λ c, Category.id c ≠ k)
    (CategoryService.convertToCategory <$>
       filter (CategoryService.matches_user userId inc) ((k, d) :: rest)) =
  CategoryService.convertToCategory <$>
    filter (CategoryService.matches_user userId inc) rest.
Proof.
  intros Hrest. rewrite filter_cons.
  destruct (decide (CategoryService.matches_user userId inc (k, d))).
  - rewrite fmap_cons, filter_cons_False by (simpl; intros Hne; apply Hne; reflexivity).
    apply listing_without. exact Hrest.
  - apply listing_without. exact Hrest.
Qed.

(** X7.  Deleting a category hides it and keeps it: with a store that does
    not fail and a category document under the identifier, [deleteCategory]
    succeeds and touches no expense; afterwards every user's list of active
    categories is the former one without that identifier, the list that
    includes inactive ones still has the same identifiers, and
    [getCategory] still returns the category, with the same name and owner
    and [isActive] false. *)
Theorem deleteCategory_hides (categoryId : string) (d : FirestoreCategory.t) (w : World) :
  calm w →
  db_categories w !! categoryId = Some d →
  ∃ w1 : World,
    CategoryService.deleteCategory categoryId w = (Ok tt, w1) ∧
    db_expenses w1 = db_expenses w ∧
    dom (db_categories w1) = dom (db_categories w) ∧
    (∀ userId,
       CategoryService.snapshot_userCategories userId w1 ≡ₚ
       filter (λ c, Category.id c ≠ categoryId)
         (CategoryService.snapshot_userCategories userId w)) ∧
    (∀ userId, ∃ before after,
       CategoryService.getUserCategories userId true w = (Ok before, pop w) ∧
       CategoryService.getUserCategories userId true w1 = (Ok after, pop w1) ∧
       Category.id <$> after ≡ₚ Category.id <$> before) ∧
    ∃ c : Category.t,
      CategoryService.getCategory categoryId w1 = (Ok (Some c), pop w1) ∧
      Category.isActive c = false ∧
      Category.name c = FirestoreCategory.name d ∧
      Category.userId c = FirestoreCategory.userId d.
Proof.
  intros Hcalm Hd.
  rewrite deleteCategory_ok by (apply calm_next_call_ok || eexists; eassumption).
  eexists. split; [reflexivity|]. split; [reflexivity|].
  assert (Hcalm1 : calm (set_db_categories
            (alter (FirestoreCategory.set_isActive (Js.Bool false)) categoryId) (pop w)))
    by (apply calm_pop; exact Hcalm).
  destruct (map_to_list_at categoryId d (db_categories w) Hd) as [Hsplit Hrest].
  pose proof (map_to_list_alter (FirestoreCategory.set_isActive (Js.Bool false))
                categoryId d (db_categories w) Hd) as Halter.
  split; [simpl; apply dom_alter_L|]. split; [|split].
  - intros userId. unfold CategoryService.snapshot_userCategories.
    rewrite !listing_perm. simpl db_categories.
    rewrite Halter, Hsplit, listing_drop by exact Hrest.
    rewrite filter_cons_False; [reflexivity|].
    intros [_ [Hinc|Hact]]; discriminate.
  - intros userId.
    rewrite !getUserCategories_ok by (apply calm_next_call_ok; assumption).
    eexists _, _. split; [reflexivity|]. split; [reflexivity|].
    rewrite !listing_perm. simpl db_categories.
    rewrite Halter, Hsplit, !filter_cons.
    destruct (decide (CategoryService.matches_user userId true (categoryId, d)))
      as [Hm|Hm].
    + rewrite decide_True; [reflexivity|].
      destruct Hm as [Hu _]. split; [exact Hu | left; reflexivity].
    + rewrite decide_False; [reflexivity|].
      intros [Hu _]. apply Hm. split; [exact Hu | left; reflexivity].
  - rewrite getCategory_ok by (apply calm_next_call_ok; assumption).
    simpl db_categories. rewrite lookup_alter_eq, Hd. simpl.
    eexists. split; [reflexivity|]. repeat split.
Qed.

Lemma updateCategory_run (categoryId : string) (p : CategoryPatch.t) (w : World) :
  CategoryService.updateCategory categoryId p w =
    match head (faults w) with
    | Some (Some _) => (Throw (Error "Failed to update category"), pop w)
    | _ =>
        match db_categories w !! categoryId with
        | None => (Throw (Error "Failed to update category"), pop w)
        | Some _ =>
            (Ok tt, set_db_categories (alter (CategoryPatch.apply p) categoryId) (pop w))
        end
    end.
Proof.
  unfold CategoryService.updateCategory, CategoryService.updateDoc_categories.
  unfold_M. rewrite storeCall_spec.
  destruct (head (faults w)) as [[e|]|]; [reflexivity|..];
    simpl; destruct (db_categories w !! categoryId); reflexivity.
Qed.

Lemma permanentlyDeleteCategory_run (categoryId : string) (w : World) :
  CategoryService.permanentlyDeleteCategory categoryId w =
    match head (faults w) with
    | Some (Some _) => (Throw (Error "Failed to permanently delete category"), pop w)
    | _ => (Ok tt, set_db_categories (delete categoryId) (pop w))
    end.
Proof.
  unfold CategoryService.permanentlyDeleteCategory, CategoryService.deleteDoc_categories.
  unfold_M. rewrite storeCall_spec.
  destruct (head (faults w)) as [[e|]|]; reflexivity.
Qed.

Lemma updateCategoryExpenseCount_run (categoryId : string) (count : float) (w : World) :
  CategoryService.updateCategoryExpenseCount categoryId count w =
    (Ok tt,
     match head (faults w) with
     | Some (Some _) => pop w
     | _ =>
         match db_categories w !! categoryId with
         | None => pop w
         | Some _ =>
             set_db_categories
               (alter (FirestoreCategory.set_expenseCount (Js.Num count)) categoryId)
               (pop w)
         end
     end).
Proof.
  unfold CategoryService.updateCategoryExpenseCount,
    CategoryService.updateDoc_categories_expenseCount.
  unfold_M. rewrite storeCall_spec.
  destruct (head (faults w)) as [[e|]|]; [reflexivity|..];
    simpl; destruct (db_categories w !! categoryId); reflexivity.
Qed.

(** X8.  Writing to a category that does not exist: whatever the store
    does, [deleteCategory] and [updateCategory] report their own failure,
    [permanentlyDeleteCategory] succeeds when its request is answered, and
    [updateCategoryExpenseCount] returns normally; none of them creates the
    document or changes any other. *)
Theorem category_writes_to_missing (categoryId : string) (p : CategoryPatch.t)
    (count : float) (w : World) :
  db_categories w !! categoryId = None →
  CategoryService.deleteCategory categoryId w =
    (Throw (Error "Failed to delete category"), pop w) ∧
  CategoryService.updateCategory categoryId p w =
    (Throw (Error "Failed to update category"), pop w) ∧
  CategoryService.updateCategoryExpenseCount categoryId count w = (Ok tt, pop w) ∧
  (∃ r w', CategoryService.permanentlyDeleteCategory categoryId w = (r, w') ∧
     db_categories w' = db_categories w ∧ db_expenses w' = db_expenses w ∧
     (next_call_ok w → r = Ok tt)).
Proof.
  intros Hnone.
  rewrite deleteCategory_run, updateCategory_run, updateCategoryExpenseCount_run,
    permanentlyDeleteCategory_run, Hnone.
  split; [destruct (head (faults w)) as [[e|]|]; reflexivity|].
  split; [destruct (head (faults w)) as [[e|]|]; reflexivity|].
  split; [destruct (head (faults w)) as [[e|]|]; reflexivity|].
  pose proof (next_call_ok_head w) as Hh.
  destruct (head (faults w)) as [[e|]|]; eexists _, _;
    (split; [reflexivity|]); simpl;
    rewrite ?delete_id by exact Hnone;
    (split; [reflexivity|]); (split; [reflexivity|]); intros Hok;
    try reflexivity.
  exfalso. eapply Hh; [exact Hok | reflexivity].
Qed.

(** X9.  Removing a category for good: with a store that does not fail,
    [permanentlyDeleteCategory] succeeds whether or not the document exists
    and touches no expense; afterwards [getCategory] returns [null], no list
    of any user, with or without inactive ones, has a record of that
    identifier while the records of the other identifiers are all still
    listed, and removing it a second time changes nothing. *)
Theorem permanentlyDeleteCategory_removes (categoryId : string) (w : World) :
  calm w →
  ∃ w1 : World,
    CategoryService.permanentlyDeleteCategory categoryId w = (Ok tt, w1) ∧
    db_expenses w1 = db_expenses w ∧
    CategoryService.getCategory categoryId w1 = (Ok None, pop w1) ∧
    (∀ userId inc, ∃ before after,
       CategoryService.getUserCategories userId inc w = (Ok before, pop w) ∧
       CategoryService.getUserCategories userId inc w1 = (Ok after, pop w1) ∧
       after ≡ₚ filter (λ c, Category.id c ≠ categoryId) before) ∧
    ∃ w2 : World,
      CategoryService.permanentlyDeleteCategory categoryId w1 = (Ok tt, w2) ∧
      db_categories w2 = db_categories w1.
Proof.
  intros Hcalm.
  assert (Hcalm1 : calm (set_db_categories (delete categoryId) (pop w)))
    by (apply calm_pop; exact Hcalm).
  assert (Hrun : ∀ v, calm v →
            CategoryService.permanentlyDeleteCategory categoryId v =
              (Ok tt, set_db_categories (delete categoryId) (pop v))).
  { intros v Hv. rewrite permanentlyDeleteCategory_run.
    pose proof (next_call_ok_head v (calm_next_call_ok v Hv)) as Hh.
    destruct (head (faults v)) as [[e|]|];
      [exfalso; eapply Hh; reflexivity | reflexivity..]. }
  rewrite Hrun by exact Hcalm.
  eexists. split; [reflexivity|]. split; [reflexivity|]. split; [|split].
  - rewrite getCategory_ok by (apply calm_next_call_ok; exact Hcalm1).
    simpl db_categories. rewrite lookup_delete_eq. reflexivity.
  - intros userId inc.
    rewrite !getUserCategories_ok by (apply calm_next_call_ok; assumption).
    eexists _, _. split; [reflexivity|]. split; [reflexivity|].
    rewrite !listing_perm. simpl db_categories.
    destruct (db_categories w !! categoryId) as [d|] eqn:Hd.
    + destruct (map_to_list_at categoryId d (db_categories w) Hd) as [Hsplit Hrest].
      rewrite Hsplit. rewrite listing_drop by exact Hrest. reflexivity.
    + rewrite delete_id by exact Hd. symmetry.
      rewrite filter_all; [reflexivity|].
      apply Forall_forall. intros c Hc.
      apply list_elem_of_fmap in Hc as ([k x] & -> & Hdoc).
      apply list_elem_of_filter in Hdoc as [_ Hdoc].
      apply elem_of_map_to_list in Hdoc. simpl. intros ->. congruence.
  - rewrite Hrun by exact Hcalm1.
    eexists. split; [reflexivity|]. simpl. apply delete_id, lookup_delete_eq.
Qed.

(** X10.  A deleted category can be brought back: with a store that does
    not fail and an active category document under the identifier,
    [deleteCategory] followed by [updateCategory] with [{ isActive: true }]
    leaves the categories collection exactly as it was. *)
Theorem deleteCategory_then_reactivate (categoryId : string) (d : FirestoreCategory.t)
    (w : World) :
  calm w →
  db_categories w !! categoryId = Some d →
  FirestoreCategory.isActive d = Js.Bool true →
  ∃ w1 w2 : World,
    CategoryService.deleteCategory categoryId w = (Ok tt, w1) ∧
    CategoryService.updateCategory categoryId
      (CategoryPatch.mk None None None (Some true)) w1 = (Ok tt, w2) ∧
    db_categories w2 = db_categories w ∧
    db_expenses w2 = db_expenses w.
Proof.
  intros Hcalm Hd Hactive.
  rewrite deleteCategory_ok by (apply calm_next_call_ok || eexists; eassumption).
  eexists _, _. split; [reflexivity|].
  rewrite updateCategory_run. simpl db_categories.
  rewrite lookup_alter_eq, Hd. simpl.
  pose proof (next_call_ok_head (pop w) (calm_next_call_ok _ (calm_pop _ Hcalm))) as Hh.
  assert (Hback : alter (CategoryPatch.apply (CategoryPatch.mk None None None (Some true)))
                    categoryId
                    (alter (FirestoreCategory.set_isActive (Js.Bool false)) categoryId
                       (db_categories w)) = db_categories w).
  { apply map_eq. intros k. destruct (decide (k = categoryId)) as [->|Hne].
    - rewrite !lookup_alter_eq, Hd. simpl. f_equal.
      destruct d; simpl in *. subst. reflexivity.
    - rewrite !lookup_alter_ne by congruence. reflexivity. }
  simpl in Hh.
  destruct (head (tail (faults w))) as [[e|]|] eqn:Hhead;
    [exfalso; eapply Hh; reflexivity|..];
    (split; [reflexivity|]); simpl; (split; [exact Hback | reflexivity]).
Qed.

End CategoryStore.

(** ** Seeding and counting *)

Section Ensuring.
Context `{Platform}.

(** X11.  Recording a category's expense count never fails and is confined
    to that one field: whatever the store does, [updateCategoryExpenseCount]
    returns normally, touches no expense, creates and removes no category
    document and leaves every other one as it was; the addressed document,
    if any, keeps its owner, name and flags, and when the request is
    answered carries the new count. *)
Theorem updateCategoryExpenseCount_quiet (categoryId : string) (count : float)
    (w : World) :
  ∃ w' : World,
    CategoryService.updateCategoryExpenseCount categoryId count w = (Ok tt, w') ∧
    db_expenses w' = db_expenses w ∧
    (∀ k, k ≠ categoryId → db_categories w' !! k = db_categories w !! k) ∧
    (db_categories w !! categoryId = None → db_categories w' !! categoryId = None) ∧
    (∀ d, db_categories w !! categoryId = Some d →
       ∃ d', db_categories w' !! categoryId = Some d' ∧
         FirestoreCategory.userId d' = FirestoreCategory.userId d ∧
         FirestoreCategory.name d' = FirestoreCategory.name d ∧
         FirestoreCategory.isActive d' = FirestoreCategory.isActive d ∧
         FirestoreCategory.isDefault d' = FirestoreCategory.isDefault d ∧
         (next_call_ok w → FirestoreCategory.expenseCount d' = Js.Num count)).
Proof.
  rewrite updateCategoryExpenseCount_run.
  pose proof (next_call_ok_head w) as Hh.
  eexists. split; [reflexivity|].
  assert (Hkeep : ∀ d, db_categories w !! categoryId = Some d →
            ∃ d', db_categories (pop w) !! categoryId = Some d' ∧
              FirestoreCategory.userId d' = FirestoreCategory.userId d ∧
              FirestoreCategory.name d' = FirestoreCategory.name d ∧
              FirestoreCategory.isActive d' = FirestoreCategory.isActive d ∧
              FirestoreCategory.isDefault d' = FirestoreCategory.isDefault d ∧
              (head (faults w) ≠ None → head (faults w) ≠ Some None →
               next_call_ok w → FirestoreCategory.expenseCount d' = Js.Num count)).
  { intros d Hd. exists d. split; [exact Hd|]. do 4 (split; [reflexivity|]).
    intros Hn1 Hn2 Hok. exfalso.
    destruct (head (faults w)) as [[e|]|] eqn:Hhead; try congruence.
    eapply Hh; [exact Hok | reflexivity]. }
  assert (Hset : ∀ d, db_categories w !! categoryId = Some d →
            ∃ d', alter (FirestoreCategory.set_expenseCount (Js.Num count)) categoryId
                    (db_categories w) !! categoryId = Some d' ∧
              FirestoreCategory.userId d' = FirestoreCategory.userId d ∧
              FirestoreCategory.name d' = FirestoreCategory.name d ∧
              FirestoreCategory.isActive d' = FirestoreCategory.isActive d ∧
              FirestoreCategory.isDefault d' = FirestoreCategory.isDefault d ∧
              (next_call_ok w → FirestoreCategory.expenseCount d' = Js.Num count)).
  { intros d Hd. rewrite lookup_alter_eq, Hd. simpl. eexists. split; [reflexivity|].
    destruct d; repeat split. }
  destruct (head (faults w)) as [[e|]|] eqn:Hhead;
    destruct (db_categories w !! categoryId) as [d0|] eqn:Hd.
  - split; [reflexivity|]. split; [reflexivity|]. split; [discriminate|].
    intros d Hdd. destruct (Hkeep d Hdd) as (d' & H1 & H2 & H3 & H4 & H5 & H6).
    exists d'. split; [exact H1|]. do 4 (split; [assumption|]). intros Hok. apply H6; [discriminate..|exact Hok].
  - split; [reflexivity|]. split; [reflexivity|]. split; [intros _; exact Hd | discriminate].
  - split; [reflexivity|].
    split; [intros k Hk; simpl; rewrite lookup_alter_ne by congruence; reflexivity|].
    split; [discriminate|]. intros d Hdd. exact (Hset d Hdd).
  - split; [reflexivity|]. split; [reflexivity|]. split; [intros _; exact Hd | discriminate].
  - split; [reflexivity|].
    split; [intros k Hk; simpl; rewrite lookup_alter_ne by congruence; reflexivity|].
    split; [discriminate|]. intros d Hdd. exact (Hset d Hdd).
  - split; [reflexivity|]. split; [reflexivity|]. split; [intros _; exact Hd | discriminate].
Qed.

Lemma ensure_existing_run (userId : string) (w : World) :
  next_call_ok w →
  CategoryService.snapshot_userCategories userId w ≠ [] →
  CategoryService.ensureUserHasCategories userId w =
    (Ok (CategoryService.snapshot_userCategories userId w), pop w).
Proof.
  intros Hok Hne. rewrite ensure_split. unfold mbind, M_bind, settle.
  rewrite getUserCategories_ok by exact Hok.
  apply ensure_resume_nonempty.
  intros Hlen. apply Hne. apply length_zero_iff_nil. exact Hlen.
Qed.

Lemma ensure_read_fails (userId : string) (w : World) :
  ¬ next_call_ok w →
  CategoryService.ensureUserHasCategories userId w =
    (Throw (Error "Failed to ensure user has categories"), pop w).
Proof.
  intros Hbad. rewrite ensure_split. unfold mbind, M_bind, settle.
  rewrite getUserCategories_run.
  unfold next_call_ok in Hbad. unfold pop.
  destruct (faults w) as [|[e|] fs]; simpl in *; try (exfalso; apply Hbad; exact I).
  reflexivity.
Qed.

(** X12.  [ensureUserHasCategories] writes only after a read that came back
    empty: for a user with an active category it returns the user's active
    categories as they are, and when the read fails it reports its own
    failure; in both cases no document is created or changed. *)
Theorem ensure_writes_only_when_empty (userId : string) (w : World) :
  CategoryService.snapshot_userCategories userId w ≠ [] ∨ ¬ next_call_ok w →
  ∃ r : result (list Category.t),
    CategoryService.ensureUserHasCategories userId w = (r, pop w) ∧
    (next_call_ok w → r = Ok (CategoryService.snapshot_userCategories userId w)) ∧
    (¬ next_call_ok w → r = Throw (Error "Failed to ensure user has categories")).
Proof.
  intros Hcase.
  assert (Hdec : next_call_ok w ∨ ¬ next_call_ok w).
  { unfold next_call_ok. destruct (faults w) as [|[e|] fs]; auto. }
  destruct Hdec as [Hok|Hbad].
  - destruct Hcase as [Hne|Hbad]; [|contradiction].
    rewrite ensure_existing_run by assumption.
    eexists. split; [reflexivity|]. split; [reflexivity | contradiction].
  - rewrite ensure_read_fails by exact Hbad.
    eexists. split; [reflexivity|]. split; [contradiction | reflexivity].
Qed.

Lemma snapshot_nil (userId : string) (w : World) :
  CategoryService.snapshot_userCategories userId w = [] →
  filter (CategoryService.matches_user userId false) (map_to_list (db_categories w)) = [].
Proof.
  unfold CategoryService.snapshot_userCategories. intros Hnil.
  apply fmap_nil_inv in Hnil.
  apply Permutation_nil_r. rewrite <- Hnil. symmetry. apply orderByCreatedAt_asc_perm.
Qed.

(** X13.  A user left without an active category is seeded again: with a
    store that does not fail, [ensureUserHasCategories] for a user whose
    list of active categories is empty returns eight new records named as
    the defaults; the user's documents afterwards are the eight new ones
    together with all the former ones, which stay as they were (inactive),
    so the user's active categories are exactly the eight returned. *)
Theorem ensure_reseeds_without_active (userId : string) (w : World) :
  calm w →
  CategoryService.snapshot_userCategories userId w = [] →
  ∃ (cats : list Category.t) (w' : World),
    CategoryService.ensureUserHasCategories userId w = (Ok cats, w') ∧
    length cats = 8 ∧
    Category.name <$> cats = CategoryService.name <$> CategoryService.defaultCategories ∧
    db_expenses w' = db_expenses w ∧
    user_categories userId w' ≡ₚ
      zip (Category.id <$> cats)
        (CategoryService.default_doc userId (serverTime w) <$>
           CategoryService.defaultCategories) ++
      user_categories userId w ∧
    CategoryService.snapshot_userCategories userId w' ≡ₚ
      CategoryService.convertToCategory <$>
        zip (Category.id <$> cats)
          (CategoryService.default_doc userId (serverTime w) <$>
             CategoryService.defaultCategories).
Proof.
  intros Hcalm Hnil.
  pose proof (snapshot_nil userId w Hnil) as Hfil.
  rewrite ensure_split. unfold mbind, M_bind, settle.
  rewrite getUserCategories_ok by (apply calm_next_call_ok; exact Hcalm).
  rewrite Hfil, orderByCreatedAt_asc_nil. simpl fmap.
  rewrite ensure_resume_empty. unfold try_catch.
  destruct (createDefaultCategories_run userId (pop w))
    as (r & ids & w' & Hrun & _ & _ & _ & Hex & Hperm & Hok).
  destruct (Hok (calm_pop w Hcalm)) as (-> & Hlen & _).
  rewrite Hrun.
  assert (Hids : Category.id <$>
                   zip_with (CategoryService.default_record userId (clientTime (pop w)))
                     ids CategoryService.defaultCategories = ids).
  { do 9 (destruct ids as [|? ids]; try discriminate Hlen). reflexivity. }
  eexists _, _. split; [reflexivity|].
  split; [do 9 (destruct ids as [|? ids]; try discriminate Hlen); reflexivity|].
  split; [do 9 (destruct ids as [|? ids]; try discriminate Hlen); reflexivity|].
  split; [exact Hex|].
  rewrite Hids. split.
  - unfold user_categories. rewrite Hperm, filter_app.
    rewrite filter_all; [reflexivity|].
    eapply Forall_impl; [apply default_docs_owned|]. intros doc [Hu _]. exact Hu.
  - unfold CategoryService.snapshot_userCategories.
    rewrite orderByCreatedAt_asc_perm, Hperm, filter_app.
    change (db_categories (pop w)) with (db_categories w). rewrite Hfil, app_nil_r.
    rewrite filter_all; [reflexivity|].
    eapply Forall_impl; [apply default_docs_owned|]. intros doc [Hu Ha].
    split; [exact Hu | right; exact Ha].
Qed.

Lemma seed_loop_fails (userId : string) (l : list CategoryService.DefaultCategory) :
  ∀ (k : nat) (acc : list Category.t) (w : World) (e : exn) (fs : list (option exn)),
    faults w = replicate k None ++ Some e :: fs →
    k < length l →
    ∃ (ids : list string) (w' : World),
      fold_of l acc (CategoryService.createDefaultCategories_body userId) w = (Throw e, w') ∧
      faults w' = fs ∧
      length ids = k ∧
      db_expenses w' = db_expenses w ∧
      map_to_list (db_categories w') ≡ₚ
        zip ids (CategoryService.default_doc userId (serverTime w) <$> l) ++
        map_to_list (db_categories w).
Proof.
  induction l as [|dc l IH]; intros k acc w e fs Hf Hk; [simpl in Hk; lia|].
  simpl fold_of. unfold mbind, M_bind. rewrite createDefaultCategories_body_run.
  destruct k as [|k].
  - simpl in Hf. rewrite Hf. simpl.
    exists [], (pop w). split; [reflexivity|].
    split; [unfold pop; destruct w; simpl in *; rewrite Hf; reflexivity|].
    split; [reflexivity|]. split; [reflexivity|]. reflexivity.
  - simpl in Hf. rewrite Hf. simpl head. cbv beta iota.
    set (id := fresh (dom (db_categories w))).
    set (w1 := set_db_categories _ (pop w)).
    assert (Hf1 : faults w1 = replicate k None ++ Some e :: fs).
    { subst w1. unfold pop. destruct w; simpl in *. rewrite Hf. reflexivity. }
    destruct (IH k (acc ++ [CategoryService.default_record userId (clientTime w) id dc])
                w1 e fs Hf1 ltac:(simpl in Hk; lia))
      as (ids & w' & Hrun & Hfs & Hlen & Hex & Hperm).
    exists (id :: ids), w'. split; [exact Hrun|]. split; [exact Hfs|].
    split; [simpl; lia|]. split; [exact Hex|].
    rewrite Hperm. subst w1 id. simpl.
    rewrite map_to_list_insert_fresh.
    apply Permutation_sym, Permutation_middle.
Qed.

(** X14.  Seeding is not undone when it fails part-way: if the store
    answers [k] requests (fewer than eight) and fails the next,
    [createDefaultCategories] reports its failure and the documents of the
    first [k] default categories stay in the store, under new identifiers;
    and a later [ensureUserHasCategories] whose read is answered returns
    just those (when [k] is not zero) and creates nothing more. *)
Theorem createDefaultCategories_keeps_partial (userId : string) (k : nat) (e : exn)
    (fs : list (option exn)) (w : World) :
  faults w = replicate k None ++ Some e :: fs →
  k < 8 →
  ∃ (ids : list string) (w' : World),
    CategoryService.createDefaultCategories userId w =
      (Throw (Error "Failed to create default categories"), w') ∧
    faults w' = fs ∧
    length ids = k ∧
    db_expenses w' = db_expenses w ∧
    map_to_list (db_categories w') ≡ₚ
      zip ids (CategoryService.default_doc userId (serverTime w) <$>
                 take k CategoryService.defaultCategories) ++
      map_to_list (db_categories w) ∧
    (0 < k → next_call_ok w' →
       ∃ cats, CategoryService.ensureUserHasCategories userId w' = (Ok cats, pop w') ∧
               k ≤ length cats).
Proof.
  intros Hf Hk.
  destruct (seed_loop_fails userId CategoryService.defaultCategories k [] w e fs Hf Hk)
    as (ids & w' & Hrun & Hfs & Hlen & Hex & Hperm).
  assert (Hzip : zip ids (CategoryService.default_doc userId (serverTime w) <$>
                            CategoryService.defaultCategories) =
                 zip ids (CategoryService.default_doc userId (serverTime w) <$>
                            take k CategoryService.defaultCategories)).
  { rewrite fmap_take. rewrite <- Hlen.
    generalize (CategoryService.default_doc userId (serverTime w) <$>
                  CategoryService.defaultCategories).
    clear. induction ids as [|i ids IH]; intros [|d l]; simpl; try reflexivity.
    f_equal. apply IH. }
  exists ids, w'. unfold CategoryService.createDefaultCategories, try_catch.
  rewrite Hrun. split; [reflexivity|]. split; [exact Hfs|]. split; [exact Hlen|].
  split; [exact Hex|]. split; [rewrite <- Hzip; exact Hperm|].
  intros Hpos Hok.
  assert (Hsnap : CategoryService.snapshot_userCategories userId w' ≡ₚ
            CategoryService.convertToCategory <$>
              (zip ids (CategoryService.default_doc userId (serverTime w) <$>
                          CategoryService.defaultCategories) ++
               filter (CategoryService.matches_user userId false)
                 (map_to_list (db_categories w)))).
  { unfold CategoryService.snapshot_userCategories.
    rewrite orderByCreatedAt_asc_perm, Hperm, filter_app.
    rewrite filter_all; [reflexivity|].
    eapply Forall_impl; [apply default_docs_owned|]. intros doc [Hu Ha].
    split; [exact Hu | right; exact Ha]. }
  assert (Hlen' : k ≤ length (CategoryService.snapshot_userCategories userId w')).
  { rewrite Hsnap, length_fmap, length_app, length_zip, length_fmap.
    change (length CategoryService.defaultCategories) with 8. lia. }
  rewrite ensure_existing_run; [eexists; split; [reflexivity | exact Hlen']| exact Hok |].
  intros Hnil. rewrite Hnil in Hlen'. simpl in Hlen'. lia.
Qed.

End Ensuring.

(** ** The expense store adapter *)

Section ExpenseStore.
Context `{Platform}.

Lemma addExpense_run (userId : string) (expenseData : ExpenseInput.t) (w : World) :
  ExpenseService.addExpense userId expenseData w =
    match head (faults w) with
    | Some (Some _) => (Throw (Error "Failed to add expense"), pop w)
    | _ =>
        (Ok (fresh (dom (db_expenses w))),
         set_db_expenses
           (λ m, <[fresh (dom (db_expenses w)) :=
                     ExpenseService.new_expense_doc userId (serverTime w) expenseData]> m)
           (pop w))
    end.
Proof.
  unfold ExpenseService.addExpense, ExpenseService.addDoc_expenses.
  unfold_M. rewrite storeCall_spec.
  destruct (head (faults w)) as [[e|]|]; reflexivity.
Qed.

Lemma getExpense_run (id : string) (w : World) :
  ExpenseService.getExpense id w =
    (match head (faults w) with
     | Some (Some _) => Throw (Error "Failed to get expense")
     | _ => Ok (match db_expenses w !! id with
                | Some data => Some (ExpenseService.convertToExpense (id, data))
                | None => None
                end)
     end, pop w).
Proof.
  unfold ExpenseService.getExpense, ExpenseService.getDoc_expenses.
  unfold_M. rewrite storeCall_spec.
  destruct (head (faults w)) as [[e|]|]; reflexivity.
Qed.

Lemma getExpense_ok (id : string) (w : World) :
  next_call_ok w →
  ExpenseService.getExpense id w =
    (Ok (match db_expenses w !! id with
         | Some data => Some (ExpenseService.convertToExpense (id, data))
         | None => None
         end), pop w).
Proof.
  intros Hok. rewrite getExpense_run.
  pose proof (next_call_ok_head w Hok) as Hh.
  destruct (head (faults w)) as [[e|]|]; [exfalso; eapply Hh; reflexivity | reflexivity..].
Qed.

Lemma deleteExpense_run (expenseId : string) (w : World) :
  ExpenseService.deleteExpense expenseId w =
    match head (faults w) with
    | Some (Some _) => (Throw (Error "Failed to delete expense"), pop w)
    | _ => (Ok tt, set_db_expenses (delete expenseId) (pop w))
    end.
Proof.
  unfold ExpenseService.deleteExpense, ExpenseService.deleteDoc_expenses.
  unfold_M. rewrite storeCall_spec.
  destruct (head (faults w)) as [[e|]|]; reflexivity.
Qed.

Lemma getExpensesByCategory_run (userId category : string) (w : World) :
  ExpenseService.getExpensesByCategory userId category w =
    (match head (faults w) with
     | Some (Some _) => Throw (Error "Failed to get expenses by category")
     | _ => Ok (ExpenseService.convertToExpense <$>
                  ExpenseService.query_expensesByCategory userId category w)
     end, pop w).
Proof.
  unfold ExpenseService.getExpensesByCategory.
  unfold_M. rewrite storeCall_spec.
  destruct (head (faults w)) as [[e|]|]; reflexivity.
Qed.

(** What the expense listener shows, up to the order of the result. *)
Lemma expenses_perm (userId : string) (m : gmap string FirestoreExpense.t) :
  ExpenseService.convertToExpense <$>
    orderByCreatedAt_desc
      (filter (λ doc : string * FirestoreExpense.t, FirestoreExpense.userId doc.2 = userId)
         (map_to_list m)) ≡ₚ
  ExpenseService.convertToExpense <$>
    filter (λ doc : string * FirestoreExpense.t, FirestoreExpense.userId doc.2 = userId)
      (map_to_list m).
Proof. rewrite orderByCreatedAt_desc_perm. reflexivity. Qed.

Lemma expenses_without (userId : string) (k : string)
    (rest : list (string * FirestoreExpense.t)) :
  Forall (λ x : string * FirestoreExpense.t, x.1 ≠ k) rest →
  filter (λ e, Expense.id e ≠ k)
    (ExpenseService.convertToExpense <$>
       filter (λ doc : string * FirestoreExpense.t, FirestoreExpense.userId doc.2 = userId)
         rest) =
  ExpenseService.convertToExpense <$>
    filter (λ doc : string * FirestoreExpense.t, FirestoreExpense.userId doc.2 = userId) rest.
Proof.
  intros Hrest. apply filter_all. apply Forall_forall. intros c Hc.
  apply list_elem_of_fmap in Hc as (doc & -> & Hdoc).
  apply list_elem_of_filter in Hdoc as [_ Hdoc].
  rewrite Forall_forall in Hrest. exact (Hrest doc Hdoc).
Qed.

Lemma expenses_drop (userId : string) (k : string) (d : FirestoreExpense.t)
    (rest : list (string * FirestoreExpense.t)) :
  Forall (λ x : string * FirestoreExpense.t, x.1 ≠ k) rest →
  filter (λ e, Expense.id e ≠ k)
    (ExpenseService.convertToExpense <$>
       filter (λ doc : string * FirestoreExpense.t, FirestoreExpense.userId doc.2 = userId)
         ((k, d) :: rest)) =
  ExpenseService.convertToExpense <$>
    filter (λ doc : string * FirestoreExpense.t, FirestoreExpense.userId doc.2 = userId) rest.
Proof.
  intros Hrest. rewrite filter_cons.
  destruct (decide (FirestoreExpense.userId (k, d).2 = userId)).
  - rewrite fmap_cons, filter_cons_False by (simpl; intros Hne; apply Hne; reflexivity).
    apply expenses_without. exact Hrest.
  - apply expenses_without. exact Hrest.
Qed.

(** X15.  Adding an expense and reading it back: with a store that does not
    fail, [addExpense] returns an identifier the collection did not have and
    stores one document under it, changing no other expense and no category
    (the stored expense counts stay as they were); [getExpense] then returns
    the expense with the data given and the server's time as creation time;
    the owner's list has gained exactly this record, the lists of the other
    users are as before, and the owner has one more expense under the
    category of the new one. *)
Theorem addExpense_read_back (userId : string) (expenseData : ExpenseInput.t)
    (w : World) :
  calm w →
  ∃ (id : string) (w1 : World),
    ExpenseService.addExpense userId expenseData w = (Ok id, w1) ∧
    db_expenses w !! id = None ∧
    db_expenses w1 =
      <[id := ExpenseService.new_expense_doc userId (serverTime w) expenseData]>
        (db_expenses w) ∧
    db_categories w1 = db_categories w ∧
    ExpenseService.getExpense id w1 =
      (Ok (Some (Expense.mk id (ExpenseInput.amount expenseData)
                   (ExpenseInput.description expenseData)
                   (ExpenseInput.category expenseData)
                   (ExpenseInput.date expenseData)
                   (toISOString (serverTime w)))), pop w1) ∧
    ExpenseService.snapshot_userExpenses userId w1 ≡ₚ
      Expense.mk id (ExpenseInput.amount expenseData)
        (ExpenseInput.description expenseData)
        (ExpenseInput.category expenseData)
        (ExpenseInput.date expenseData)
        (toISOString (serverTime w)) ::
      ExpenseService.snapshot_userExpenses userId w ∧
    (∀ other, other ≠ userId →
       ExpenseService.snapshot_userExpenses other w1 ≡ₚ
       ExpenseService.snapshot_userExpenses other w) ∧
    count_category userId (ExpenseInput.category expenseData) w1 =
      S (count_category userId (ExpenseInput.category expenseData) w).
Proof.
  intros Hcalm. rewrite addExpense_run.
  pose proof (next_call_ok_head w (calm_next_call_ok w Hcalm)) as Hh.
  set (id := fresh (dom (db_expenses w))).
  set (d := ExpenseService.new_expense_doc userId (serverTime w) expenseData).
  set (w1 := set_db_expenses (λ m, <[id := d]> m) (pop w)).
  assert (Hfresh : db_expenses w !! id = None) by (apply not_elem_of_dom, is_fresh).
  assert (Hlist : map_to_list (db_expenses w1) ≡ₚ (id, d) :: map_to_list (db_expenses w))
    by (apply map_to_list_insert; exact Hfresh).
  exists id, w1. split.
  { destruct (head (faults w)) as [[e|]|]; [exfalso; eapply Hh; reflexivity | reflexivity..]. }
  split; [exact Hfresh|]. split; [reflexivity|]. split; [reflexivity|].
  split; [|split; [|split]].
  - rewrite getExpense_ok by (apply calm_next_call_ok, calm_pop; exact Hcalm).
    simpl db_expenses. rewrite lookup_insert_eq. reflexivity.
  - unfold ExpenseService.snapshot_userExpenses, ExpenseService.query_userExpenses.
    rewrite !expenses_perm, Hlist, filter_cons_True by reflexivity. reflexivity.
  - intros other Hother.
    unfold ExpenseService.snapshot_userExpenses, ExpenseService.query_userExpenses.
    rewrite !expenses_perm, Hlist, filter_cons_False; [reflexivity|].
    simpl. congruence.
  - unfold count_category. rewrite Hlist, filter_cons_True by (split; reflexivity).
    reflexivity.
Qed.

(** X16.  Deleting an expense: with a store that does not fail,
    [deleteExpense] succeeds whether or not the expense exists and changes
    no category; afterwards [getExpense] returns [null], every user's list
    is the former one without that identifier, and deleting it a second time
    changes nothing. *)
Theorem deleteExpense_removes (expenseId : string) (w : World) :
  calm w →
  ∃ w1 : World,
    ExpenseService.deleteExpense expenseId w = (Ok tt, w1) ∧
    db_categories w1 = db_categories w ∧
    ExpenseService.getExpense expenseId w1 = (Ok None, pop w1) ∧
    (∀ userId,
       ExpenseService.snapshot_userExpenses userId w1 ≡ₚ
       filter (λ e, Expense.id e ≠ expenseId)
         (ExpenseService.snapshot_userExpenses userId w)) ∧
    ∃ w2 : World,
      ExpenseService.deleteExpense expenseId w1 = (Ok tt, w2) ∧
      db_expenses w2 = db_expenses w1.
Proof.
  intros Hcalm.
  assert (Hcalm1 : calm (set_db_expenses (delete expenseId) (pop w)))
    by (apply calm_pop; exact Hcalm).
  assert (Hrun : ∀ v, calm v →
            ExpenseService.deleteExpense expenseId v =
              (Ok tt, set_db_expenses (delete expenseId) (pop v))).
  { intros v Hv. rewrite deleteExpense_run.
    pose proof (next_call_ok_head v (calm_next_call_ok v Hv)) as Hh.
    destruct (head (faults v)) as [[e|]|];
      [exfalso; eapply Hh; reflexivity | reflexivity..]. }
  rewrite Hrun by exact Hcalm.
  eexists. split; [reflexivity|]. split; [reflexivity|]. split; [|split].
  - rewrite getExpense_ok by (apply calm_next_call_ok; exact Hcalm1).
    simpl db_expenses. rewrite lookup_delete_eq. reflexivity.
  - intros userId.
    unfold ExpenseService.snapshot_userExpenses, ExpenseService.query_userExpenses.
    rewrite !expenses_perm. simpl db_expenses.
    destruct (db_expenses w !! expenseId) as [d|] eqn:Hd.
    + destruct (map_to_list_at expenseId d (db_expenses w) Hd) as [Hsplit Hrest].
      rewrite Hsplit. rewrite expenses_drop by exact Hrest. reflexivity.
    + rewrite delete_id by exact Hd. symmetry.
      rewrite filter_all; [reflexivity|].
      apply Forall_forall. intros c Hc.
      apply list_elem_of_fmap in Hc as ([k x] & -> & Hdoc).
      apply list_elem_of_filter in Hdoc as [_ Hdoc].
      apply elem_of_map_to_list in Hdoc. simpl. intros ->. congruence.
  - rewrite Hrun by exact Hcalm1.
    eexists. split; [reflexivity|]. simpl. apply delete_id, lookup_delete_eq.
Qed.

(** X17.  Updating an expense and reading it back: with a store that does
    not fail and a document under the identifier, [updateExpense] succeeds,
    changes no category and no other expense, and keeps the owner; a later
    [getExpense] returns the record read before with the fields of the
    update replaced, under the same identifier even when the update carries
    an [id] of its own; and every user has as many expenses as before. *)
Theorem updateExpense_read_back (expenseId : string) (p : ExpensePatch.t)
    (d : FirestoreExpense.t) (w : World) :
  calm w →
  db_expenses w !! expenseId = Some d →
  ∃ w1 : World,
    ExpenseService.updateExpense expenseId p w = (Ok tt, w1) ∧
    db_categories w1 = db_categories w ∧
    (∀ k, k ≠ expenseId → db_expenses w1 !! k = db_expenses w !! k) ∧
    (∃ d', db_expenses w1 !! expenseId = Some d' ∧
           FirestoreExpense.userId d' = FirestoreExpense.userId d) ∧
    ExpenseService.getExpense expenseId w1 =
      (Ok (Some (patched p (ExpenseService.convertToExpense (expenseId, d)))), pop w1) ∧
    (∀ userId,
       length (ExpenseService.snapshot_userExpenses userId w1) =
       length (ExpenseService.snapshot_userExpenses userId w)).
Proof.
  intros Hcalm Hd.
  rewrite updateExpense_ok by (apply calm_next_call_ok || eexists; eassumption).
  eexists. split; [reflexivity|]. split; [reflexivity|].
  split; [intros k Hk; simpl; rewrite lookup_alter_ne by congruence; reflexivity|].
  split; [simpl; rewrite lookup_alter_eq, Hd; simpl; eexists; split; reflexivity|].
  split.
  - rewrite getExpense_ok by (apply calm_next_call_ok, calm_pop; exact Hcalm).
    simpl db_expenses. rewrite lookup_alter_eq, Hd. simpl.
    unfold patched, ExpenseService.convertToExpense. simpl.
    destruct (ExpensePatch.createdAt p); reflexivity.
  - intros userId.
    unfold ExpenseService.snapshot_userExpenses, ExpenseService.query_userExpenses.
    rewrite !length_fmap, !orderByCreatedAt_desc_perm. simpl db_expenses.
    pose proof (count_alter
                  (λ doc : string * FirestoreExpense.t,
                     FirestoreExpense.userId doc.2 = userId)
                  (ExpensePatch.apply p (Timestamp (serverTime w))) expenseId d
                  (db_expenses w) Hd) as Hcount.
    simpl in Hcount.
    destruct (decide (FirestoreExpense.userId d = userId)); lia.
Qed.

(** X18.  The category query agrees with the list of all expenses: when its
    request is answered, [getExpensesByCategory] returns exactly those of
    the user's expenses (as [getUserExpenses] and the listener show them)
    that carry the category, as many as the user has expense documents
    under that name. *)
Theorem getExpensesByCategory_agrees (userId category : string) (w : World) :
  next_call_ok w →
  ∃ l : list Expense.t,
    ExpenseService.getExpensesByCategory userId category w = (Ok l, pop w) ∧
    ExpenseService.getUserExpenses userId w =
      (Ok (ExpenseService.snapshot_userExpenses userId w), pop w) ∧
    l ≡ₚ filter (λ e, Expense.category e = category)
           (ExpenseService.snapshot_userExpenses userId w) ∧
    length l = count_category userId category w.
Proof.
  intros Hok. rewrite getExpensesByCategory_run, getUserExpenses_run.
  pose proof (next_call_ok_head w Hok) as Hh.
  assert (Hperm : ExpenseService.convertToExpense <$>
                    ExpenseService.query_expensesByCategory userId category w ≡ₚ
                  filter (λ e, Expense.category e = category)
                    (ExpenseService.snapshot_userExpenses userId w)).
  { unfold ExpenseService.query_expensesByCategory, ExpenseService.snapshot_userExpenses,
      ExpenseService.query_userExpenses.
    rewrite !orderByCreatedAt_desc_perm, filter_fmap_comm, list_filter_filter.
    apply Permutation_refl'. f_equal. apply filter_ext_Forall.
    apply Forall_forall. intros [k x] _. simpl. tauto. }
  eexists. split; [|split; [|split; [exact Hperm|]]].
  - destruct (head (faults w)) as [[e|]|]; [exfalso; eapply Hh; reflexivity | reflexivity..].
  - destruct (head (faults w)) as [[e|]|]; [exfalso; eapply Hh; reflexivity | reflexivity..].
  - rewrite Hperm. apply (snapshot_under_name userId category w).
Qed.

End ExpenseStore.

(** ** The category-management screen *)

Section CategoryScreen.
Context `{Platform}.

(** A loop whose body leaves the categories alone leaves them alone. *)
Lemma for_of_categories {A} (body : A → M unit) (l : list A) :
  (∀ x w r w', body x w = (r, w') → db_categories w' = db_categories w) →
  ∀ w r w', for_of l body w = (r, w') → db_categories w' = db_categories w.
Proof.
  intros Hbody. induction l as [|x l IH]; intros w r w' Hrun.
  - injection Hrun as _ <-. reflexivity.
  - simpl in Hrun. unfold mbind, M_bind in Hrun.
    destruct (body x w) as [[[]|e] w1] eqn:Hx.
    + rewrite (IH _ _ _ Hrun). eapply Hbody; eassumption.
    + injection Hrun as _ <-. eapply Hbody; eassumption.
Qed.

Lemma updateExpense_frame (expenseId : string) (p : ExpensePatch.t) (w : World)
    (r : result unit) (w' : World) :
  ExpenseService.updateExpense expenseId p w = (r, w') →
  db_categories w' = db_categories w ∧
  dom (db_expenses w') = dom (db_expenses w) ∧
  (∀ k d', db_expenses w' !! k = Some d' →
     ∃ d, db_expenses w !! k = Some d ∧
          FirestoreExpense.userId d' = FirestoreExpense.userId d).
Proof.
  rewrite updateExpense_run. intros Hrun.
  assert (Hsame : (r, w') = (Throw (Error "Failed to update expense"), pop w) →
            db_categories w' = db_categories w ∧
            dom (db_expenses w') = dom (db_expenses w) ∧
            (∀ k d', db_expenses w' !! k = Some d' →
               ∃ d, db_expenses w !! k = Some d ∧
                    FirestoreExpense.userId d' = FirestoreExpense.userId d)).
  { intros [= -> ->]. split; [reflexivity|]. split; [reflexivity|].
    intros k d' Hk. exists d'. split; [exact Hk | reflexivity]. }
  assert (Hset : ∀ d0, db_expenses w !! expenseId = Some d0 →
            (r, w') = (Ok tt, set_db_expenses
                         (alter (ExpensePatch.apply p (Timestamp (serverTime w))) expenseId)
                         (pop w)) →
            db_categories w' = db_categories w ∧
            dom (db_expenses w') = dom (db_expenses w) ∧
            (∀ k d', db_expenses w' !! k = Some d' →
               ∃ d, db_expenses w !! k = Some d ∧
                    FirestoreExpense.userId d' = FirestoreExpense.userId d)).
  { intros d0 Hd0 [= -> ->]. split; [reflexivity|]. split; [simpl; apply dom_alter_L|].
    intros k d' Hk. simpl in Hk.
    destruct (decide (k = expenseId)) as [->|Hne].
    - rewrite lookup_alter_eq, Hd0 in Hk. injection Hk as <-.
      exists d0. split; [exact Hd0 | reflexivity].
    - rewrite lookup_alter_ne in Hk by congruence.
      exists d'. split; [exact Hk | reflexivity]. }
  destruct (head (faults w)) as [[e|]|];
    destruct (db_expenses w !! expenseId) as [d0|] eqn:Hd0;
    first [apply Hsame; symmetry; exact Hrun | eapply Hset; [reflexivity | symmetry; exact Hrun]].
Qed.

(** However the store behaves, a loop of updates creates no expense, removes
    none and changes no owner. *)
Lemma update_loop_frame (f : Expense.t → ExpensePatch.t) (l : list Expense.t) :
  ∀ w r w',
    for_of l (λ expense, ExpenseService.updateExpense (Expense.id expense) (f expense)) w =
      (r, w') →
    db_categories w' = db_categories w ∧
    dom (db_expenses w') = dom (db_expenses w) ∧
    (∀ k d', db_expenses w' !! k = Some d' →
       ∃ d, db_expenses w !! k = Some d ∧
            FirestoreExpense.userId d' = FirestoreExpense.userId d).
Proof.
  induction l as [|x l IH]; intros w r w' Hrun.
  - injection Hrun as _ <-. split; [reflexivity|]. split; [reflexivity|].
    intros k d' Hk. exists d'. split; [exact Hk | reflexivity].
  - simpl in Hrun. unfold mbind, M_bind in Hrun.
    destruct (ExpenseService.updateExpense (Expense.id x) (f x) w) as [[[]|e] w1] eqn:Hx.
    + destruct (updateExpense_frame _ _ _ _ _ Hx) as (Hc1 & Hd1 & Ho1).
      destruct (IH _ _ _ Hrun) as (Hc2 & Hd2 & Ho2).
      split; [congruence|]. split; [congruence|].
      intros k d' Hk. destruct (Ho2 k d' Hk) as (d1 & Hk1 & Hu1).
      destruct (Ho1 k d1 Hk1) as (d & Hk0 & Hu0).
      exists d. split; [exact Hk0 | congruence].
    + injection Hrun as _ <-. exact (updateExpense_frame _ _ _ _ _ Hx).
Qed.

Lemma deleteExpense_categories (expenseId : string) (w : World) (r : result unit)
    (w' : World) :
  ExpenseService.deleteExpense expenseId w = (r, w') →
  db_categories w' = db_categories w.
Proof.
  rewrite deleteExpense_run.
  destruct (head (faults w)) as [[e|]|]; intros [= _ <-]; reflexivity.
Qed.

Lemma deleteCategory_frame (categoryId : string) (w : World) (r : result unit)
    (w' : World) :
  CategoryService.deleteCategory categoryId w = (r, w') →
  db_expenses w' = db_expenses w ∧
  (r = Ok tt →
     ∃ d, db_categories w !! categoryId = Some d ∧
          db_categories w' =
            alter (FirestoreCategory.set_isActive (Js.Bool false)) categoryId
              (db_categories w)).
Proof.
  rewrite deleteCategory_run.
  destruct (head (faults w)) as [[e|]|];
    destruct (db_categories w !! categoryId) as [d0|] eqn:Hd0;
    intros [= <- <-]; (split; [reflexivity|]); intros Hr; try discriminate Hr;
    exists d0; split; reflexivity.
Qed.

Lemma getUserCategories_frame (userId : string) (w : World)
    (r : result (list Category.t)) (w' : World) :
  CategoryService.getUserCategories userId false w = (r, w') →
  w' = pop w ∧
  (∀ cs, r = Ok cs → cs = CategoryService.snapshot_userCategories userId w).
Proof.
  rewrite getUserCategories_run.
  destruct (head (faults w)) as [[e|]|]; intros [= <- <-];
    (split; [reflexivity|]); intros cs [= <-]; reflexivity.
Qed.

(** X19.  Asking to delete a category never fails and never touches an
    expense; without a signed-in user, or for a name that is not in the
    component's list, nothing happens at all; and for a listed category that
    some expense of the component carries, the confirmation dialog is opened
    for it and no request is made to the store. *)
Theorem handleDeleteCategory_asks_first (props : CategoryManagement.Props)
    (categoryToDelete : string) (st : CategoryManagement.State) (w : World) :
  ∃ (st' : CategoryManagement.State) (w' : World),
    CategoryManagement.handleDeleteCategory props categoryToDelete st w = (Ok st', w') ∧
    db_expenses w' = db_expenses w ∧
    CategoryManagement.replacementCategory st' = CategoryManagement.replacementCategory st ∧
    (CategoryManagement.currentUser props = None ∨
     CategoryManagement.find_category st categoryToDelete = None →
       st' = st ∧ w' = w) ∧
    (CategoryManagement.currentUser props ≠ None →
     CategoryManagement.find_category st categoryToDelete ≠ None →
     0 < CategoryManagement.getCategoryUsageCount props categoryToDelete →
       st' = CategoryManagement.setShowDeleteConfirm (Some categoryToDelete) st ∧ w' = w).
Proof.
  unfold CategoryManagement.handleDeleteCategory.
  destruct (CategoryManagement.currentUser props) as [user|].
  2: { exists st, w. split; [reflexivity|]. split; [reflexivity|]. split; [reflexivity|].
       split; [intros _; split; reflexivity | intros Hn; contradiction]. }
  destruct (CategoryManagement.find_category st categoryToDelete) as [obj|].
  2: { exists st, w. split; [reflexivity|]. split; [reflexivity|]. split; [reflexivity|].
       split; [intros _; split; reflexivity | intros _ Hn; contradiction]. }
  destruct (Nat.ltb_spec 0 (CategoryManagement.getCategoryUsageCount props categoryToDelete))
    as [Hpos|Hzero].
  { eexists _, w. split; [reflexivity|]. split; [reflexivity|]. split; [reflexivity|].
    split; [intros [Hn|Hn]; discriminate | intros _ _ _; split; reflexivity]. }
  unfold try_catch, mbind, M_bind.
  destruct (CategoryService.deleteCategory (Category.id obj) w) as [[[]|e] w1] eqn:Hdel.
  - destruct (deleteCategory_frame _ _ _ _ Hdel) as [Hex _].
    destruct (CategoryService.getUserCategories (User.id user) false w1)
      as [[cs|e] w2] eqn:Hget;
      destruct (getUserCategories_frame _ _ _ _ Hget) as [-> _];
      eexists _, _; (split; [reflexivity|]); (split; [exact Hex|]);
      (split; [reflexivity|]);
      (split; [intros [Hn|Hn]; discriminate | intros _ _ Hp; lia]).
  - destruct (deleteCategory_frame _ _ _ _ Hdel) as [Hex _].
    eexists _, _. split; [reflexivity|]. split; [exact Hex|]. split; [reflexivity|].
    split; [intros [Hn|Hn]; discriminate | intros _ _ Hp; lia].
Qed.

Lemma filter_none {A} (P : A → Prop) `{!∀ x, Decision (P x)} (l : list A) :
  Forall (λ x, ¬ P x) l → filter P l = [].
Proof.
  induction 1 as [|x l Hx _ IH]; [reflexivity|].
  rewrite filter_cons_False by assumption. exact IH.
Qed.

(** The loop that deletes expenses, with a store that does not fail: the
    documents with the identifiers of the list are gone, the others stay. *)
Lemma delete_loop_run (l : list Expense.t) :
  ∀ w : World,
    calm w →
    ∃ w' : World,
      for_of l (λ expense, ExpenseService.deleteExpense (Expense.id expense)) w =
        (Ok tt, w') ∧
      calm w' ∧
      db_categories w' = db_categories w ∧
      (∀ k, db_expenses w' !! k =
            if decide (k ∈ Expense.id <$> l) then None else db_expenses w !! k).
Proof.
  induction l as [|x l IH]; intros w Hcalm.
  - exists w. split; [reflexivity|]. split; [exact Hcalm|]. split; [reflexivity|].
    intros k. rewrite decide_False by (simpl; apply not_elem_of_nil). reflexivity.
  - simpl for_of. unfold mbind, M_bind. rewrite deleteExpense_run.
    pose proof (next_call_ok_head w (calm_next_call_ok w Hcalm)) as Hh.
    set (w1 := set_db_expenses (delete (Expense.id x)) (pop w)).
    destruct (IH w1 (calm_pop w Hcalm)) as (w' & Hrun & Hcalm' & Hcat & Hlook).
    exists w'. split.
    { destruct (head (faults w)) as [[e|]|];
        [exfalso; eapply Hh; reflexivity | exact Hrun..]. }
    split; [exact Hcalm'|]. split; [exact Hcat|].
    intros k. rewrite Hlook. subst w1. simpl db_expenses. rewrite fmap_cons.
    destruct (decide (k = Expense.id x)) as [->|Hne].
    + rewrite (decide_True (P := _ ∈ _ :: _)) by left.
      destruct (decide _); [reflexivity | apply lookup_delete_eq].
    + rewrite lookup_delete_ne by congruence.
      destruct (decide (k ∈ Expense.id <$> l)) as [Hin|Hnin].
      * rewrite decide_True by (right; exact Hin). reflexivity.
      * rewrite decide_False; [reflexivity|].
        intros Hin. apply elem_of_cons in Hin as [?|?]; contradiction.
Qed.

(** X20.  Confirming a deletion without a replacement deletes the expenses:
    with a signed-in user, the component's expense collection being the
    store's for that user, a confirmation pending for a category of the
    component's list, no replacement chosen and a store that does not fail,
    [confirmDeleteCategory] removes exactly the user's expense documents
    under that name and keeps every other document as it is, sets
    [isActive] of the category's document to [false], closes the dialog and
    shows the reloaded list. *)
Theorem confirm_delete_removes_expenses (props : CategoryManagement.Props)
    (st : CategoryManagement.State) (w : World) (user : User.t)
    (categoryToDeleteObj : Category.t) (c : string) :
  calm w →
  CategoryManagement.currentUser props = Some user →
  CategoryManagement.expenses props ≡ₚ
    ExpenseService.snapshot_userExpenses (User.id user) w →
  CategoryManagement.showDeleteConfirm st = Some c →
  c ≠ EmptyString →
  CategoryManagement.replacementCategory st = EmptyString →
  CategoryManagement.find_category st c = Some categoryToDeleteObj →
  is_Some (db_categories w !! Category.id categoryToDeleteObj) →
  ∃ (st' : CategoryManagement.State) (w' : World),
    CategoryManagement.confirmDeleteCategory props st w = (Ok st', w') ∧
    (∀ k, db_expenses w' !! k =
          match db_expenses w !! k with
          | Some d =>
              if decide (FirestoreExpense.userId d = User.id user ∧
                         FirestoreExpense.category d = c)
              then None else Some d
          | None => None
          end) ∧
    count_category (User.id user) c w' = 0 ∧
    db_categories w' =
      alter (FirestoreCategory.set_isActive (Js.Bool false))
        (Category.id categoryToDeleteObj) (db_categories w) ∧
    CategoryManagement.showDeleteConfirm st' = None ∧
    CategoryManagement.categories st' =
      CategoryService.snapshot_userCategories (User.id user) w'.
Proof.
  intros Hcalm Huser Hexp Hshow Hc Hrepl Hfind Hdoc.
  unfold CategoryManagement.confirmDeleteCategory.
  rewrite Hshow, Huser.
  destruct c as [|ch cs]; [contradiction|].
  rewrite Hfind, Hrepl. simpl Js.str_truthy. cbv iota.
  destruct (snapshot_under_name (User.id user) (String ch cs) w) as (_ & Hdocs & _).
  set (l := filter (λ expense, Expense.category expense = String ch cs)
              (CategoryManagement.expenses props)).
  assert (Hl : l ≡ₚ filter (λ expense, Expense.category expense = String ch cs)
                     (ExpenseService.snapshot_userExpenses (User.id user) w)).
  { subst l. rewrite Hexp. reflexivity. }
  destruct (delete_loop_run l w Hcalm) as (w1 & Hloop & Hcalm1 & Hcat1 & Hlook).
  unfold try_catch, mbind at 1, M_bind at 1.
  rewrite Hloop. unfold mbind, M_bind.
  rewrite deleteCategory_ok
    by (try apply calm_next_call_ok; try rewrite Hcat1; assumption).
  set (w2 := set_db_categories _ (pop w1)).
  rewrite getUserCategories_ok by (apply calm_next_call_ok, calm_pop; exact Hcalm1).
  assert (Hchar : ∀ k, db_expenses w1 !! k =
            match db_expenses w !! k with
            | Some d =>
                if decide (FirestoreExpense.userId d = User.id user ∧
                           FirestoreExpense.category d = String ch cs)
                then None else Some d
            | None => None
            end).
  { intros k. rewrite Hlook.
    destruct (decide (k ∈ Expense.id <$> l)) as [Hin|Hnin].
    - apply list_elem_of_fmap in Hin as (e & -> & He).
      rewrite Hl in He. destruct (Hdocs e He) as (d & Hd & Hu & Hcd).
      rewrite Hd, decide_True by (split; assumption). reflexivity.
    - destruct (db_expenses w !! k) as [d|] eqn:Hd; [|reflexivity].
      destruct (decide _) as [[Hu Hcd]|]; [|reflexivity].
      exfalso. apply Hnin. rewrite Hl.
      eapply snapshot_under_name_complete; eassumption. }
  eexists _, (pop w2). split; [reflexivity|].
  split; [exact Hchar|]. split.
  { unfold count_category. change (db_expenses (pop w2)) with (db_expenses w1).
    apply length_zero_iff_nil. apply filter_none. apply Forall_forall.
    intros [k d'] Hin Hmatch. apply elem_of_map_to_list in Hin.
    rewrite Hchar in Hin. simpl in Hmatch.
    destruct (db_expenses w !! k) as [d|]; [|discriminate].
    destruct (decide _) as [|Hno]; [discriminate|].
    injection Hin as <-. contradiction. }
  split; [subst w2; simpl; rewrite Hcat1; reflexivity|].
  split; reflexivity.
Qed.

(** X21.  With a replacement chosen, confirming never loses an expense:
    whatever the component holds and however the store behaves,
    [confirmDeleteCategory] returns normally, and afterwards the store has
    expense documents under exactly the identifiers it had, each with the
    owner it had. *)
Theorem confirm_with_replacement_keeps_expenses (props : CategoryManagement.Props)
    (st : CategoryManagement.State) (w : World) :
  CategoryManagement.replacementCategory st ≠ EmptyString →
  ∃ (st' : CategoryManagement.State) (w' : World),
    CategoryManagement.confirmDeleteCategory props st w = (Ok st', w') ∧
    dom (db_expenses w') = dom (db_expenses w) ∧
    (∀ k d', db_expenses w' !! k = Some d' →
       ∃ d, db_expenses w !! k = Some d ∧
            FirestoreExpense.userId d' = FirestoreExpense.userId d).
Proof.
  intros Hrepl.
  assert (Hsame : ∀ v, db_expenses v = db_expenses w →
            dom (db_expenses v) = dom (db_expenses w) ∧
            (∀ k d', db_expenses v !! k = Some d' →
               ∃ d, db_expenses w !! k = Some d ∧
                    FirestoreExpense.userId d' = FirestoreExpense.userId d)).
  { intros v ->. split; [reflexivity|]. intros k d' Hk. exists d'. split; [exact Hk|reflexivity]. }
  unfold CategoryManagement.confirmDeleteCategory.
  destruct (CategoryManagement.showDeleteConfirm st) as [[|ch cs]|];
    [exists st, w; split; [reflexivity | apply Hsame; reflexivity]| |
     exists st, w; split; [reflexivity | apply Hsame; reflexivity]].
  destruct (CategoryManagement.currentUser props) as [user|];
    [|exists st, w; split; [reflexivity | apply Hsame; reflexivity]].
  destruct (CategoryManagement.find_category st (String ch cs)) as [obj|];
    [|exists st, w; split; [reflexivity | apply Hsame; reflexivity]].
  destruct (CategoryManagement.replacementCategory st) as [|rh rs] eqn:Hr;
    [contradiction|].
  simpl Js.str_truthy. cbv iota.
  unfold try_catch, mbind at 1, M_bind at 1.
  destruct (for_of _ _ w) as [[[]|e] w1] eqn:Hloop;
    pose proof (update_loop_frame _ _ _ _ _ Hloop) as (_ & Hdom & Hown);
    [|exists st, w1; split; [reflexivity | split; assumption]].
  unfold mbind, M_bind.
  destruct (CategoryService.deleteCategory (Category.id obj) w1) as [[[]|e] w2] eqn:Hdel;
    destruct (deleteCategory_frame _ _ _ _ Hdel) as [Hex _].
  - destruct (CategoryService.getUserCategories (User.id user) false w2)
      as [[cats|e] w3] eqn:Hget;
      destruct (getUserCategories_frame _ _ _ _ Hget) as [-> _];
      eexists _, _; (split; [reflexivity|]);
      change (db_expenses (pop w2)) with (db_expenses w2); rewrite Hex;
      split; assumption.
  - eexists _, _. split; [reflexivity|]. rewrite Hex. split; assumption.
Qed.

(** X22.  The confirmation dialog closes only after the category is
    deactivated: however the store behaves, [confirmDeleteCategory] returns
    normally, and either the component's state is exactly what it was (the
    dialog, if open, stays open) or the document of the category being
    deleted now has [isActive] false, the dialog is closed, the replacement
    is cleared and the list shown is the store's list of the user's active
    categories. *)
Theorem confirm_closes_after_deactivation (props : CategoryManagement.Props)
    (st : CategoryManagement.State) (w : World) :
  ∃ (st' : CategoryManagement.State) (w' : World),
    CategoryManagement.confirmDeleteCategory props st w = (Ok st', w') ∧
    (st' = st ∨
     ∃ (c : string) (user : User.t) (obj : Category.t) (d : FirestoreCategory.t),
       CategoryManagement.showDeleteConfirm st = Some c ∧
       CategoryManagement.currentUser props = Some user ∧
       CategoryManagement.find_category st c = Some obj ∧
       db_categories w' !! Category.id obj = Some d ∧
       FirestoreCategory.isActive d = Js.Bool false ∧
       (∀ k, k ≠ Category.id obj → db_categories w' !! k = db_categories w !! k) ∧
       CategoryManagement.showDeleteConfirm st' = None ∧
       CategoryManagement.replacementCategory st' = EmptyString ∧
       CategoryManagement.categories st' =
         CategoryService.snapshot_userCategories (User.id user) w').
Proof.
  unfold CategoryManagement.confirmDeleteCategory.
  destruct (CategoryManagement.showDeleteConfirm st) as [[|ch cs]|] eqn:Hshow;
    [exists st, w; split; [reflexivity | left; reflexivity]| |
     exists st, w; split; [reflexivity | left; reflexivity]].
  destruct (CategoryManagement.currentUser props) as [user|] eqn:Huser;
    [|exists st, w; split; [reflexivity | left; reflexivity]].
  destruct (CategoryManagement.find_category st (String ch cs)) as [obj|] eqn:Hfind;
    [|exists st, w; split; [reflexivity | left; reflexivity]].
  unfold try_catch, mbind at 1, M_bind at 1.
  set (loop := if Js.str_truthy (CategoryManagement.replacementCategory st)
               then _ else _).
  assert (Hframe : ∀ r w1, loop w = (r, w1) → db_categories w1 = db_categories w).
  { intros r w1. subst loop.
    destruct (Js.str_truthy (CategoryManagement.replacementCategory st)).
    - intros Hloop. apply (update_loop_frame _ _ _ _ _ Hloop).
    - apply for_of_categories. intros x v r' v'. apply deleteExpense_categories. }
  destruct (loop w) as [[[]|e] w1] eqn:Hloop;
    [|exists st, w1; split; [reflexivity | left; reflexivity]].
  pose proof (Hframe _ _ eq_refl) as Hcat1.
  unfold mbind, M_bind.
  destruct (CategoryService.deleteCategory (Category.id obj) w1) as [[[]|e] w2] eqn:Hdel;
    [|eexists _, _; split; [reflexivity | left; reflexivity]].
  destruct (deleteCategory_frame _ _ _ _ Hdel) as [_ Halt].
  destruct (Halt eq_refl) as (d & Hd & Hcat2).
  destruct (CategoryService.getUserCategories (User.id user) false w2)
    as [[cats|e] w3] eqn:Hget;
    destruct (getUserCategories_frame _ _ _ _ Hget) as [-> Hcats];
    [|eexists _, _; split; [reflexivity | left; reflexivity]].
  eexists _, _. split; [reflexivity|]. right.
  exists (String ch cs), user, obj, (FirestoreCategory.set_isActive (Js.Bool false) d).
  split; [reflexivity|]. split; [reflexivity|]. split; [exact Hfind|].
  change (db_categories (pop w2)) with (db_categories w2). rewrite Hcat2.
  split; [rewrite lookup_alter_eq, Hd; reflexivity|].
  split; [reflexivity|].
  split; [intros k Hk; rewrite lookup_alter_ne, Hcat1 by congruence; reflexivity|].
  split; [reflexivity|]. split; [reflexivity|].
  simpl. rewrite (Hcats cats eq_refl). reflexivity.
Qed.

Lemma updateCategory_ok (categoryId : string) (p : CategoryPatch.t) (w : World) :
  next_call_ok w →
  is_Some (db_categories w !! categoryId) →
  CategoryService.updateCategory categoryId p w =
    (Ok tt, set_db_categories (alter (CategoryPatch.apply p) categoryId) (pop w)).
Proof.
  intros Hok [data Hdata]. rewrite updateCategory_run, Hdata.
  pose proof (next_call_ok_head w Hok) as Hh.
  destruct (head (faults w)) as [[e|]|]; [exfalso; eapply Hh; reflexivity | reflexivity..].
Qed.

Lemma updateCategory_frame (categoryId : string) (p : CategoryPatch.t) (w : World)
    (r : result unit) (w' : World) :
  CategoryService.updateCategory categoryId p w = (r, w') →
  db_expenses w' = db_expenses w ∧
  (r ≠ Ok tt → db_categories w' = db_categories w) ∧
  (r = Ok tt →
     ∃ d, db_categories w !! categoryId = Some d ∧
          db_categories w' = alter (CategoryPatch.apply p) categoryId (db_categories w)).
Proof.
  rewrite updateCategory_run.
  destruct (head (faults w)) as [[e|]|];
    destruct (db_categories w !! categoryId) as [d0|] eqn:Hd0;
    intros [= <- <-]; (split; [reflexivity|]);
    (split; [intros Hr; try reflexivity; exfalso; apply Hr; reflexivity|]);
    intros Hr; try discriminate Hr; exists d0; split; reflexivity.
Qed.

Lemma addCategory_frame (userId : string) (categoryData : CategoryInput.t) (w : World)
    (r : result string) (w' : World) :
  CategoryService.addCategory userId categoryData w = (r, w') →
  db_expenses w' = db_expenses w ∧
  (∀ e, r = Throw e → db_categories w' = db_categories w) ∧
  (∀ id, r = Ok id →
     db_categories w !! id = None ∧
     db_categories w' =
       <[id := CategoryService.new_category_doc userId (serverTime w) categoryData]>
         (db_categories w)).
Proof.
  rewrite addCategory_run.
  assert (Hfresh : db_categories w !! fresh (dom (db_categories w)) = None)
    by (apply not_elem_of_dom, is_fresh).
  destruct (head (faults w)) as [[e|]|]; intros [= <- <-];
    (split; [reflexivity|]);
    (split; [intros e' He'; try discriminate He'; reflexivity|]);
    intros id Hid; try discriminate Hid; injection Hid as <-;
    split; [exact Hfresh | reflexivity | exact Hfresh | reflexivity].
Qed.

Section Forms.
Variable props : CategoryManagement.Props.
Variable trim : string → string.

(** X23.  Renaming a category moves its expenses: with a signed-in user,
    the component's expense collection being the store's for that user, a
    category of the component's list with a document in the store, a new
    name that after trimming is not empty, not the old name and not in the
    list, and a store that does not fail, [handleEditCategory] renames that
    one document (keeping its other fields), rewrites to the new name each
    of the user's expenses under the old one, leaving none under the old
    name and touching no other name and no other user, leaves edit mode and
    shows the reloaded list.  Document by document: the category document
    differs from what it was in its name only; each of the user's expense
    documents under the old name is afterwards the same expense under the
    new name (owner, amount, description and date kept), and every other
    expense document is exactly what it was. *)
Theorem rename_category_moves_expenses (st : CategoryManagement.State)
    (inp : CategoryManagement.Inputs) (w : World) (user : User.t)
    (categoryToEdit : Category.t) (oldName newName : string) :
  calm w →
  CategoryManagement.currentUser props = Some user →
  CategoryManagement.expenses props ≡ₚ
    ExpenseService.snapshot_userExpenses (User.id user) w →
  CategoryManagement.find_category st oldName = Some categoryToEdit →
  is_Some (db_categories w !! Category.id categoryToEdit) →
  trim newName ≠ EmptyString →
  trim newName ≠ oldName →
  CategoryManagement.has_category st (trim newName) = false →
  ∃ (st' : CategoryManagement.State) (inp' : CategoryManagement.Inputs) (w' : World),
    CategoryManagement.handleEditCategory props trim oldName newName st inp w =
      (Ok (st', inp'), w') ∧
    db_categories w' =
      alter (CategoryPatch.apply (CategoryPatch.mk (Some (trim newName)) None None None))
        (Category.id categoryToEdit) (db_categories w) ∧
    count_category (User.id user) oldName w' = 0 ∧
    count_category (User.id user) (trim newName) w' =
      count_category (User.id user) (trim newName) w +
      count_category (User.id user) oldName w ∧
    (∀ c', c' ≠ oldName → c' ≠ trim newName →
       count_category (User.id user) c' w' = count_category (User.id user) c' w) ∧
    (∀ u c', u ≠ User.id user → count_category u c' w' = count_category u c' w) ∧
    CategoryManagement.editingCategory inp' = None ∧
    CategoryManagement.editCategoryName inp' = EmptyString ∧
    CategoryManagement.categories st' =
      CategoryService.snapshot_userCategories (User.id user) w' ∧
    (∀ d, db_categories w !! Category.id categoryToEdit = Some d →
       db_categories w' =
         <[Category.id categoryToEdit :=
             FirestoreCategory.mk (FirestoreCategory.userId d) (trim newName)
               (FirestoreCategory.color d) (FirestoreCategory.icon d)
               (FirestoreCategory.createdAt d) (FirestoreCategory.isDefault d)
               (FirestoreCategory.isActive d) (FirestoreCategory.expenseCount d)]>
           (db_categories w)) ∧
    (∀ k, db_expenses w' !! k =
          match db_expenses w !! k with
          | Some d =>
              if decide (FirestoreExpense.userId d = User.id user ∧
                         FirestoreExpense.category d = oldName)
              then Some (reassigned (trim newName) (serverTime w) k d)
              else Some d
          | None => None
          end).
Proof.
  intros Hcalm Huser Hexp Hfind Hdoc Hne Hold Hhas.
  unfold CategoryManagement.handleEditCategory.
  rewrite Huser, Hfind, Hhas.
  set (n := trim newName) in *.
  assert (Hcond : Js.str_truthy n && negb (String.eqb n oldName) && negb false = true).
  { destruct n as [|nh ns] eqn:Hn; [contradiction|]. simpl Js.str_truthy.
    rewrite (proj2 (String.eqb_neq _ _) Hold). reflexivity. }
  rewrite Hcond.
  unfold try_catch, mbind at 1, M_bind at 1.
  rewrite updateCategory_ok by (try apply calm_next_call_ok; assumption).
  set (w0 := set_db_categories _ (pop w)).
  assert (Hcalm0 : calm w0) by (apply calm_pop; exact Hcalm).
  destruct (snapshot_under_name (User.id user) oldName w0) as (Hnd & Hdocs & Hlen).
  change (ExpenseService.snapshot_userExpenses (User.id user) w0)
    with (ExpenseService.snapshot_userExpenses (User.id user) w) in Hnd, Hdocs, Hlen.
  set (l := filter (λ expense, Expense.category expense = oldName)
              (CategoryManagement.expenses props)).
  assert (Hl : l ≡ₚ filter (λ expense, Expense.category expense = oldName)
                     (ExpenseService.snapshot_userExpenses (User.id user) w)).
  { subst l. rewrite Hexp. reflexivity. }
  rewrite <- Hl in Hnd, Hlen.
  assert (Hdocs' : ∀ e, e ∈ l →
            ∃ d, db_expenses w0 !! Expense.id e = Some d ∧
                 FirestoreExpense.userId d = User.id user ∧
                 FirestoreExpense.category d = oldName).
  { intros e He. apply Hdocs. rewrite <- Hl. exact He. }
  destruct (reassign_loop_run (User.id user) oldName n l Hold w0 Hcalm0 Hnd Hdocs')
    as (w1 & Hloop & Hcalm1 & Hcat1 & HcC & HcR & Hother & Husers).
  assert (Hdocs2 : ∀ e, e ∈ l →
            ∃ d, db_expenses w0 !! Expense.id e = Some d ∧
                 e = ExpenseService.convertToExpense (Expense.id e, d)).
  { intros e He. apply (snapshot_docs (User.id user) w).
    rewrite Hl in He. apply list_elem_of_filter in He as [_ He]. exact He. }
  pose proof (reassign_loop_docs n l w0 w1 Hcalm0 Hnd Hdocs2 Hloop) as Hper.
  assert (Hchar : ∀ k, db_expenses w1 !! k =
            match db_expenses w !! k with
            | Some d =>
                if decide (FirestoreExpense.userId d = User.id user ∧
                           FirestoreExpense.category d = oldName)
                then Some (reassigned n (serverTime w) k d)
                else Some d
            | None => None
            end).
  { intros k. rewrite Hper.
    change (db_expenses w0) with (db_expenses w).
    change (serverTime w0) with (serverTime w).
    destruct (db_expenses w !! k) as [d|] eqn:Hd; [|reflexivity].
    destruct (decide (k ∈ Expense.id <$> l)) as [Hin|Hnin];
      destruct (decide (FirestoreExpense.userId d = User.id user ∧
                        FirestoreExpense.category d = oldName)) as [Hm|Hm];
      try reflexivity; exfalso.
    - apply list_elem_of_fmap in Hin as (e & -> & He).
      destruct (Hdocs' e He) as (d' & Hd' & Hu & Hc').
      change (db_expenses w0) with (db_expenses w) in Hd'.
      rewrite Hd in Hd'. injection Hd' as <-. apply Hm. split; assumption.
    - apply Hnin. rewrite Hl. destruct Hm as [Hu Hc'].
      eapply snapshot_under_name_complete; eassumption. }
  unfold mbind at 1, M_bind at 1.
  unfold mbind at 1, M_bind at 1.
  change (for_of l _ w0) with
    (for_of l
       (λ expense, ExpenseService.updateExpense (Expense.id expense)
                     (reassign_patch n expense)) w0).
  rewrite Hloop. unfold mbind, M_bind.
  rewrite getUserCategories_ok by (apply calm_next_call_ok; exact Hcalm1).
  change (count_category (User.id user) oldName w0)
    with (count_category (User.id user) oldName w) in *.
  change (count_category (User.id user) n w0)
    with (count_category (User.id user) n w) in *.
  eexists _, _, (pop w1). split; [reflexivity|].
  split; [simpl; rewrite Hcat1; reflexivity|].
  rewrite !(count_category_expenses _ _ w1 (pop w1)) by reflexivity.
  split; [lia|]. split; [lia|].
  split.
  { intros c' H1 H2. rewrite (count_category_expenses _ _ w1 (pop w1)) by reflexivity.
    apply (Hother c' H1 H2). }
  split.
  { intros u c' Hu. rewrite (count_category_expenses _ _ w1 (pop w1)) by reflexivity.
    apply (Husers u c' Hu). }
  split; [reflexivity|]. split; [reflexivity|]. split; [reflexivity|].
  split; [|exact Hchar].
  intros d Hd. simpl. rewrite Hcat1. subst w0. simpl.
  apply map_eq. intros k. destruct (decide (k = Category.id categoryToEdit)) as [->|Hk].
  - rewrite lookup_alter_eq, lookup_insert_eq, Hd. reflexivity.
  - rewrite lookup_alter_ne, lookup_insert_ne by congruence. reflexivity.
Qed.

(** X24.  What renaming can do at most: however the store behaves,
    [handleEditCategory] returns normally, creates and removes no expense
    and changes no expense's owner; and the categories collection is either
    untouched or differs only in the document of the category being
    edited, renamed to the trimmed new name, which then is not empty, is
    not the old name and is not a name of the component's list. *)
Theorem handleEditCategory_frame (st : CategoryManagement.State)
    (inp : CategoryManagement.Inputs) (w : World) (oldName newName : string) :
  ∃ (out : CategoryManagement.State * CategoryManagement.Inputs) (w' : World),
    CategoryManagement.handleEditCategory props trim oldName newName st inp w =
      (Ok out, w') ∧
    dom (db_expenses w') = dom (db_expenses w) ∧
    (∀ k d', db_expenses w' !! k = Some d' →
       ∃ d, db_expenses w !! k = Some d ∧
            FirestoreExpense.userId d' = FirestoreExpense.userId d) ∧
    (db_categories w' = db_categories w ∨
     ∃ categoryToEdit : Category.t,
       CategoryManagement.find_category st oldName = Some categoryToEdit ∧
       trim newName ≠ EmptyString ∧
       trim newName ≠ oldName ∧
       CategoryManagement.has_category st (trim newName) = false ∧
       db_categories w' =
         alter (CategoryPatch.apply (CategoryPatch.mk (Some (trim newName)) None None None))
           (Category.id categoryToEdit) (db_categories w)).
Proof.
  assert (Hsame : ∀ v, db_expenses v = db_expenses w →
            dom (db_expenses v) = dom (db_expenses w) ∧
            (∀ k d', db_expenses v !! k = Some d' →
               ∃ d, db_expenses w !! k = Some d ∧
                    FirestoreExpense.userId d' = FirestoreExpense.userId d)).
  { intros v ->. split; [reflexivity|]. intros k d' Hk. exists d'. split; [exact Hk|reflexivity]. }
  assert (Hidle : ∃ (out : CategoryManagement.State * CategoryManagement.Inputs) (w' : World),
            (Ok (st, inp), w) = (Ok out, w') ∧
            dom (db_expenses w') = dom (db_expenses w) ∧
            (∀ k d', db_expenses w' !! k = Some d' →
               ∃ d, db_expenses w !! k = Some d ∧
                    FirestoreExpense.userId d' = FirestoreExpense.userId d) ∧
            (db_categories w' = db_categories w ∨
             ∃ categoryToEdit : Category.t,
               CategoryManagement.find_category st oldName = Some categoryToEdit ∧
               trim newName ≠ EmptyString ∧
               trim newName ≠ oldName ∧
               CategoryManagement.has_category st (trim newName) = false ∧
               db_categories w' =
                 alter (CategoryPatch.apply
                          (CategoryPatch.mk (Some (trim newName)) None None None))
                   (Category.id categoryToEdit) (db_categories w))).
  { exists (st, inp), w. split; [reflexivity|].
    destruct (Hsame w eq_refl) as [Hd Ho]. split; [exact Hd|]. split; [exact Ho|].
    left. reflexivity. }
  unfold CategoryManagement.handleEditCategory.
  destruct (CategoryManagement.currentUser props) as [user|]; [|exact Hidle].
  destruct (CategoryManagement.find_category st oldName) as [obj|] eqn:Hfind;
    [|exact Hidle].
  destruct (Js.str_truthy (trim newName) && negb (String.eqb (trim newName) oldName) &&
            negb (CategoryManagement.has_category st (trim newName))) eqn:Hcond;
    [|exact Hidle].
  clear Hidle.
  apply andb_prop in Hcond as [Hcond Hhas]. apply andb_prop in Hcond as [Htruthy Hneq].
  apply negb_true_iff in Hhas. apply negb_true_iff in Hneq.
  apply String.eqb_neq in Hneq.
  assert (Hne : trim newName ≠ EmptyString)
    by (intros Hempty; rewrite Hempty in Htruthy; discriminate).
  unfold try_catch, mbind at 1, M_bind at 1.
  destruct (CategoryService.updateCategory (Category.id obj) _ w) as [[[]|e] w0] eqn:Hupd;
    destruct (updateCategory_frame _ _ _ _ _ Hupd) as (Hex0 & Hkeep0 & Hset0).
  2: { exists (st, inp), w0. split; [reflexivity|].
       destruct (Hsame w0 Hex0) as [Hd Ho]. split; [exact Hd|]. split; [exact Ho|].
       left. apply Hkeep0. discriminate. }
  destruct (Hset0 eq_refl) as (d0 & Hd0 & Hcat0).
  unfold mbind at 1, M_bind at 1. unfold mbind at 1, M_bind at 1.
  destruct (for_of _ _ w0) as [[[]|e] w1] eqn:Hloop;
    pose proof (update_loop_frame _ _ _ _ _ Hloop) as (Hcat1 & Hdom1 & Hown1);
    rewrite Hex0 in Hdom1;
    assert (Hown : ∀ k d', db_expenses w1 !! k = Some d' →
              ∃ d, db_expenses w !! k = Some d ∧
                   FirestoreExpense.userId d' = FirestoreExpense.userId d)
      by (intros k d' Hk; destruct (Hown1 k d' Hk) as (d & Hk0 & Hu);
          rewrite Hex0 in Hk0; eauto).
  2: { exists (st, inp), w1. split; [reflexivity|]. split; [exact Hdom1|].
       split; [exact Hown|]. right. exists obj.
       split; [reflexivity|]. split; [exact Hne|]. split; [exact Hneq|].
       split; [exact Hhas|]. rewrite Hcat1. exact Hcat0. }
  unfold mbind, M_bind.
  destruct (CategoryService.getUserCategories (User.id user) false w1)
    as [[cats|e] w2] eqn:Hget;
    destruct (getUserCategories_frame _ _ _ _ Hget) as [-> _];
    eexists _, _; (split; [reflexivity|]); (split; [exact Hdom1|]);
    (split; [exact Hown|]); right; exists obj;
    (split; [reflexivity|]); (split; [exact Hne|]); (split; [exact Hneq|]);
    (split; [exact Hhas|]); change (db_categories (pop w1)) with (db_categories w1);
    rewrite Hcat1; exact Hcat0.
Qed.

(** X25.  Adding a category from the form: however the store behaves,
    [handleAddCategory] returns normally, touches no expense, and creates
    at most one category document, only for a signed-in user and only under
    a trimmed name that is not empty and not a name of the component's
    list; it is owned by that user and has the stock colour and icon.  With
    a store that does not fail and those conditions met, the document is
    created, the input is cleared and the list shown is the reloaded one. *)
Theorem handleAddCategory_adds_one (st : CategoryManagement.State)
    (inp : CategoryManagement.Inputs) (w : World) :
  ∃ (out : CategoryManagement.State * CategoryManagement.Inputs) (w' : World),
    CategoryManagement.handleAddCategory props trim st inp w = (Ok out, w') ∧
    db_expenses w' = db_expenses w ∧
    (db_categories w' = db_categories w ∨
     ∃ (user : User.t) (id : string),
       CategoryManagement.currentUser props = Some user ∧
       trim (CategoryManagement.newCategoryName inp) ≠ EmptyString ∧
       CategoryManagement.has_category st (trim (CategoryManagement.newCategoryName inp)) =
         false ∧
       db_categories w !! id = None ∧
       db_categories w' =
         <[id := FirestoreCategory.mk (User.id user)
                   (trim (CategoryManagement.newCategoryName inp))
                   (Some "#6B7280") (Some "📁") (Timestamp (serverTime w))
                   (Js.Bool false) (Js.Bool true) (Js.Num 0)]> (db_categories w)) ∧
    (calm w →
     ∀ user, CategoryManagement.currentUser props = Some user →
       trim (CategoryManagement.newCategoryName inp) ≠ EmptyString →
       CategoryManagement.has_category st (trim (CategoryManagement.newCategoryName inp)) =
         false →
       db_categories w' ≠ db_categories w ∧
       CategoryManagement.newCategoryName out.2 = EmptyString ∧
       CategoryManagement.categories out.1 =
         CategoryService.snapshot_userCategories (User.id user) w').
Proof.
  unfold CategoryManagement.handleAddCategory.
  destruct (CategoryManagement.currentUser props) as [user|].
  2: { exists (st, inp), w. split; [reflexivity|]. split; [reflexivity|].
       split; [left; reflexivity | intros _ user' Hu; discriminate]. }
  set (n := trim (CategoryManagement.newCategoryName inp)).
  destruct (Js.str_truthy n && negb (CategoryManagement.has_category st n)) eqn:Hcond.
  2: { exists (st, inp), w. split; [reflexivity|]. split; [reflexivity|].
       split; [left; reflexivity|]. intros _ user' _ Hne Hhas. exfalso.
       rewrite Hhas in Hcond. destruct n; [contradiction | discriminate]. }
  apply andb_prop in Hcond as [Htruthy Hhas]. apply negb_true_iff in Hhas.
  assert (Hne : n ≠ EmptyString)
    by (intros Hempty; rewrite Hempty in Htruthy; discriminate).
  unfold try_catch, mbind, M_bind.
  destruct (CategoryService.addCategory (User.id user) _ w) as [[id|e] w1] eqn:Hadd;
    destruct (addCategory_frame _ _ _ _ _ Hadd) as (Hex1 & Hkeep1 & Hnew1).
  2: { exists (st, inp), w1. split; [reflexivity|]. split; [exact Hex1|].
       split; [left; eapply Hkeep1; reflexivity|].
       intros Hcalm. exfalso. rewrite addCategory_ok in Hadd
         by (apply calm_next_call_ok; exact Hcalm). discriminate. }
  destruct (Hnew1 id eq_refl) as [Hfresh Hcat1].
  assert (Hchanged : db_categories w1 ≠ db_categories w).
  { intros Heq. rewrite Hcat1 in Heq.
    assert (Hl : (<[id := CategoryService.new_category_doc (User.id user) (serverTime w)
                           (CategoryInput.mk n None None)]> (db_categories w)) !! id = None)
      by (rewrite Heq; exact Hfresh).
    rewrite lookup_insert_eq in Hl. discriminate. }
  destruct (CategoryService.getUserCategories (User.id user) false w1)
    as [[cats|e] w2] eqn:Hget;
    destruct (getUserCategories_frame _ _ _ _ Hget) as [-> Hcats].
  - eexists _, _. split; [reflexivity|]. split; [exact Hex1|].
    split; [right; exists user, id; split; [reflexivity|];
            split; [exact Hne|]; split; [exact Hhas|]; split; [exact Hfresh | exact Hcat1]|].
    intros _ user' [= <-] _ _. split; [exact Hchanged|]. split; [reflexivity|].
    simpl. rewrite (Hcats cats eq_refl). reflexivity.
  - eexists _, _. split; [reflexivity|]. split; [exact Hex1|].
    split; [right; exists user, id; split; [reflexivity|];
            split; [exact Hne|]; split; [exact Hhas|]; split; [exact Hfresh | exact Hcat1]|].
    intros Hcalm. exfalso.
    rewrite addCategory_ok in Hadd by (apply calm_next_call_ok; exact Hcalm).
    injection Hadd as _ <-.
    rewrite getUserCategories_ok in Hget
      by (apply calm_next_call_ok, calm_pop; exact Hcalm).
    discriminate.
Qed.

End Forms.

End CategoryScreen.

(** ** The totals object *)

Section TotalsEntries.
Context {E num : Type}.
Variable category : E → string.
Variable amount : E → num.
Variable add : num → num → num.
Variable zero : num.
Variable truthy : num → bool.
Variable member : string → num.

Lemma own_get_set_eq (k : string) (v : num) (acc : list (string * num)) :
  own_get k (own_set k v acc) = Some v.
Proof.
  induction acc as [|[k' v'] rest IH]; simpl.
  - rewrite String.eqb_refl. reflexivity.
  - destruct (String.eqb k' k) eqn:Hk; simpl; rewrite Hk; [reflexivity | exact IH].
Qed.

Lemma own_get_set_ne (c k : string) (v : num) (acc : list (string * num)) :
  k ≠ c → own_get c (own_set k v acc) = own_get c acc.
Proof.
  intros Hne. induction acc as [|[k' v'] rest IH]; simpl.
  - rewrite (proj2 (String.eqb_neq _ _) Hne). reflexivity.
  - destruct (String.eqb_spec k' k) as [->|Hk]; simpl.
    + rewrite (proj2 (String.eqb_neq _ _) Hne). reflexivity.
    + rewrite IH. reflexivity.
Qed.

Lemma own_set_keys_in (k : string) (v : num) (acc : list (string * num)) :
  k ∈ acc.*1 → (own_set k v acc).*1 = acc.*1.
Proof.
  induction acc as [|[k' v'] rest IH]; intros Hin.
  - exfalso. revert Hin. apply not_elem_of_nil.
  - simpl. destruct (String.eqb_spec k' k) as [->|Hk]; [reflexivity|].
    rewrite fmap_cons. simpl. f_equal. apply IH.
    rewrite fmap_cons in Hin. apply elem_of_cons in Hin as [Heq|Hin];
      [simpl in Heq; congruence | exact Hin].
Qed.

Lemma own_set_keys_new (k : string) (v : num) (acc : list (string * num)) :
  k ∉ acc.*1 → (own_set k v acc).*1 = acc.*1 ++ [k].
Proof.
  induction acc as [|[k' v'] rest IH]; intros Hnin; [reflexivity|].
  rewrite fmap_cons in Hnin. apply not_elem_of_cons in Hnin as [Hne Hnin].
  simpl in Hne. simpl.
  destruct (String.eqb_spec k' k) as [->|Hk]; [congruence|].
  rewrite fmap_cons. simpl. f_equal. apply IH. exact Hnin.
Qed.

Lemma own_set_keys (k : string) (v : num) (acc : list (string * num)) :
  (own_set k v acc).*1 = if decide (k ∈ acc.*1) then acc.*1 else acc.*1 ++ [k].
Proof.
  destruct (decide (k ∈ acc.*1)); [apply own_set_keys_in | apply own_set_keys_new];
    assumption.
Qed.

Lemma totals_keys_fold (expenses : list E) :
  ∀ acc : list (string * num),
    NoDup acc.*1 →
    let totals :=
      fold_left
        (λ acc expense,
           own_set (category expense)
             (add (or_zero zero truthy (own_get (category expense) acc)) (amount expense))
             acc)
        expenses acc in
    NoDup totals.*1 ∧
    (∀ c, c ∈ totals.*1 ↔ c ∈ acc.*1 ∨ c ∈ category <$> expenses).
Proof.
  induction expenses as [|e expenses IH]; intros acc Hnd; simpl.
  - split; [exact Hnd|]. intros c. split; [auto|].
    intros [Hc|Hc]; [exact Hc | exfalso; revert Hc; apply not_elem_of_nil].
  - set (acc1 := own_set (category e) _ acc).
    assert (Hkeys : acc1.*1 = if decide (category e ∈ acc.*1) then acc.*1
                              else acc.*1 ++ [category e])
      by (subst acc1; apply own_set_keys).
    assert (Hnd1 : NoDup acc1.*1).
    { rewrite Hkeys. destruct (decide _) as [|Hnin]; [exact Hnd|].
      apply NoDup_app. split; [exact Hnd|]. split; [|apply NoDup_singleton].
      intros x Hx Hx'. apply list_elem_of_singleton in Hx'. subst x. contradiction. }
    destruct (IH acc1 Hnd1) as [Hnd' Hmem]. split; [exact Hnd'|].
    intros c. rewrite Hmem, Hkeys, elem_of_cons.
    destruct (decide (category e ∈ acc.*1)) as [Hin|Hnin].
    + split; [tauto|]. intros [Hc|[->|Hc]]; auto.
    + rewrite elem_of_app, list_elem_of_singleton. tauto.
Qed.

(** X26.  The keys of the totals object are the categories in use: for
    expenses whose category names the object does not inherit,
    [getCategoryTotals] (and the dashboard's [categoryTotals]) has one entry
    for each category that some expense carries and no other, so the number
    of entries, which the dashboard shows as the number of categories, is
    the number of distinct category names among the expenses. *)
Theorem category_totals_keys (expenses : list E) :
  own_names category expenses →
  let totals := getCategoryTotals category amount add zero truthy member expenses in
  NoDup totals.*1 ∧
  (∀ c, c ∈ totals.*1 ↔ c ∈ category <$> expenses) ∧
  length totals = size (list_to_set (C := gset string) (category <$> expenses)).
Proof.
  intros Hown. unfold getCategoryTotals.
  rewrite (totals_own category amount add zero truthy member expenses Hown []).
  destruct (totals_keys_fold expenses [] (NoDup_nil_2 : NoDup ([] : list (string * num)).*1))
    as [Hnd Hmem].
  set (totals := fold_left _ expenses []) in *.
  cbv zeta. split; [exact Hnd|].
  assert (Hmem' : ∀ c, c ∈ totals.*1 ↔ c ∈ category <$> expenses).
  { intros c. rewrite Hmem. split; [|auto].
    intros [Hc|Hc]; [exfalso; revert Hc; apply not_elem_of_nil | exact Hc]. }
  split; [exact Hmem'|].
  rewrite <- (length_fmap fst totals), <- (size_list_to_set (C := gset string)) by exact Hnd.
  f_equal. apply set_eq. intros c. rewrite !elem_of_list_to_set. apply Hmem'.
Qed.

Lemma subtotal_fold (expenses : list E) (c : string) :
  ∀ acc : list (string * num),
    own_get c
      (fold_left
         (λ acc expense,
            own_set (category expense)
              (add (or_zero zero truthy (own_get (category expense) acc)) (amount expense))
              acc)
         expenses acc) =
    match own_get c acc, amount <$> filter (λ expense, category expense = c) expenses with
    | None, [] => None
    | None, x :: rest =>
        Some (fold_left (λ total x, add (or_zero zero truthy (Some total)) x) rest
                (add zero x))
    | Some v, amounts =>
        Some (fold_left (λ total x, add (or_zero zero truthy (Some total)) x) amounts v)
    end.
Proof.
  induction expenses as [|e expenses IH]; intros acc.
  - simpl. destruct (own_get c acc); reflexivity.
  - simpl fold_left. rewrite IH. rewrite filter_cons.
    destruct (decide (category e = c)) as [Hc|Hc].
    + rewrite Hc, own_get_set_eq, fmap_cons.
      destruct (own_get c acc) as [v|]; reflexivity.
    + rewrite own_get_set_ne by exact Hc. reflexivity.
Qed.

(** X27.  Each category's total comes from its own expenses alone: for
    expenses whose category names the object does not inherit, the entry of
    [getCategoryTotals] for a category is absent when no expense carries
    it, and otherwise is what adding that category's amounts, in the order
    of the expenses, gives when each turn starts from [total || 0]; the
    expenses of the other categories play no part.  Reading the object
    under a name gives that entry, except under a name it inherits, where
    it gives the inherited member. *)
Theorem category_total_of_own_expenses (expenses : list E) (c : string) :
  own_names category expenses →
  let totals := getCategoryTotals category amount add zero truthy member expenses in
  let entry :=
    match filter (λ expense, category expense = c) expenses with
    | [] => None
    | own => Some (subtotal add zero truthy (amount <$> own))
    end in
  own_get c totals = entry ∧
  (c ∉ inherited_names → obj_get member c totals = entry) ∧
  (c ∈ inherited_names → entry = None ∧ obj_get member c totals = Some (member c)).
Proof.
  intros Hown. cbv zeta. unfold getCategoryTotals.
  rewrite (totals_own category amount add zero truthy member expenses Hown []).
  set (totals := fold_left _ expenses []).
  assert (Hentry : own_get c totals =
                   match filter (λ expense, category expense = c) expenses with
                   | [] => None
                   | own => Some (subtotal add zero truthy (amount <$> own))
                   end).
  { subst totals. rewrite subtotal_fold. simpl own_get.
    destruct (filter (λ expense, category expense = c) expenses) as [|x rest];
      [reflexivity|].
    rewrite fmap_cons. unfold subtotal. simpl.
    destruct (truthy zero); reflexivity. }
  split; [exact Hentry|]. split.
  - intros Hc. rewrite obj_get_own by exact Hc. exact Hentry.
  - intros Hc.
    assert (Hnone : filter (λ expense, category expense = c) expenses = []).
    { clear Hentry totals. induction Hown as [|e expenses He _ IH]; [reflexivity|].
      rewrite filter_cons. destruct (decide (category e = c)) as [Heq|_]; [|exact IH].
      exfalso. apply He. rewrite Heq. exact Hc. }
    rewrite Hnone in *. split; [reflexivity|].
    unfold obj_get. rewrite Hentry. rewrite bool_decide_eq_true_2 by exact Hc. reflexivity.
Qed.

End TotalsEntries.

(** ** The category-setup screen *)

Section SetupScreen.
Context `{Platform}.
Variable trim : string → string.

Lemma includes_spec (categories : list string) (name : string) :
  CategorySetup.includes categories name = true ↔ name ∈ categories.
Proof.
  unfold CategorySetup.includes. induction categories as [|c l IH]; simpl.
  - split; [discriminate | intros Hin; exfalso; revert Hin; apply not_elem_of_nil].
  - rewrite orb_true_iff, IH, elem_of_cons, String.eqb_eq. reflexivity.
Qed.

Lemma selection_ok_snoc (categories : list string) (name input : string) :
  selection_ok (CategorySetup.mkState categories input) →
  (Js.str_truthy name && negb (CategorySetup.includes categories name)) = true →
  ∀ input', selection_ok (CategorySetup.mkState (categories ++ [name]) input').
Proof.
  intros [Hnd Hne] Hcond input'. apply andb_prop in Hcond as [Htruthy Hnew].
  apply negb_true_iff in Hnew.
  assert (Hnin : name ∉ categories).
  { intros Hin. apply includes_spec in Hin. congruence. }
  split; simpl.
  - apply NoDup_app. split; [exact Hnd|]. split; [|apply NoDup_singleton].
    intros x Hx Hx'. apply list_elem_of_singleton in Hx'. subst x. contradiction.
  - apply Forall_app. split; [exact Hne|]. apply Forall_singleton.
    intros ->. discriminate.
Qed.

(** X28.  The selection of the setup screen stays clean: from a selection
    that holds each name once and no empty name, adding a suggested name,
    adding the typed name and removing a name each give such a selection
    again; adding never drops a name; a removed name is no longer selected;
    and adding the same name a second time changes nothing. *)
Theorem selection_stays_ok (st : CategorySetup.State) (name : string) :
  selection_ok st →
  selection_ok (CategorySetup.handleAddCategory trim name st) ∧
  selection_ok (CategorySetup.handleAddCustomCategory trim st) ∧
  selection_ok (CategorySetup.handleRemoveCategory name st) ∧
  (∀ c, c ∈ CategorySetup.categories st →
        c ∈ CategorySetup.categories (CategorySetup.handleAddCategory trim name st) ∧
        c ∈ CategorySetup.categories (CategorySetup.handleAddCustomCategory trim st)) ∧
  (name ∉ CategorySetup.categories (CategorySetup.handleRemoveCategory name st)) ∧
  CategorySetup.handleAddCategory trim name (CategorySetup.handleAddCategory trim name st) =
    CategorySetup.handleAddCategory trim name st.
Proof.
  intros Hok. destruct st as [categories input].
  unfold CategorySetup.handleAddCategory, CategorySetup.handleAddCustomCategory,
    CategorySetup.handleRemoveCategory. simpl.
  split; [|split; [|split; [|split; [|split]]]].
  - destruct (Js.str_truthy (trim name) &&
              negb (CategorySetup.includes categories (trim name))) eqn:Hcond;
      [eapply selection_ok_snoc; eassumption | exact Hok].
  - destruct (Js.str_truthy (trim input) &&
              negb (CategorySetup.includes categories (trim input))) eqn:Hcond;
      [eapply selection_ok_snoc; eassumption | exact Hok].
  - destruct Hok as [Hnd Hne]. split; simpl.
    + apply NoDup_filter. exact Hnd.
    + apply Forall_forall. intros c Hc. apply list_elem_of_filter in Hc as [_ Hc].
      rewrite Forall_forall in Hne. exact (Hne c Hc).
  - intros c Hc. split.
    + destruct (Js.str_truthy (trim name) && _); simpl; [|exact Hc].
      apply elem_of_app. left. exact Hc.
    + destruct (Js.str_truthy (trim input) && _); simpl; [|exact Hc].
      apply elem_of_app. left. exact Hc.
  - intros Hin. apply list_elem_of_filter in Hin as [Hne _]. apply Hne. reflexivity.
  - destruct (Js.str_truthy (trim name) &&
              negb (CategorySetup.includes categories (trim name))) eqn:Hcond; simpl.
    + apply andb_prop in Hcond as [Htruthy _]. rewrite Htruthy. simpl.
      assert (Hin : CategorySetup.includes (categories ++ [trim name]) (trim name) = true).
      { apply includes_spec, elem_of_app. right. apply list_elem_of_singleton. reflexivity. }
      rewrite Hin. reflexivity.
    + rewrite Hcond. reflexivity.
Qed.

(** The loop of [handleComplete]: however the store behaves it adds one
    document for each name of an initial part of the list. *)
Lemma setup_loop_run (userId : string) (l : list string) :
  ∀ w : World,
    ∃ (r : result unit) (ids : list string) (w' : World),
      for_of l (λ categoryName,
        CategoryService.addCategory userId (CategoryInput.mk categoryName None None) ;;
        mret tt) w = (r, w') ∧
      length ids ≤ length l ∧
      db_expenses w' = db_expenses w ∧
      map_to_list (db_categories w') ≡ₚ
        zip ids
          ((λ categoryName,
              CategoryService.new_category_doc userId (serverTime w)
                (CategoryInput.mk categoryName None None)) <$> l) ++
        map_to_list (db_categories w) ∧
      (r = Ok tt → length ids = length l) ∧
      (calm w → r = Ok tt ∧ calm w').
Proof.
  induction l as [|name l IH]; intros w.
  - exists (Ok tt), [], w. simpl. split; [reflexivity|]. split; [lia|].
    split; [reflexivity|]. split; [reflexivity|]. split; [reflexivity | auto].
  - simpl for_of. unfold mbind, M_bind. rewrite addCategory_run.
    destruct (head (faults w)) as [[e|]|] eqn:Hhead.
    + exists (Throw (Error "Failed to add category")), [], (pop w).
      split; [reflexivity|]. split; [simpl; lia|]. split; [reflexivity|].
      split; [reflexivity|]. split; [discriminate|].
      intros Hcalm. exfalso.
      eapply (next_call_ok_head w); [apply calm_next_call_ok; exact Hcalm | exact Hhead].
    + set (id := fresh (dom (db_categories w))).
      set (w1 := set_db_categories _ (pop w)).
      destruct (IH w1) as (r & ids & w' & Hrun & Hlen & Hex & Hperm & Hall & Hcalm).
      exists r, (id :: ids), w'. split; [exact Hrun|]. split; [simpl; lia|].
      split; [exact Hex|]. split.
      { rewrite Hperm. subst w1 id. simpl. rewrite map_to_list_insert_fresh.
        apply Permutation_sym, Permutation_middle. }
      split; [intros Hr; simpl; rewrite (Hall Hr); reflexivity|].
      intros Hc. apply Hcalm. apply calm_pop. exact Hc.
    + set (id := fresh (dom (db_categories w))).
      set (w1 := set_db_categories _ (pop w)).
      destruct (IH w1) as (r & ids & w' & Hrun & Hlen & Hex & Hperm & Hall & Hcalm).
      exists r, (id :: ids), w'. split; [exact Hrun|]. split; [simpl; lia|].
      split; [exact Hex|]. split.
      { rewrite Hperm. subst w1 id. simpl. rewrite map_to_list_insert_fresh.
        apply Permutation_sym, Permutation_middle. }
      split; [intros Hr; simpl; rewrite (Hall Hr); reflexivity|].
      intros Hc. apply Hcalm. apply calm_pop. exact Hc.
Qed.

(** X29.  Completing the setup stores the selection: for a signed-in user,
    however the store behaves, [handleComplete] returns normally, touches no
    expense and creates category documents only for names of the selection,
    at most one each and in its order; it hands the selection to
    [onComplete] only when a document has been created for every name of a
    selection that is not empty, and with a store that does not fail it
    does so; the documents are owned by the user, are not default
    categories and have the stock colour and icon. *)
Theorem handleComplete_stores_selection (user : User.t) (st : CategorySetup.State)
    (w : World) :
  ∃ (r : option (list string)) (ids : list string) (w' : World),
    CategorySetup.handleComplete (Some user) st w = (Ok r, w') ∧
    db_expenses w' = db_expenses w ∧
    length ids ≤ length (CategorySetup.categories st) ∧
    map_to_list (db_categories w') ≡ₚ
      zip ids
        ((λ categoryName,
            FirestoreCategory.mk (User.id user) categoryName
              (Some "#6B7280") (Some "📁") (Timestamp (serverTime w))
              (Js.Bool false) (Js.Bool true) (Js.Num 0)) <$>
         CategorySetup.categories st) ++
      map_to_list (db_categories w) ∧
    (∀ names, r = Some names →
       names = CategorySetup.categories st ∧ names ≠ [] ∧
       length ids = length (CategorySetup.categories st)) ∧
    (calm w → CategorySetup.categories st ≠ [] →
       r = Some (CategorySetup.categories st)).
Proof.
  unfold CategorySetup.handleComplete.
  destruct (CategorySetup.categories st) as [|name l] eqn:Hcats.
  { exists None, [], w. simpl. split; [reflexivity|]. split; [reflexivity|].
    split; [lia|]. split; [reflexivity|]. split; [discriminate | intros _ Hn; contradiction]. }
  change (length (name :: l) =? 0)%nat with false. cbv iota.
  destruct (setup_loop_run (User.id user) (name :: l) w)
    as (r & ids & w' & Hrun & Hlen & Hex & Hperm & Hall & Hcalm).
  unfold try_catch, mbind at 1, M_bind at 1.
  rewrite Hrun. destruct r as [[]|e].
  - exists (Some (name :: l)), ids, w'. split; [reflexivity|]. split; [exact Hex|].
    split; [exact Hlen|]. split; [exact Hperm|].
    split; [intros names [= <-]; split; [reflexivity|]; split; [discriminate|];
            apply Hall; reflexivity|].
    intros _ _. reflexivity.
  - exists None, ids, w'. split; [reflexivity|]. split; [exact Hex|].
    split; [exact Hlen|]. split; [exact Hperm|].
    split; [discriminate|].
    intros Hc _. destruct (Hcalm Hc) as [Hr _]. discriminate.
Qed.

End SetupScreen.

(** ** The further properties on the sample data *)

Lemma signIn_success_sound_witness :
  let run := AuthService.signIn "ana@example.com" "secret" Examples.fresh_backend in
  ∃ firebaseUser : FirebaseUser.t,
    accounts Examples.fresh_backend "ana@example.com" "secret" = inr firebaseUser ∧
    next_call_ok Examples.fresh_backend ∧
    allowlisted Examples.fresh_backend "ana@example.com" ∧
    auth_currentUser run.2 = Some firebaseUser.
Proof.
  pose (run := AuthService.signIn "ana@example.com" "secret" Examples.fresh_backend).
  destruct (signIn_success_sound Examples.fresh_backend run.2 "ana@example.com" "secret"
              (AuthResult.mk true
                 (Some (User.mk "uid:ana@example.com" "ana" (Some "ana@example.com"))) None))
    as (fu & Hacc & Hok & Hallow & Hsess & _);
    [vm_compute; reflexivity | reflexivity |].
  exists fu. split; [exact Hacc|]. split; [exact Hok|]. split; [exact Hallow | exact Hsess].
Defined.

Lemma signIn_listed_writes_profile_witness :
  ∃ w' : World,
    AuthService.signIn "ana@example.com" "secret" Examples.fresh_backend =
      (Ok (AuthResult.mk true
             (Some (User.mk "uid:ana@example.com" "ana" (Some "ana@example.com"))) None),
       w') ∧
    db_users w' !! "uid:ana@example.com" =
      Some (UserDoc.mk "uid:ana@example.com" (Some "ana@example.com") "ana"
              "uid:ana@example.com" (Timestamp 7) (Timestamp 7) true).
Proof.
  destruct (signIn_listed_writes_profile Examples.fresh_backend "ana@example.com" "secret"
              (FirebaseUser.mk "uid:ana@example.com" (Some "ana@example.com") None)
              "ana@example.com")
    as (w' & Hrun & _ & Hfirst & _);
    [constructor | reflexivity
    | exists (AuthorizedUser.mk (Js.Bool true)); split; [vm_compute; reflexivity | reflexivity]
    | reflexivity |].
  exists w'. split; [exact Hrun|].
  rewrite Hfirst by (vm_compute; reflexivity).
  rewrite lookup_insert_eq. reflexivity.
Defined.

Lemma addCategory_read_back_witness :
  ∃ (id : string) (w1 : World),
    CategoryService.addCategory "u1" (CategoryInput.mk "Pets" None None)
      Examples.ledger = (Ok id, w1) ∧
    db_categories Examples.ledger !! id = None ∧
    @CategoryService.getCategory Examples.platform id w1 =
      (Ok (Some (Category.mk id "u1" "Pets" (Some "#6B7280") (Some "📁") "tick-7"
                   (Js.Bool false) true (Js.Num 0))), pop w1).
Proof.
  destruct (@addCategory_read_back Examples.platform "u1"
              (CategoryInput.mk "Pets" None None) Examples.ledger calm_ledger)
    as (id & w1 & Hadd & Hfresh & _ & _ & Hget & _).
  exists id, w1. split; [exact Hadd|]. split; [exact Hfresh | exact Hget].
Defined.

Lemma deleteCategory_hides_witness :
  ∃ w1 : World,
    CategoryService.deleteCategory "c1" Examples.ledger = (Ok tt, w1) ∧
    @CategoryService.snapshot_userCategories Examples.platform "u1" w1 ≡ₚ
      filter (λ c, Category.id c ≠ "c1")
        (@CategoryService.snapshot_userCategories Examples.platform "u1" Examples.ledger).
Proof.
  destruct (@deleteCategory_hides Examples.platform "c1"
              (Examples.category_doc "u1" "Food") Examples.ledger calm_ledger)
    as (w1 & Hdel & _ & _ & Hlist & _); [vm_compute; reflexivity|].
  exists w1. split; [exact Hdel | apply Hlist].
Defined.

Lemma category_writes_to_missing_witness :
  CategoryService.deleteCategory "c9" Examples.ledger =
    (Throw (Error "Failed to delete category"), pop Examples.ledger) ∧
  CategoryService.updateCategory "c9" (CategoryPatch.mk (Some "Pets") None None None)
    Examples.ledger =
    (Throw (Error "Failed to update category"), pop Examples.ledger) ∧
  CategoryService.updateCategoryExpenseCount "c9" 2 Examples.ledger =
    (Ok tt, pop Examples.ledger).
Proof.
  destruct (category_writes_to_missing "c9" (CategoryPatch.mk (Some "Pets") None None None)
              2%float Examples.ledger) as (Hdel & Hupd & Hcount & _);
    [vm_compute; reflexivity|].
  split; [exact Hdel|]. split; [exact Hupd | exact Hcount].
Defined.

Lemma permanentlyDeleteCategory_removes_witness :
  ∃ w1 : World,
    CategoryService.permanentlyDeleteCategory "c1" Examples.ledger = (Ok tt, w1) ∧
    @CategoryService.getCategory Examples.platform "c1" w1 = (Ok None, pop w1).
Proof.
  destruct (@permanentlyDeleteCategory_removes Examples.platform "c1" Examples.ledger
              calm_ledger) as (w1 & Hdel & _ & Hget & _).
  exists w1. split; [exact Hdel | exact Hget].
Defined.

Lemma deleteCategory_then_reactivate_witness :
  ∃ w1 w2 : World,
    CategoryService.deleteCategory "c1" Examples.ledger = (Ok tt, w1) ∧
    CategoryService.updateCategory "c1" (CategoryPatch.mk None None None (Some true)) w1 =
      (Ok tt, w2) ∧
    db_categories w2 = db_categories Examples.ledger.
Proof.
  destruct (deleteCategory_then_reactivate "c1" (Examples.category_doc "u1" "Food")
              Examples.ledger calm_ledger)
    as (w1 & w2 & Hdel & Hupd & Hcat & _); [vm_compute; reflexivity | reflexivity |].
  exists w1, w2. split; [exact Hdel|]. split; [exact Hupd | exact Hcat].
Defined.

Lemma ensure_writes_only_when_empty_witness :
  @CategoryService.ensureUserHasCategories Examples.platform "u1" Examples.ledger =
    (Ok (@CategoryService.snapshot_userCategories Examples.platform "u1" Examples.ledger),
     pop Examples.ledger).
Proof.
  destruct (@ensure_writes_only_when_empty Examples.platform "u1" Examples.ledger)
    as (r & Hrun & Hok & _); [left; vm_compute; discriminate|].
  rewrite Hrun, (Hok I). reflexivity.
Defined.

Lemma ensure_reseeds_without_active_witness :
  length (user_categories "u1" Scenarios.retired) = 1 ∧
  ∃ (cats : list Category.t) (w' : World),
    @CategoryService.ensureUserHasCategories Examples.platform "u1" Scenarios.retired =
      (Ok cats, w') ∧
    length cats = 8 ∧
    length (user_categories "u1" w') = 9.
Proof.
  split; [vm_compute; reflexivity|].
  destruct (@ensure_reseeds_without_active Examples.platform "u1" Scenarios.retired)
    as (cats & w' & Hrun & Hlen & Hnames & _ & Hdocs & _);
    [constructor | vm_compute; reflexivity |].
  exists cats, w'. split; [exact Hrun|]. split; [exact Hlen|].
  rewrite Hdocs, length_app, length_zip, !length_fmap, Hlen. reflexivity.
Defined.

Lemma createDefaultCategories_keeps_partial_witness :
  ∃ (ids : list string) (w' : World),
    @CategoryService.createDefaultCategories Examples.platform "u1" (Scenarios.outage 2) =
      (Throw (Error "Failed to create default categories"), w') ∧
    length ids = 2 ∧
    map_to_list (db_categories w') ≡ₚ
      zip ids (CategoryService.default_doc "u1" 7 <$>
                 take 2 CategoryService.defaultCategories).
Proof.
  destruct (@createDefaultCategories_keeps_partial Examples.platform "u1" 2
              (Error "unavailable") [] (Scenarios.outage 2))
    as (ids & w' & Hrun & _ & Hlen & _ & Hperm & _); [reflexivity | lia |].
  exists ids, w'. split; [exact Hrun|]. split; [exact Hlen|].
  rewrite Hperm. change (map_to_list (db_categories (Scenarios.outage 2)))
    with (map_to_list (∅ : gmap string FirestoreCategory.t)).
  rewrite map_to_list_empty, app_nil_r. reflexivity.
Defined.

Lemma addExpense_read_back_witness :
  ∃ (id : string) (w1 : World),
    ExpenseService.addExpense "u1" Scenarios.coffee Examples.ledger = (Ok id, w1) ∧
    @ExpenseService.getExpense Examples.platform id w1 =
      (Ok (Some (Expense.mk id 3.5 "Coffee" "Food" "2025-01-16" "tick-7")), pop w1) ∧
    count_category "u1" "Food" w1 = 3.
Proof.
  destruct (@addExpense_read_back Examples.platform "u1" Scenarios.coffee Examples.ledger
              calm_ledger)
    as (id & w1 & Hadd & _ & _ & _ & Hget & _ & _ & Hcount).
  exists id, w1. split; [exact Hadd|]. split; [exact Hget|].
  transitivity (S (count_category "u1" "Food" Examples.ledger));
    [exact Hcount | vm_compute; reflexivity].
Defined.

Lemma deleteExpense_removes_witness :
  ∃ w1 : World,
    ExpenseService.deleteExpense "e1" Examples.ledger = (Ok tt, w1) ∧
    @ExpenseService.getExpense Examples.platform "e1" w1 = (Ok None, pop w1).
Proof.
  destruct (@deleteExpense_removes Examples.platform "e1" Examples.ledger calm_ledger)
    as (w1 & Hdel & _ & Hget & _).
  exists w1. split; [exact Hdel | exact Hget].
Defined.

Lemma updateExpense_read_back_witness :
  ∃ w1 : World,
    ExpenseService.updateExpense "e1"
      (ExpensePatch.mk (Some "zz") (Some 50%float) None None None None)
      Examples.ledger = (Ok tt, w1) ∧
    @ExpenseService.getExpense Examples.platform "e1" w1 =
      (Ok (Some (Expense.mk "e1" 50 "Groceries" "Food" "2025-01-15" "tick-2")), pop w1).
Proof.
  destruct (@updateExpense_read_back Examples.platform "e1"
              (ExpensePatch.mk (Some "zz") (Some 50%float) None None None None)
              (Examples.expense_doc "u1" "Food" "Groceries" 45.5) Examples.ledger
              calm_ledger)
    as (w1 & Hupd & _ & _ & _ & Hget & _); [vm_compute; reflexivity|].
  exists w1. split; [exact Hupd | exact Hget].
Defined.

Lemma getExpensesByCategory_agrees_witness :
  ∃ l : list Expense.t,
    @ExpenseService.getExpensesByCategory Examples.platform "u1" "Food" Examples.ledger =
      (Ok l, pop Examples.ledger) ∧
    length l = 2.
Proof.
  destruct (@getExpensesByCategory_agrees Examples.platform "u1" "Food" Examples.ledger I)
    as (l & Hrun & _ & _ & Hlen).
  exists l. split; [exact Hrun|]. rewrite Hlen. vm_compute. reflexivity.
Defined.

Lemma confirm_delete_removes_expenses_witness :
  ∃ (st' : CategoryManagement.State) (w' : World),
    @CategoryManagement.confirmDeleteCategory Examples.platform Examples.ledger_props
      (Examples.ledger_state (Some "Food") EmptyString) Examples.ledger = (Ok st', w') ∧
    db_expenses w' !! "e1" = None ∧
    db_expenses w' !! "e2" = db_expenses Examples.ledger !! "e2" ∧
    db_expenses w' !! "e4" = db_expenses Examples.ledger !! "e4" ∧
    count_category "u1" "Food" w' = 0.
Proof.
  destruct (@confirm_delete_removes_expenses Examples.platform Examples.ledger_props
              (Examples.ledger_state (Some "Food") EmptyString) Examples.ledger Examples.u1
              (@CategoryService.convertToCategory Examples.platform
                 ("c1", Examples.category_doc "u1" "Food"))
              "Food")
    as (st' & w' & Hrun & Hchar & Hcount & _);
    [constructor | reflexivity | reflexivity | reflexivity | discriminate | reflexivity
    | vm_compute; reflexivity | eexists; vm_compute; reflexivity |].
  exists st', w'. split; [exact Hrun|].
  rewrite !Hchar. split; [vm_compute; reflexivity|].
  split; [vm_compute; reflexivity|]. split; [vm_compute; reflexivity | exact Hcount].
Defined.

Lemma confirm_with_replacement_keeps_expenses_witness :
  ∃ (st' : CategoryManagement.State) (w' : World),
    @CategoryManagement.confirmDeleteCategory Examples.platform Examples.ledger_props
      (Examples.ledger_state (Some "Food") "Rent")
      (set_faults [None; Some (Error "unavailable")] Examples.ledger) = (Ok st', w') ∧
    dom (db_expenses w') = dom (db_expenses Examples.ledger).
Proof.
  destruct (@confirm_with_replacement_keeps_expenses Examples.platform
              Examples.ledger_props (Examples.ledger_state (Some "Food") "Rent")
              (set_faults [None; Some (Error "unavailable")] Examples.ledger))
    as (st' & w' & Hrun & Hdom & _); [discriminate|].
  exists st', w'. split; [exact Hrun | exact Hdom].
Defined.

Lemma rename_category_moves_expenses_witness :
  ∃ (st' : CategoryManagement.State) (inp' : CategoryManagement.Inputs) (w' : World),
    @CategoryManagement.handleEditCategory Examples.platform Examples.ledger_props
      Scenarios.trim "Food" " Groceries " (Examples.ledger_state None EmptyString)
      Scenarios.inputs Examples.ledger = (Ok (st', inp'), w') ∧
    FirestoreCategory.name <$> db_categories w' !! "c1" = Some "Groceries" ∧
    count_category "u1" "Food" w' = 0 ∧
    count_category "u1" "Groceries" w' = 2 ∧
    CategoryManagement.editingCategory inp' = None ∧
    db_expenses w' !! "e1" =
      Some (FirestoreExpense.mk "u1" 45.5 "Groceries" "Groceries" "2025-01-15"
              (IsoText "tick-2") (Some (Timestamp 7)) (Some "e1")) ∧
    db_expenses w' !! "e2" = db_expenses Examples.ledger !! "e2".
Proof.
  destruct (@rename_category_moves_expenses Examples.platform Examples.ledger_props
              Scenarios.trim (Examples.ledger_state None EmptyString) Scenarios.inputs
              Examples.ledger Examples.u1
              (@CategoryService.convertToCategory Examples.platform
                 ("c1", Examples.category_doc "u1" "Food"))
              "Food" " Groceries ")
    as (st' & inp' & w' & Hrun & Hcat & Hold & Hnew & _ & _ & Hedit & _ & _ & _ & Hdocs);
    [constructor | reflexivity | reflexivity | vm_compute; reflexivity
    | eexists; vm_compute; reflexivity | vm_compute; discriminate
    | vm_compute; discriminate | vm_compute; reflexivity |].
  exists st', inp', w'. split; [exact Hrun|].
  split; [rewrite Hcat; vm_compute; reflexivity|].
  split; [exact Hold|].
  split; [transitivity (count_category "u1" "Groceries" Examples.ledger +
                        count_category "u1" "Food" Examples.ledger);
          [exact Hnew | vm_compute; reflexivity]|].
  split; [exact Hedit|]. rewrite !Hdocs. split; vm_compute; reflexivity.
Defined.

Lemma category_totals_keys_witness :
  (@categoryTotals Examples.platform Examples.tenths).*1 = ["Food"; "Transport"] ∧
  length (@categoryTotals Examples.platform Examples.tenths) =
    size (list_to_set (C := gset string) (Expense.category <$> Examples.tenths)).
Proof.
  split; [vm_compute; reflexivity|].
  apply (category_totals_keys Expense.category (λ expense, Number (Expense.amount expense))
           (@plus Examples.platform) (Number 0) total_truthy Member Examples.tenths).
  unfold own_names.
  repeat (apply Forall_cons; split; [apply (bool_decide_unpack _); vm_compute; exact I|]).
  apply Forall_nil_2.
Defined.

Lemma category_total_of_own_expenses_witness :
  obj_get Member "Food" (@categoryTotals Examples.platform Examples.tenths) =
    Some (subtotal (@plus Examples.platform) (Number 0) total_truthy
            [Number 0.1; Number 0.7]) ∧
  subtotal (@plus Examples.platform) (Number 0) total_truthy [Number 0.1; Number 0.7] =
    Number 0.79999999999999993.
Proof.
  split; [|vm_compute; reflexivity].
  apply (category_total_of_own_expenses Expense.category
           (λ expense, Number (Expense.amount expense)) (@plus Examples.platform)
           (Number 0) total_truthy Member Examples.tenths "Food").
  - unfold own_names.
    repeat (apply Forall_cons; split; [apply (bool_decide_unpack _); vm_compute; exact I|]).
    apply Forall_nil_2.
  - apply (bool_decide_unpack _). vm_compute. exact I.
Defined.

Lemma selection_stays_ok_witness :
  selection_ok Scenarios.selection ∧
  CategorySetup.categories
    (CategorySetup.handleAddCustomCategory Scenarios.trim Scenarios.selection) =
    ["Food & Dining"; "Housing"; "Pets"] ∧
  selection_ok (CategorySetup.handleAddCustomCategory Scenarios.trim Scenarios.selection) ∧
  selection_ok (CategorySetup.handleRemoveCategory "Housing" Scenarios.selection).
Proof.
  assert (Hok : selection_ok Scenarios.selection).
  { split.
    - apply NoDup_cons. split; [|apply NoDup_singleton].
      intros Hin. apply list_elem_of_singleton in Hin. discriminate.
    - repeat (constructor; [discriminate|]). constructor. }
  split; [exact Hok|]. split; [vm_compute; reflexivity|].
  destruct (selection_stays_ok Scenarios.trim Scenarios.selection "Housing" Hok)
    as (_ & Hcustom & Hremove & _).
  split; [exact Hcustom | exact Hremove].
Defined.
